(** * tqdm.c: the update / throttle / render engine

    A shallow embedding of [src/src/tqdm.c] (with the types of
    [src/include/tqdm/tqdm.h]) and the properties of its specification.

    Conventions of the embedding.
    - [size_t] is a 64-bit unsigned integer, [unsigned] a 32-bit one and [int]
      a 32-bit signed one; they are values of [Z] and every operation that can
      wrap writes its wrap-around out.
    - [double] is IEEE-754 binary64, taken from the Standard Library's
      executable specification of floating point ([SpecFloat], precision 53,
      exponent bound 1024).  A [float] field is widened to [double] when it is
      read, so it is held as the [double] it widens to.
    - A nullable [char *] is an [option string]; strings are byte strings.
    - The calls to [gettimeofday], [ioctl] and [fprintf] act on a [world]:
      the readings of the clock, the answer of the terminal probe and the
      text written to the instance's output sink.
    - The per-instance mutex is not modelled: every operation is taken as it
      runs once the lock is held.  [malloc], [strdup] and [calloc] succeed.
    - Buffers filled by [snprintf] are cut at their size; the other buffers
      are strings of any length.  A conversion from [double] to an integer
      type whose value does not fit is undefined in C: the embedding
      saturates (and gives 0 for a NaN), and what it says of such a
      conversion is not a statement about the program.  The two places
      where the bar of the meter can leave defined behaviour, this
      conversion in ASCII mode and the size of the buffer in glyph mode,
      have their conditions written out ([ascii_bar_defined],
      [glyph_bar_defined]). *)

From Stdlib Require Import ZArith List String Ascii Bool Lia.
From Stdlib Require Import SpecFloat DecimalString.
Import ListNotations.

Local Open Scope string_scope.
Local Open Scope Z_scope.

(** ** Machine integers *)

Module CInt.

Definition SIZE_T_MAX : Z := 2 ^ 64 - 1.
Definition INT_MAX : Z := 2 ^ 31 - 1.
Definition INT_MIN : Z := - 2 ^ 31.
Definition LLONG_MAX : Z := 2 ^ 63 - 1.
Definition LLONG_MIN : Z := - 2 ^ 63.

(** Conversion to [size_t]: reduction modulo 2^64. *)
Definition to_size (z : Z) : Z := z mod 2 ^ 64.

(** Conversion to [unsigned]: reduction modulo 2^32. *)
Definition to_unsigned (z : Z) : Z := z mod 2 ^ 32.

(** Conversion of an integer to [int]: the value modulo 2^32 that lies in
    the range of [int]. *)
Definition to_int (z : Z) : Z := (z + 2 ^ 31) mod 2 ^ 32 - 2 ^ 31.

Definition is_size (z : Z) : Prop := 0 <= z <= SIZE_T_MAX.
Definition is_unsigned (z : Z) : Prop := 0 <= z < 2 ^ 32.

End CInt.

(** ** Doubles *)

Module Double.

Definition double : Type := spec_float.

Definition prec : Z := 53.
Definition emax : Z := 1024.

(** The double nearest to [m * 2^e]. *)
Definition make (m e : Z) : double := binary_normalize prec emax m e false.

(** Conversion of an integer to [double]. *)
Definition of_Z (z : Z) : double := make z 0.

Definition zero : double := S754_zero false.

Definition add (x y : double) : double := SFadd prec emax x y.
Definition sub (x y : double) : double := SFsub prec emax x y.
Definition mul (x y : double) : double := SFmul prec emax x y.
Definition div (x y : double) : double := SFdiv prec emax x y.
Definition fabs (x : double) : double := SFabs x.

(** [x < y], [x <= y] and [x == y] of C; each is false when an operand is
    a NaN. *)
Definition ltb (x y : double) : bool := SFltb x y.
Definition leb (x y : double) : bool := SFleb x y.
Definition eqb (x y : double) : bool := SFeqb x y.

(** The integer part of a double, rounded toward zero; [None] for an
    infinity or a NaN. *)
Definition trunc (x : double) : option Z :=
  match x with
  | S754_zero _ => Some 0
  | S754_finite s m e =>
      let a := match e with
               | Zneg p => Z.shiftr (Zpos m) (Zpos p)
               | _ => Z.shiftl (Zpos m) e
               end in
      Some (if s then - a else a)
  | S754_infinity _ => None
  | S754_nan => None
  end.

(** Conversion to an integer type with the range [lo .. hi].  C defines
    the conversion only when the integer part [trunc x] lies in the range;
    outside it (and for a NaN) the program has no defined result (the
    x86-64 code yields the lowest value of the type), and the value given
    here, the nearest bound (0 for a NaN), says nothing about the
    program. *)
Definition to_range (lo hi : Z) (x : double) : Z :=
  match x with
  | S754_nan => 0
  | S754_infinity s => if s then lo else hi
  | _ => match trunc x with
         | Some z => Z.max lo (Z.min hi z)
         | None => 0
         end
  end.

Definition to_int (x : double) : Z := to_range CInt.INT_MIN CInt.INT_MAX x.
Definition to_long_long (x : double) : Z :=
  to_range CInt.LLONG_MIN CInt.LLONG_MAX x.

(** The exact value of a finite double as a fraction [num / den], [den > 0],
    and its sign. *)
Definition magnitude (x : double) : Z * Z :=
  match x with
  | S754_finite _ m e =>
      match e with
      | Zneg p => (Zpos m, 2 ^ Zpos p)
      | _ => (Zpos m * 2 ^ e, 1)
      end
  | _ => (0, 1)
  end.

Definition signbit (x : double) : bool :=
  match x with
  | S754_zero s => s
  | S754_infinity s => s
  | S754_finite s _ _ => s
  | S754_nan => false
  end.

End Double.

Definition double : Type := Double.double.

(** ** The conversions of [printf] *)

Module Printf.

(** ["%d"], ["%lld"] and ["%zu"]. *)
Definition dec (z : Z) : string := NilZero.string_of_int (Z.to_int z).

Fixpoint repeat_str (s : string) (k : nat) : string :=
  match k with
  | O => ""
  | S k' => s ++ repeat_str s k'
  end.

Definition pad_left (fill : string) (width : nat) (s : string) : string :=
  repeat_str fill (width - String.length s) ++ s.

(** ["%02d"]. *)
Definition dec02 (z : Z) : string :=
  if z <? 0 then "-" ++ pad_left "0" 1 (dec (- z)) else pad_left "0" 2 (dec z).

(** The integer nearest to [num / den] ([den > 0]), ties to the even one:
    [printf] rounds the exact value of the double this way. *)
Definition round_half_even (num den : Z) : Z :=
  let q := num / den in
  let r := num mod den in
  match 2 * r ?= den with
  | Lt => q
  | Gt => q + 1
  | Eq => if Z.even q then q else q + 1
  end.

Definition sign_str (x : double) : string :=
  if Double.signbit x then "-" else "".

(** The digits of [q] with a point before the last [places] of them. *)
Definition with_point (places : nat) (q : Z) : string :=
  let digits := pad_left "0" (S places) (dec q) in
  let len := String.length digits in
  match places with
  | O => digits
  | _ => substring 0 (len - places) digits ++ "." ++
         substring (len - places) places digits
  end.

(** ["%.<places>f"].  The doubles of the embedding have one NaN, without
    a sign: its text stands for both the [nan] and the [-nan] that the C
    library prints, by the sign bit of the NaN at hand. *)
Definition fixed (places : nat) (x : double) : string :=
  match x with
  | S754_nan => "nan"
  | S754_infinity _ => sign_str x ++ "inf"
  | _ =>
      let '(num, den) := Double.magnitude x in
      sign_str x ++
      with_point places (round_half_even (num * 10 ^ Z.of_nat places) den)
  end.

(** ["%3.0f"]. *)
Definition fixed3_0 (x : double) : string := pad_left " " 3 (fixed 0 x).

(** The text without the zeros at its end. *)
Fixpoint strip_zeros (s : string) : string :=
  match s with
  | EmptyString => EmptyString
  | String c rest =>
      match strip_zeros rest with
      | EmptyString => if Ascii.eqb c "0"%char then EmptyString
                       else String c EmptyString
      | rest' => String c rest'
      end
  end.

(** The number of decimal digits of [q >= 1]. *)
Definition digits10 (q : Z) : Z := Z.of_nat (String.length (dec q)).

(** The decimal exponent of [num / den > 0]: the [X] with
    [10^X <= num / den < 10^(X+1)]. *)
Definition floor_log10 (num den : Z) : Z :=
  if den <=? num then digits10 (num / den) - 1
  else - digits10 ((den + num - 1) / num - 1).

(** [num / den] scaled by [10^s] and rounded to an integer. *)
Definition scaled (num den s : Z) : Z :=
  if 0 <=? s then round_half_even (num * 10 ^ s) den
  else round_half_even num (den * 10 ^ (- s)).

(** ["%.3g"]: three significant digits, in the exponent style when the
    decimal exponent is below -4 or at least 3, without the zeros at the end
    of the fraction. *)
Definition general3 (x : double) : string :=
  match x with
  | S754_nan => "nan"
  | S754_infinity _ => sign_str x ++ "inf"
  | S754_zero _ => sign_str x ++ "0"
  | S754_finite _ _ _ =>
      let '(num, den) := Double.magnitude x in
      let X0 := floor_log10 num den in
      let N0 := scaled num den (2 - X0) in
      let '(N, X) := if 1000 <=? N0 then (N0 / 10, X0 + 1) else (N0, X0) in
      let point frac := match frac with
                        | EmptyString => ""
                        | _ => "." ++ frac
                        end in
      sign_str x ++
      if (X <? -4) || (3 <=? X) then
        let digits := dec N in
        substring 0 1 digits ++ point (strip_zeros (substring 1 2 digits)) ++
        "e" ++ (if X <? 0 then "-" else "+") ++ pad_left "0" 2 (dec (Z.abs X))
      else
        let places := Z.to_nat (2 - X) in
        let digits := pad_left "0" (S places) (dec N) in
        let len := String.length digits in
        substring 0 (len - places) digits ++
        point (strip_zeros (substring (len - places) places digits))
  end.

(** What [snprintf (buffer, size, ...)] leaves in the buffer: the text cut
    to [size - 1] bytes. *)
Definition snprintf (size : nat) (s : string) : string :=
  substring 0 (size - 1) s.

End Printf.

(** ** The data model ([tqdm.h]) *)

(** [struct tqdm_params_s].  The output handle [file] is the sink of the
    [world] below. *)
Record tqdm_params_t : Type := {
  desc : option string;
  total : Z;
  leave : bool;
  ncols : Z;
  mininterval : double;
  miniters : Z;
  ascii : bool;
  disable : bool;
  unit_ : option string;
  unit_scale : bool;
  dynamic_ncols : bool;
  smoothing : double;
  bar_format : option string;
  initial : Z;
  position : Z;
  postfix : option string;
  unit_divisor : double;
  colour : option string;
  delay : double
}.

(** [struct tqdm_s].  Pointers into the wrapped array are addresses, 0 for
    [NULL].  The adapter's functions and the state they work on stay
    outside the record (see [tqdm_next]). *)
Record tqdm_t : Type := {
  current : Z;
  end_ : Z;
  element_size : Z;
  n : Z;
  count : Z;
  params : tqdm_params_t;
  start_time : double;
  last_print_time : double;
  last_print_count : Z;
  closed : bool;
  paused : bool;
  pause_start : double;
  total_pause_time : double;
  rate_history : list double;
  rate_history_size : Z;
  rate_history_idx : Z;
  cached_rate : double;
  last_rate_calc_time : double;
  last_rate_calc_n : Z;
  cached_terminal_width : Z;
  last_terminal_check : double;
  display_buffer : string;
  iterator_mode : bool
}.

(** Field updates. *)

Definition set_total (v : Z) (p : tqdm_params_t) : tqdm_params_t :=
  {| desc := desc p; total := v; leave := leave p; ncols := ncols p;
     mininterval := mininterval p; miniters := miniters p; ascii := ascii p;
     disable := disable p; unit_ := unit_ p; unit_scale := unit_scale p;
     dynamic_ncols := dynamic_ncols p; smoothing := smoothing p;
     bar_format := bar_format p; initial := initial p;
     position := position p; postfix := postfix p;
     unit_divisor := unit_divisor p; colour := colour p; delay := delay p |}.

Definition set_miniters (v : Z) (p : tqdm_params_t) : tqdm_params_t :=
  {| desc := desc p; total := total p; leave := leave p; ncols := ncols p;
     mininterval := mininterval p; miniters := v; ascii := ascii p;
     disable := disable p; unit_ := unit_ p; unit_scale := unit_scale p;
     dynamic_ncols := dynamic_ncols p; smoothing := smoothing p;
     bar_format := bar_format p; initial := initial p;
     position := position p; postfix := postfix p;
     unit_divisor := unit_divisor p; colour := colour p; delay := delay p |}.

Definition set_desc (v : option string) (p : tqdm_params_t) : tqdm_params_t :=
  {| desc := v; total := total p; leave := leave p; ncols := ncols p;
     mininterval := mininterval p; miniters := miniters p; ascii := ascii p;
     disable := disable p; unit_ := unit_ p; unit_scale := unit_scale p;
     dynamic_ncols := dynamic_ncols p; smoothing := smoothing p;
     bar_format := bar_format p; initial := initial p;
     position := position p; postfix := postfix p;
     unit_divisor := unit_divisor p; colour := colour p; delay := delay p |}.

Definition set_postfix (v : option string) (p : tqdm_params_t)
  : tqdm_params_t :=
  {| desc := desc p; total := total p; leave := leave p; ncols := ncols p;
     mininterval := mininterval p; miniters := miniters p; ascii := ascii p;
     disable := disable p; unit_ := unit_ p; unit_scale := unit_scale p;
     dynamic_ncols := dynamic_ncols p; smoothing := smoothing p;
     bar_format := bar_format p; initial := initial p;
     position := position p; postfix := v;
     unit_divisor := unit_divisor p; colour := colour p; delay := delay p |}.

(** The counters of an instance. *)
Definition set_counters (n' count' : Z) (t : tqdm_t) : tqdm_t :=
  {| current := current t; end_ := end_ t; element_size := element_size t;
     n := n'; count := count'; params := params t;
     start_time := start_time t; last_print_time := last_print_time t;
     last_print_count := last_print_count t; closed := closed t;
     paused := paused t; pause_start := pause_start t;
     total_pause_time := total_pause_time t;
     rate_history := rate_history t;
     rate_history_size := rate_history_size t;
     rate_history_idx := rate_history_idx t; cached_rate := cached_rate t;
     last_rate_calc_time := last_rate_calc_time t;
     last_rate_calc_n := last_rate_calc_n t;
     cached_terminal_width := cached_terminal_width t;
     last_terminal_check := last_terminal_check t;
     display_buffer := display_buffer t;
     iterator_mode := iterator_mode t |}.

Definition set_n (v : Z) (t : tqdm_t) : tqdm_t := set_counters v (count t) t.

Definition set_current (v : Z) (t : tqdm_t) : tqdm_t :=
  {| current := v; end_ := end_ t; element_size := element_size t;
     n := n t; count := count t; params := params t;
     start_time := start_time t; last_print_time := last_print_time t;
     last_print_count := last_print_count t; closed := closed t;
     paused := paused t; pause_start := pause_start t;
     total_pause_time := total_pause_time t;
     rate_history := rate_history t;
     rate_history_size := rate_history_size t;
     rate_history_idx := rate_history_idx t; cached_rate := cached_rate t;
     last_rate_calc_time := last_rate_calc_time t;
     last_rate_calc_n := last_rate_calc_n t;
     cached_terminal_width := cached_terminal_width t;
     last_terminal_check := last_terminal_check t;
     display_buffer := display_buffer t;
     iterator_mode := iterator_mode t |}.

Definition set_params (v : tqdm_params_t) (t : tqdm_t) : tqdm_t :=
  {| current := current t; end_ := end_ t; element_size := element_size t;
     n := n t; count := count t; params := v;
     start_time := start_time t; last_print_time := last_print_time t;
     last_print_count := last_print_count t; closed := closed t;
     paused := paused t; pause_start := pause_start t;
     total_pause_time := total_pause_time t;
     rate_history := rate_history t;
     rate_history_size := rate_history_size t;
     rate_history_idx := rate_history_idx t; cached_rate := cached_rate t;
     last_rate_calc_time := last_rate_calc_time t;
     last_rate_calc_n := last_rate_calc_n t;
     cached_terminal_width := cached_terminal_width t;
     last_terminal_check := last_terminal_check t;
     display_buffer := display_buffer t;
     iterator_mode := iterator_mode t |}.

(** The timing bookkeeping: start, last render (time and count). *)
Definition set_timing (start last : double) (last_count : Z) (t : tqdm_t)
  : tqdm_t :=
  {| current := current t; end_ := end_ t; element_size := element_size t;
     n := n t; count := count t; params := params t;
     start_time := start; last_print_time := last;
     last_print_count := last_count; closed := closed t;
     paused := paused t; pause_start := pause_start t;
     total_pause_time := total_pause_time t;
     rate_history := rate_history t;
     rate_history_size := rate_history_size t;
     rate_history_idx := rate_history_idx t; cached_rate := cached_rate t;
     last_rate_calc_time := last_rate_calc_time t;
     last_rate_calc_n := last_rate_calc_n t;
     cached_terminal_width := cached_terminal_width t;
     last_terminal_check := last_terminal_check t;
     display_buffer := display_buffer t;
     iterator_mode := iterator_mode t |}.

Definition set_last_print (last : double) (last_count : Z) (t : tqdm_t)
  : tqdm_t :=
  set_timing (start_time t) last last_count t.

Definition set_closed (v : bool) (t : tqdm_t) : tqdm_t :=
  {| current := current t; end_ := end_ t; element_size := element_size t;
     n := n t; count := count t; params := params t;
     start_time := start_time t; last_print_time := last_print_time t;
     last_print_count := last_print_count t; closed := v;
     paused := paused t; pause_start := pause_start t;
     total_pause_time := total_pause_time t;
     rate_history := rate_history t;
     rate_history_size := rate_history_size t;
     rate_history_idx := rate_history_idx t; cached_rate := cached_rate t;
     last_rate_calc_time := last_rate_calc_time t;
     last_rate_calc_n := last_rate_calc_n t;
     cached_terminal_width := cached_terminal_width t;
     last_terminal_check := last_terminal_check t;
     display_buffer := display_buffer t;
     iterator_mode := iterator_mode t |}.

(** The pause bookkeeping: flag, start of the pause, paused time so far. *)
Definition set_pause (flag : bool) (start total_paused : double) (t : tqdm_t)
  : tqdm_t :=
  {| current := current t; end_ := end_ t; element_size := element_size t;
     n := n t; count := count t; params := params t;
     start_time := start_time t; last_print_time := last_print_time t;
     last_print_count := last_print_count t; closed := closed t;
     paused := flag; pause_start := start;
     total_pause_time := total_paused;
     rate_history := rate_history t;
     rate_history_size := rate_history_size t;
     rate_history_idx := rate_history_idx t; cached_rate := cached_rate t;
     last_rate_calc_time := last_rate_calc_time t;
     last_rate_calc_n := last_rate_calc_n t;
     cached_terminal_width := cached_terminal_width t;
     last_terminal_check := last_terminal_check t;
     display_buffer := display_buffer t;
     iterator_mode := iterator_mode t |}.

Definition set_rate_history (h : list double) (idx : Z) (t : tqdm_t)
  : tqdm_t :=
  {| current := current t; end_ := end_ t; element_size := element_size t;
     n := n t; count := count t; params := params t;
     start_time := start_time t; last_print_time := last_print_time t;
     last_print_count := last_print_count t; closed := closed t;
     paused := paused t; pause_start := pause_start t;
     total_pause_time := total_pause_time t;
     rate_history := h;
     rate_history_size := rate_history_size t;
     rate_history_idx := idx; cached_rate := cached_rate t;
     last_rate_calc_time := last_rate_calc_time t;
     last_rate_calc_n := last_rate_calc_n t;
     cached_terminal_width := cached_terminal_width t;
     last_terminal_check := last_terminal_check t;
     display_buffer := display_buffer t;
     iterator_mode := iterator_mode t |}.

Definition set_terminal_cache (width : Z) (checked : double) (t : tqdm_t)
  : tqdm_t :=
  {| current := current t; end_ := end_ t; element_size := element_size t;
     n := n t; count := count t; params := params t;
     start_time := start_time t; last_print_time := last_print_time t;
     last_print_count := last_print_count t; closed := closed t;
     paused := paused t; pause_start := pause_start t;
     total_pause_time := total_pause_time t;
     rate_history := rate_history t;
     rate_history_size := rate_history_size t;
     rate_history_idx := rate_history_idx t; cached_rate := cached_rate t;
     last_rate_calc_time := last_rate_calc_time t;
     last_rate_calc_n := last_rate_calc_n t;
     cached_terminal_width := width;
     last_terminal_check := checked;
     display_buffer := display_buffer t;
     iterator_mode := iterator_mode t |}.

(** ** The world outside the instance *)

(** [clock] lists what the successive calls of [gettimeofday] answer,
    as seconds; [ticks] counts the calls made so far.  [ws_col] is the
    column count that [ioctl (TIOCGWINSZ)] reports, [None] when the call
    fails.  [written] is the text sent to the output sink, oldest first. *)
Record world : Type := {
  clock : nat -> double;
  ticks : nat;
  ws_col : option Z;
  written : list string
}.

Definition current_time_seconds (w : world) : double * world :=
  (clock w (ticks w),
   {| clock := clock w; ticks := S (ticks w); ws_col := ws_col w;
      written := written w |}).

Definition get_terminal_width (w : world) : Z :=
  match ws_col w with
  | Some c => c
  | None => 80
  end.

Definition fprintf (s : string) (w : world) : world :=
  {| clock := clock w; ticks := ticks w; ws_col := ws_col w;
     written := (written w ++ [s])%list |}.

(** ** Formatting helpers *)

Import Printf.

Definition opt_str (s : option string) : string :=
  match s with
  | Some t => t
  | None => ""
  end.

(** [p && strlen (p) > 0]. *)
Definition nonempty (s : option string) : bool :=
  match s with
  | Some t => negb (String.eqb t "")
  | None => false
  end.

Definition tqdm_unicode_blocks : list string :=
  [" "; "▏"; "▎"; "▍"; "▌"; "▋"; "▊"; "▉"; "█"].

Definition unicode_block (i : Z) : string :=
  nth (Z.to_nat i) tqdm_unicode_blocks "".

(** The digit loop of [fast_format_int] writes the decimal digits of [num]
    from the last one back, then the sign; the buffers it is given are
    longer than any text it writes. *)
Definition fast_format_int (num : Z) : string :=
  if num =? 0 then "0" else dec num.

Definition prefixes : list string :=
  [""; "k"; "M"; "G"; "T"; "P"; "E"; "Z"; "Y"].

(** [while (num >= d && prefix_idx < 8) { num /= d; prefix_idx++; }].
    [fuel] bounds the number of rounds; 8 is enough from [prefix_idx = 0]
    (see [sizeof_scale_exit]). *)
Fixpoint sizeof_scale (fuel : nat) (d num : double) (prefix_idx : Z)
  : double * Z :=
  match fuel with
  | O => (num, prefix_idx)
  | S fuel' =>
      if Double.leb d num && (prefix_idx <? 8)
      then sizeof_scale fuel' d (Double.div num d) (prefix_idx + 1)
      else (num, prefix_idx)
  end.

(** The number part of [tqdm_format_sizeof]'s text. *)
Definition sizeof_number (num : double) (prefix_idx : Z) : string :=
  if Double.eqb num (Double.of_Z (Double.to_long_long num))
     && Double.ltb num (Double.of_Z 1000000)
  then dec (Double.to_long_long num)
  else if Double.leb (Double.of_Z 100) num || (prefix_idx =? 0)
  then fixed 0 num
  else if Double.leb (Double.of_Z 10) num
  then fixed 1 num
  else fixed 2 num.

Definition tqdm_format_sizeof (num : double) (suffix : option string)
  (divisor : Z) : string :=
  let '(num, prefix_idx) :=
    if divisor =? 1024
    then sizeof_scale 8 (Double.of_Z 1024) num 0
    else sizeof_scale 8 (Double.of_Z divisor) num 0 in
  let suffix_str := opt_str suffix in
  snprintf 64
    (sizeof_number num prefix_idx ++
     nth (Z.to_nat prefix_idx) prefixes "" ++ suffix_str).

Definition tqdm_format_interval (t : double) : string :=
  if Double.ltb t (Double.of_Z 0)
     || Double.ltb (Double.of_Z (86400 * 365)) t
  then "?"
  else
    let total_seconds := Double.to_int t in
    let hours := Z.quot total_seconds 3600 in
    let minutes := Z.quot (Z.rem total_seconds 3600) 60 in
    let seconds := Z.rem total_seconds 60 in
    let hours := if hours >? 99999 then 99999 else hours in
    let minutes := if minutes >? 59 then 59 else minutes in
    let seconds := if seconds >? 59 then 59 else seconds in
    if hours >? 0
    then snprintf 16 (dec02 hours ++ ":" ++ dec02 minutes ++ ":" ++
                      dec02 seconds)
    else snprintf 16 (dec02 minutes ++ ":" ++ dec02 seconds).

Definition tqdm_format_num (x : double) : string :=
  let absn := Double.fabs x in
  let '(suffix, scaled) :=
    if Double.leb (Double.of_Z (10 ^ 12)) absn
       && Double.ltb absn (Double.of_Z (10 ^ 15))
    then ("t", Double.div x (Double.of_Z (10 ^ 12)))
    else if Double.leb (Double.of_Z (10 ^ 9)) absn
    then ("b", Double.div x (Double.of_Z (10 ^ 9)))
    else if Double.leb (Double.of_Z (10 ^ 6)) absn
    then ("m", Double.div x (Double.of_Z (10 ^ 6)))
    else if Double.leb (Double.of_Z (10 ^ 3)) absn
    then ("k", Double.div x (Double.of_Z (10 ^ 3)))
    else ("", x) in
  if negb (String.eqb suffix "")
  then
    if Double.leb (Double.of_Z 100) (Double.fabs scaled)
    then snprintf 32 (fixed 0 scaled ++ suffix)
    else if Double.leb (Double.of_Z 10) (Double.fabs scaled)
    then snprintf 32 (fixed 1 scaled ++ suffix)
    else snprintf 32 (fixed 2 scaled ++ suffix)
  else if Double.ltb absn (Double.of_Z 1000)
          && Double.eqb x (Double.of_Z (Double.to_long_long x))
  then fast_format_int (Double.to_long_long x)
  else if Double.ltb absn (Double.of_Z (10 ^ 15))
  then snprintf 32 (fixed 0 x)
  else snprintf 32 (general3 x).

(** ** The meter *)

(** The guard of the remaining-time estimate and the estimate itself:
    [Some ((total - n) / rate)] where the source computes it. *)
Definition remaining_estimate (n total : Z) (rate : double)
  : option double :=
  if (total >? 0) && (n >? 0) && Double.ltb (Double.of_Z 0) rate
     && (n <? total)
  then Some (Double.div (Double.of_Z (CInt.to_size (total - n))) rate)
  else None.

Definition meter_remaining_str (n total : Z) (rate : double) : string :=
  match remaining_estimate n total rate with
  | Some remaining => tqdm_format_interval remaining
  | None => "?"
  end.

Definition meter_percentage (n total : Z) : double :=
  let percentage :=
    if total >? 0
    then Double.div (Double.mul (Double.of_Z 100) (Double.of_Z n))
           (Double.of_Z total)
    else Double.zero in
  if Double.ltb (Double.of_Z 100) percentage then Double.of_Z 100
  else percentage.

(** The three counts of the meter: [n], [total] and [rate] as text. *)
Definition meter_counts (n total : Z) (unit_ : option string)
  (unit_scale : bool) (rate : double) (unit_divisor : Z)
  : string * string * string :=
  if unit_scale then
    (tqdm_format_sizeof (Double.of_Z n) unit_ unit_divisor,
     if total >? 0
     then tqdm_format_sizeof (Double.of_Z total) unit_ unit_divisor
     else "?",
     if Double.leb rate (Double.of_Z 0) then "?"
     else tqdm_format_sizeof rate unit_ unit_divisor)
  else
    (tqdm_format_num (Double.of_Z n),
     if total >? 0 then tqdm_format_num (Double.of_Z total) else "?",
     if Double.leb rate (Double.of_Z 0) then "?" else tqdm_format_num rate).

Definition strlen (s : option string) : Z :=
  Z.of_nat (String.length (opt_str s)).

(** The width of the bar: the columns left by the estimated fixed part,
    within 1 .. 100. *)
Definition meter_bar_width (ncols : Z) (prefix postfix : option string) : Z :=
  let estimated_fixed := 50 in
  let estimated_fixed :=
    match prefix with
    | Some _ => CInt.to_int (estimated_fixed + strlen prefix)
    | None => estimated_fixed
    end in
  let estimated_fixed :=
    match postfix with
    | Some _ => CInt.to_int (estimated_fixed + strlen postfix)
    | None => estimated_fixed
    end in
  let bar_width :=
    if ncols >? estimated_fixed then CInt.to_int (ncols - estimated_fixed)
    else 10 in
  let bar_width := if bar_width <? 1 then 1 else bar_width in
  if bar_width >? 100 then 100 else bar_width.

(** The bar in ASCII mode: [filled] marks, then spaces up to [bar_width],
    where the terminator is written.  This is the program where
    [ascii_bar_defined] below holds; elsewhere the conversion to [int] is
    undefined and the program overruns the buffer. *)
Definition ascii_filled (bar_width n total : Z) : Z :=
  let filled :=
    if total >? 0
    then Double.to_int
           (Double.div (Double.mul (Double.of_Z bar_width) (Double.of_Z n))
              (Double.of_Z total))
    else 0 in
  if filled >? bar_width then bar_width else filled.

Definition ascii_bar (bar_width n total : Z) : string :=
  let filled := ascii_filled bar_width n total in
  substring 0 (Z.to_nat bar_width)
    (repeat_str "#" (Z.to_nat filled) ++
     repeat_str " " (Z.to_nat (bar_width - filled))).

(** The bar in glyph mode: full blocks, one partial block when the eighths
    leave a rest, then empty cells.  The text is what the loops write; it
    is the content of the buffer, of [bar_width * 4 + 1] bytes, where
    [glyph_bar_defined] below holds, and elsewhere the program writes past
    the buffer. *)
Definition glyph_bar (bar_width n total : Z) : string :=
  if (total >? 0) && (n >? 0) then
    let progress_fixed :=
      CInt.to_int (CInt.to_size (n * 8 * bar_width) / total) in
    let filled_full := Z.quot progress_fixed 8 in
    let partial := Z.rem progress_fixed 8 in
    let '(filled_full, partial) :=
      if filled_full >? bar_width then (bar_width, 0)
      else (filled_full, partial) in
    let full_cells :=
      repeat_str (unicode_block 8)
        (Z.to_nat (Z.min filled_full bar_width)) in
    let '(partial_cell, filled_full) :=
      if (filled_full <? bar_width) && (partial >? 0)
      then (unicode_block partial, filled_full + 1)
      else ("", filled_full) in
    full_cells ++ partial_cell ++
    repeat_str (unicode_block 0) (Z.to_nat (bar_width - filled_full))
  else repeat_str (unicode_block 0) (Z.to_nat bar_width).

Definition meter_bar (ascii : bool) (bar_width n total : Z) : string :=
  if ascii then ascii_bar bar_width n total
  else glyph_bar bar_width n total.

(** *** Where the bar stays within defined behaviour *)

(** The ASCII branch converts [(double) bar_width * n / total] to [int]
    and gives the result, clamped from above only, to [memset] as a count.
    The conversion is defined when the integer part of the quotient fits
    [int]; otherwise the compiled code gets [INT_MIN], the clamp does not
    apply, and [memset (bar, '#', filled)] with the count converted to
    [size_t] runs past the buffer.  The branch is within defined behaviour
    when the integer part lies in 0 .. [INT_MAX]. *)
Definition ascii_bar_defined (bar_width n total : Z) : bool :=
  if total >? 0 then
    match Double.trunc
            (Double.div (Double.mul (Double.of_Z bar_width) (Double.of_Z n))
               (Double.of_Z total)) with
    | Some z => (0 <=? z) && (z <=? CInt.INT_MAX)
    | None => false
    end
  else true.

(** The bytes that the glyph branch writes before the terminator:
    [strlen] of the block for every cell.  The first loop runs while
    [i < filled_full && i < bar_width]; the last one runs from
    [filled_full] up to [bar_width], from below 0 when [filled_full] is
    negative. *)
Definition glyph_bar_bytes (bar_width n total : Z) : Z :=
  let cell (i : Z) := Z.of_nat (String.length (unicode_block i)) in
  if (total >? 0) && (n >? 0) then
    let progress_fixed :=
      CInt.to_int (CInt.to_size (n * 8 * bar_width) / total) in
    let filled_full := Z.quot progress_fixed 8 in
    let partial := Z.rem progress_fixed 8 in
    let '(filled_full, partial) :=
      if filled_full >? bar_width then (bar_width, 0)
      else (filled_full, partial) in
    let full_bytes := Z.max 0 (Z.min filled_full bar_width) * cell 8 in
    let '(partial_bytes, filled_full) :=
      if (filled_full <? bar_width) && (partial >? 0)
      then (cell partial, filled_full + 1)
      else (0, filled_full) in
    full_bytes + partial_bytes + Z.max 0 (bar_width - filled_full) * cell 0
  else Z.max 0 bar_width * cell 0.

(** The buffer is [malloc (bar_width * 4 + 1)]: the branch is within
    defined behaviour when the bytes and the terminator fit it. *)
Definition glyph_bar_defined (bar_width n total : Z) : bool :=
  glyph_bar_bytes bar_width n total <=? bar_width * 4.

Definition meter_bar_defined (ascii : bool) (bar_width n total : Z) : bool :=
  if ascii then ascii_bar_defined bar_width n total
  else glyph_bar_defined bar_width n total.

(** The reduced layout printed when a template is given. *)
Definition meter_template (n total : Z) (elapsed : double)
  (prefix : option string) (rate : double) (postfix : option string)
  : string :=
  snprintf 256
    (opt_str prefix ++ ": " ++ dec n ++ "/" ++ dec total ++ " [" ++
     fixed 1 elapsed ++ "s, " ++ fixed 1 rate ++ "it/s] " ++ opt_str postfix).

(** The default layout, from its parts. *)
Definition meter_default (n total : Z) (elapsed : double) (ncols : Z)
  (prefix : option string) (ascii : bool) (unit_ : option string)
  (unit_scale : bool) (rate : double) (postfix : option string)
  (unit_divisor : Z) : string :=
  let percentage := meter_percentage n total in
  let remaining_str := meter_remaining_str n total rate in
  let elapsed_str := tqdm_format_interval elapsed in
  let '(n_str, total_str, rate_str) :=
    meter_counts n total unit_ unit_scale rate unit_divisor in
  let bar_width := meter_bar_width ncols prefix postfix in
  let bar := meter_bar ascii bar_width n total in
  let desc_part := if nonempty prefix then opt_str prefix else "" in
  let desc_sep := if nonempty prefix then ": " else "" in
  let unit_str := match unit_ with Some u => u | None => "it" end in
  let rate_unit_suffix := if unit_scale then "" else unit_str in
  let postfix_sep := if nonempty postfix then " " else "" in
  let postfix_str := opt_str postfix in
  snprintf 1024
    (desc_part ++ desc_sep ++ fixed3_0 percentage ++ "%|" ++ bar ++ "| " ++
     n_str ++ "/" ++ total_str ++ " [" ++ elapsed_str ++ "<" ++
     remaining_str ++ ", " ++ rate_str ++ rate_unit_suffix ++ "/s]" ++
     postfix_sep ++ postfix_str).

Definition tqdm_format_meter (n total : Z) (elapsed : double) (ncols : Z)
  (prefix : option string) (ascii : bool) (unit_ : option string)
  (unit_scale : bool) (rate : double) (bar_format : option string)
  (postfix : option string) (unit_divisor : Z) (initial : Z)
  (colour : option string) : string :=
  if nonempty bar_format
  then meter_template n total elapsed prefix rate postfix
  else meter_default n total elapsed ncols prefix ascii unit_ unit_scale
         rate postfix unit_divisor.

(** ** The engine *)

Definition CR : string := String (ascii_of_nat 13) "".
Definition LF : string := String (ascii_of_nat 10) "".
Definition ESC : string := String (ascii_of_nat 27) "".

(** The double nearest to [1e-6]. *)
Definition micro : double := Double.make 0x10c6f7a0b5ed8d (-72).

(** [0.1f], [0.3f] and [1000.0f], widened. *)
Definition float_0_1 : double := Double.make 13421773 (-27).
Definition float_0_3 : double := Double.make 5033165 (-24).
Definition float_1000 : double := Double.of_Z 1000.

Definition tqdm_update_dynamic_miniters (w : world) (tq : tqdm_t)
  : world * tqdm_t :=
  let '(current_time, w) := current_time_seconds w in
  let time_diff := Double.sub current_time (last_print_time tq) in
  if Double.ltb (Double.of_Z 0) time_diff && (miniters (params tq) =? 0)
  then
    let count_diff := CInt.to_size (n tq - last_print_count tq) in
    if (count_diff >? 0) && Double.ltb time_diff (mininterval (params tq))
    then
      (w, set_params
            (set_miniters (CInt.to_unsigned (CInt.to_size (count_diff * 2)))
               (params tq)) tq)
    else (w, tq)
  else (w, tq).

Definition tqdm_print_progress (w : world) (tq : tqdm_t) : world * tqdm_t :=
  if disable (params tq) || closed tq then (w, tq)
  else
    let '(current_time, w) := current_time_seconds w in
    let elapsed :=
      Double.sub (Double.sub current_time (start_time tq))
        (total_pause_time tq) in
    let rate :=
      if Double.ltb micro elapsed
      then Double.div (Double.of_Z (n tq)) elapsed
      else Double.zero in
    let '(cols, tq) :=
      if (ncols (params tq) <=? 0) || dynamic_ncols (params tq)
      then
        if Double.ltb (Double.sub current_time (last_terminal_check tq))
             (Double.of_Z 1)
        then (cached_terminal_width tq, tq)
        else
          let c := get_terminal_width w in
          (c, set_terminal_cache c current_time tq)
      else (ncols (params tq), tq) in
    let meter :=
      tqdm_format_meter (n tq) (total (params tq)) elapsed cols
        (desc (params tq)) (ascii (params tq)) (unit_ (params tq))
        (unit_scale (params tq)) rate (bar_format (params tq))
        (postfix (params tq)) (Double.to_int (unit_divisor (params tq)))
        (initial (params tq)) (colour (params tq)) in
    let w := fprintf (CR ++ meter) w in
    (w, set_last_print current_time (n tq) tq).

(** The throttle decision shared by [tqdm_next], [tqdm_update_n] and
    [tqdm_update_to]; [count_delta] is the count the count gate looks at. *)
Definition should_print_of (tq : tqdm_t) (current_time : double)
  (count_delta : Z) : bool :=
  let is_complete :=
    (total (params tq) >? 0) && (n tq >=? total (params tq)) in
  if is_complete
     || ((miniters (params tq) =? 0)
         || (count_delta >=? miniters (params tq)))
  then
    if is_complete
       || Double.leb (mininterval (params tq))
            (Double.sub current_time (last_print_time tq))
    then true
    else false
  else false.

Definition tqdm_update_n (w : world) (tq : tqdm_t) (by_n : Z)
  : world * tqdm_t :=
  if closed tq || disable (params tq) then (w, tq)
  else
    let tq := set_n (CInt.to_size (n tq + by_n)) tq in
    let '(w, tq) := tqdm_update_dynamic_miniters w tq in
    let '(current_time, w) := current_time_seconds w in
    let should_print :=
      should_print_of tq current_time
        (CInt.to_size (n tq - last_print_count tq)) in
    if should_print then tqdm_print_progress w tq else (w, tq).

Definition tqdm_update (w : world) (tq : tqdm_t) : world * tqdm_t :=
  tqdm_update_n w tq 1.

(** [delta] of [tqdm_update_to]. *)
Definition update_to_delta (to_n cur_n : Z) : Z :=
  if to_n >? cur_n then CInt.to_size (to_n - cur_n) else 0.

Definition tqdm_update_to (w : world) (tq : tqdm_t) (to_n : Z)
  : bool * world * tqdm_t :=
  if closed tq || disable (params tq) then (false, w, tq)
  else
    let delta := update_to_delta to_n (n tq) in
    let tq := set_n to_n tq in
    let '(w, tq) := tqdm_update_dynamic_miniters w tq in
    let '(current_time, w) := current_time_seconds w in
    let should_print := should_print_of tq current_time delta in
    let '(w, tq) :=
      if should_print then tqdm_print_progress w tq else (w, tq) in
    (should_print, w, tq).

Definition tqdm_clear (w : world) (tq : tqdm_t) : world :=
  if disable (params tq) then w else fprintf (CR ++ ESC ++ "[K") w.

Definition tqdm_close (w : world) (tq : tqdm_t) : world * tqdm_t :=
  if closed tq then (w, tq)
  else
    let '(w, tq) :=
      if leave (params tq) && negb (disable (params tq))
      then
        let '(w, tq) := tqdm_print_progress w tq in
        (fprintf LF w, tq)
      else if negb (leave (params tq)) then (tqdm_clear w tq, tq)
      else (w, tq) in
    (w, set_closed true tq).

Definition tqdm_refresh (w : world) (tq : tqdm_t) : world * tqdm_t :=
  if closed tq || disable (params tq) then (w, tq)
  else tqdm_print_progress w tq.

Definition tqdm_unpause (w : world) (tq : tqdm_t) : world * tqdm_t :=
  if negb (paused tq) then (w, tq)
  else
    let '(current_time, w) := current_time_seconds w in
    (w, set_pause false Double.zero
          (Double.add (total_pause_time tq)
             (Double.sub current_time (pause_start tq))) tq).

Definition tqdm_reset (w : world) (tq : tqdm_t) (new_total : Z)
  : world * tqdm_t :=
  let tq := set_counters (initial (params tq)) 0 tq in
  let '(now, w) := current_time_seconds w in
  let tq := set_timing now now (n tq) tq in
  let tq := set_pause false (pause_start tq) Double.zero tq in
  let tq :=
    if new_total >? 0 then set_params (set_total new_total (params tq)) tq
    else tq in
  let tq :=
    set_rate_history
      (repeat Double.zero (Z.to_nat (rate_history_size tq))) 0 tq in
  (w, tq).

Definition tqdm_set_description_str (w : world) (tq : tqdm_t)
  (new_desc : option string) (refresh : bool) : world * tqdm_t :=
  let tq := set_params (set_desc new_desc (params tq)) tq in
  if refresh then tqdm_print_progress w tq else (w, tq).


Definition tqdm_set_postfix_str (w : world) (tq : tqdm_t)
  (new_postfix : option string) (refresh : bool) : world * tqdm_t :=
  let tq := set_params (set_postfix new_postfix (params tq)) tq in
  if refresh then tqdm_refresh w tq else (w, tq).

(** ** The iterator protocol *)

Section Adapter.

(** The caller's adapter: the state behind [iterator_state] and the two
    functions the engine calls on it.  Either may change that state. *)
Variable S : Type.
Variable next_func : S -> Z * S.
Variable has_next_func : S -> bool * S.

Definition tqdm_has_next (it : S) (tq : tqdm_t) : bool * S :=
  if closed tq then (false, it)
  else if iterator_mode tq then has_next_func it
  else if negb (end_ tq =? 0) then (current tq <? end_ tq, it)
  else if total (params tq) >? 0 then (n tq <? total (params tq), it)
  else (true, it).

(** The result is the address handed out, 0 for [NULL]. *)
Definition tqdm_next (w : world) (it : S) (tq : tqdm_t)
  : Z * world * S * tqdm_t :=
  let '(more, it) := tqdm_has_next it tq in
  if negb more then (0, w, it, tq)
  else
    let '(result, it, tq) :=
      if iterator_mode tq
      then let '(r, it') := next_func it in (r, it', tq)
      else (current tq, it,
            set_current (CInt.to_size (current tq + element_size tq)) tq) in
    let tq :=
      set_counters (CInt.to_size (n tq + 1)) (CInt.to_size (count tq + 1))
        tq in
    let '(w, tq) := tqdm_update_dynamic_miniters w tq in
    let '(current_time, w) := current_time_seconds w in
    let should_print :=
      should_print_of tq current_time
        (CInt.to_size (n tq - last_print_count tq)) in
    let '(w, tq) :=
      if should_print && negb (disable (params tq))
      then tqdm_print_progress w tq
      else (w, tq) in
    (result, w, it, tq).

End Adapter.

Arguments tqdm_has_next {S} has_next_func it tq.
Arguments tqdm_next {S} next_func has_next_func w it tq.

(** ** Creation *)

(** The environment that [getenv] reads.  A flag variable holds its text;
    a numeric variable holds the number that [atof] or [atoi] reads from its
    text, as the field it is stored in holds it. *)
Record environment : Type := {
  TQDM_MININTERVAL : option double;
  TQDM_MINITERS : option Z;
  TQDM_ASCII : option string;
  TQDM_DISABLE : option string;
  TQDM_UNIT : option string;
  TQDM_UNIT_SCALE : option string;
  TQDM_DYNAMIC_NCOLS : option string;
  TQDM_SMOOTHING : option double;
  TQDM_NCOLS : option Z;
  TQDM_COLOUR : option string;
  TQDM_DELAY : option double
}.

Definition empty_environment : environment :=
  {| TQDM_MININTERVAL := None; TQDM_MINITERS := None; TQDM_ASCII := None;
     TQDM_DISABLE := None; TQDM_UNIT := None; TQDM_UNIT_SCALE := None;
     TQDM_DYNAMIC_NCOLS := None; TQDM_SMOOTHING := None; TQDM_NCOLS := None;
     TQDM_COLOUR := None; TQDM_DELAY := None |}.

Definition tolower (c : Ascii.ascii) : Ascii.ascii :=
  let k := nat_of_ascii c in
  if (65 <=? k)%nat && (k <=? 90)%nat then ascii_of_nat (k + 32) else c.

Fixpoint lower (s : string) : string :=
  match s with
  | EmptyString => EmptyString
  | String c rest => String (tolower c) (lower rest)
  end.

(** [strcasecmp (env_val, "true") == 0 || strcmp (env_val, "1") == 0]. *)
Definition env_flag (env_val : string) : bool :=
  String.eqb (lower env_val) "true" || String.eqb env_val "1".

Definition or_field {A : Type} (v : option A) (old : A) : A :=
  match v with
  | Some x => x
  | None => old
  end.

Definition tqdm_default_params : tqdm_params_t :=
  {| desc := None; total := 0; leave := true; ncols := -1;
     mininterval := float_0_1; miniters := 0; ascii := false;
     disable := false; unit_ := Some "it"; unit_scale := false;
     dynamic_ncols := false; smoothing := float_0_3; bar_format := None;
     initial := 0; position := -1; postfix := None;
     unit_divisor := float_1000; colour := None; delay := Double.zero |}.

Definition tqdm_load_env_vars (env : environment) (p : tqdm_params_t)
  : tqdm_params_t :=
  {| desc := desc p; total := total p; leave := leave p;
     ncols := or_field (TQDM_NCOLS env) (ncols p);
     mininterval := or_field (TQDM_MININTERVAL env) (mininterval p);
     miniters :=
       or_field (option_map CInt.to_unsigned (TQDM_MINITERS env))
         (miniters p);
     ascii := or_field (option_map env_flag (TQDM_ASCII env)) (ascii p);
     disable :=
       or_field (option_map env_flag (TQDM_DISABLE env)) (disable p);
     unit_ := match TQDM_UNIT env with
              | Some u => Some u
              | None => unit_ p
              end;
     unit_scale :=
       or_field (option_map env_flag (TQDM_UNIT_SCALE env)) (unit_scale p);
     dynamic_ncols :=
       or_field (option_map env_flag (TQDM_DYNAMIC_NCOLS env))
         (dynamic_ncols p);
     smoothing := or_field (TQDM_SMOOTHING env) (smoothing p);
     bar_format := bar_format p; initial := initial p;
     position := position p; postfix := postfix p;
     unit_divisor := unit_divisor p;
     colour := match TQDM_COLOUR env with
               | Some c => Some c
               | None => colour p
               end;
     delay := or_field (TQDM_DELAY env) (delay p) |}.

(** The three defaults that replace an invalid value. *)
Definition clamp_params (p : tqdm_params_t) : tqdm_params_t :=
  {| desc := desc p; total := total p; leave := leave p; ncols := ncols p;
     mininterval :=
       if Double.ltb (mininterval p) (Double.of_Z 0) then float_0_1
       else mininterval p;
     miniters := miniters p; ascii := ascii p; disable := disable p;
     unit_ := unit_ p; unit_scale := unit_scale p;
     dynamic_ncols := dynamic_ncols p;
     smoothing :=
       if Double.ltb (smoothing p) (Double.of_Z 0)
          || Double.ltb (Double.of_Z 1) (smoothing p)
       then float_0_3 else smoothing p;
     bar_format := bar_format p; initial := initial p;
     position := position p; postfix := postfix p;
     unit_divisor :=
       if Double.leb (unit_divisor p) (Double.of_Z 0) then float_1000
       else unit_divisor p;
     colour := colour p; delay := delay p |}.

(** [begin] and [end_ptr] are addresses, 0 for [NULL].  The sleep of the
    start-up delay only lets the clock run on; the clock of the [world] is
    any sequence of readings. *)
Definition tqdm_create_with_params (env : environment) (w : world)
  (begin end_ptr element_size : Z) (user_params : tqdm_params_t)
  : world * tqdm_t :=
  let p := clamp_params (tqdm_load_env_vars env user_params) in
  let p :=
    if (total p =? 0) && negb (begin =? 0) && negb (end_ptr =? 0)
       && (element_size >? 0)
    then set_total (CInt.to_size (end_ptr - begin) / element_size) p
    else p in
  let '(now, w) := current_time_seconds w in
  (w,
   {| current := begin; end_ := end_ptr; element_size := element_size;
      n := initial p; count := 0; params := p;
      start_time := now; last_print_time := now;
      last_print_count := initial p; closed := false; paused := false;
      pause_start := Double.zero; total_pause_time := Double.zero;
      rate_history := repeat Double.zero 10; rate_history_size := 10;
      rate_history_idx := 0; cached_rate := Double.zero;
      last_rate_calc_time := Double.zero; last_rate_calc_n := 0;
      cached_terminal_width := 80; last_terminal_check := Double.zero;
      display_buffer := ""; iterator_mode := false |}).

Definition tqdm_create (env : environment) (w : world)
  (begin end_ptr element_size : Z) : world * tqdm_t :=
  tqdm_create_with_params env w begin end_ptr element_size
    tqdm_default_params.

Definition tqdm_create_with_total (env : environment) (w : world)
  (begin new_total element_size : Z) : world * tqdm_t :=
  tqdm_create_with_params env w begin 0 element_size
    (set_total new_total tqdm_default_params).

(** ** Sequences of operations on one instance *)

Inductive operation : Type :=
| Advance (delta : Z)
| SetTo (value : Z)
| ResetTo (new_total : Z)
| Refresh
| Unpause
| Close
| Describe (text : option string) (refresh : bool)
| Annotate (text : option string) (refresh : bool).

Definition step (st : world * tqdm_t) (o : operation) : world * tqdm_t :=
  let '(w, tq) := st in
  match o with
  | Advance delta => tqdm_update_n w tq delta
  | SetTo value => let '(_, w', tq') := tqdm_update_to w tq value in (w', tq')
  | ResetTo new_total => tqdm_reset w tq new_total
  | Refresh => tqdm_refresh w tq
  | Unpause => tqdm_unpause w tq
  | Close => tqdm_close w tq
  | Describe text refresh => tqdm_set_description_str w tq text refresh
  | Annotate text refresh => tqdm_set_postfix_str w tq text refresh
  end.

Definition run (st : world * tqdm_t) (ops : list operation)
  : world * tqdm_t :=
  fold_left step ops st.

(** An operation that only moves the count by [advance] or [set-to]. *)
Definition is_count_update (o : operation) : bool :=
  match o with
  | Advance _ | SetTo _ => true
  | _ => false
  end.

(** An explicit reset with a positive argument. *)
Definition is_positive_reset (o : operation) : bool :=
  match o with
  | ResetTo new_total => new_total >? 0
  | _ => false
  end.

(** ** Destruction *)


(** ** The postfix dictionary *)

(** A [postfix_entry_t] list, first entry first; the empty list is the
    [NULL] that [postfix_create] returns. *)
Definition postfix_entry_t : Type := list (string * string).

Definition postfix_create : postfix_entry_t := [].

(** [head] is [None] when the caller passes no list variable. *)
Definition postfix_add (head : option postfix_entry_t)
  (key value : option string) : option postfix_entry_t :=
  match head, key, value with
  | Some entries, Some k, Some v => Some ((k, v) :: entries)
  | _, _, _ => head
  end.

Definition postfix_add_int (head : option postfix_entry_t)
  (key : option string) (value : Z) : option postfix_entry_t :=
  postfix_add head key (Some (dec value)).

Definition postfix_add_float (head : option postfix_entry_t)
  (key : option string) (value : double) : option postfix_entry_t :=
  postfix_add head key (Some (general3 value)).

(** The loop of [postfix_format]: [result] is the text built so far,
    [first] tells that no entry has been written yet.  The buffer of 512
    bytes is taken as long enough. *)
Fixpoint postfix_format_loop (curr : postfix_entry_t) (first : bool)
  (result : string) : string :=
  match curr with
  | [] => result
  | (key, value) :: next =>
      let result := if first then result else result ++ ", " in
      postfix_format_loop next false (result ++ key ++ "=" ++ value)
  end.

Definition postfix_format (head : postfix_entry_t) : string :=
  match head with
  | [] => ""
  | _ => postfix_format_loop head true ""
  end.

(** [tqdm_set_postfix]: the formatted dictionary, or no postfix for the
    empty ([NULL]) dictionary. *)
Definition tqdm_set_postfix (tq : tqdm_t) (entries : postfix_entry_t)
  : tqdm_t :=
  match entries with
  | [] => set_params (set_postfix None (params tq)) tq
  | _ => set_params (set_postfix (Some (postfix_format entries)) (params tq))
           tq
  end.

(** ** Ranges *)

Module Range.

Record range_iterator_t : Type := {
  current : Z;
  total : Z;
  step : Z
}.

Definition range_create_with_step (start end_value step_value : Z)
  : range_iterator_t :=
  {| current := start; total := end_value; step := step_value |}.

Definition range_create_with_bounds (start end_value : Z)
  : range_iterator_t :=
  range_create_with_step start end_value 1.

Definition range_create (count : Z) : range_iterator_t :=
  range_create_with_bounds 0 count.

Definition range_has_next (range : range_iterator_t) : bool :=
  if step range >? 0 then current range <? total range
  else current range >? total range.

(** The value handed out and the range after the call.  The sum is an
    [int]; it is reduced to the range of [int]. *)
Definition range_next (range : range_iterator_t) : Z * range_iterator_t :=
  if negb (range_has_next range) then (current range, range)
  else
    (current range,
     {| current := CInt.to_int (current range + step range);
        total := total range; step := step range |}).

Definition trange (count : Z) : range_iterator_t := range_create count.

Definition trange_with_bounds (start end_value : Z) : range_iterator_t :=
  range_create_with_bounds start end_value.

Definition trange_with_step (start end_value step_value : Z)
  : range_iterator_t :=
  range_create_with_step start end_value step_value.

(** The loop of [TQDM_FOR] and [TQDM_FOR_STEP],
    [while (range_has_next (r)) { v = range_next (r); ... }]: the values
    handed to the body in at most [fuel] rounds, and the range left. *)
Fixpoint for_each (fuel : nat) (range : range_iterator_t)
  : list Z * range_iterator_t :=
  match fuel with
  | O => ([], range)
  | S fuel' =>
      if range_has_next range then
        let '(v, range') := range_next range in
        let '(vs, last) := for_each fuel' range' in
        (v :: vs, last)
      else ([], range)
  end.

End Range.

(** ** The pipe filter ([main.c]) *)

(** The number of bytes of [buf] equal to [delim], and the bar after one
    [tqdm_update] for each of them, as the inner loop of [process_stream]
    makes them. *)
Fixpoint count_delimiters (w : world) (tq : tqdm_t) (buf : string)
  (delim : Ascii.ascii) (processed : Z) : Z * world * tqdm_t :=
  match buf with
  | EmptyString => (processed, w, tq)
  | String c rest =>
      if Ascii.eqb c delim then
        let '(w, tq) := tqdm_update w tq in
        count_delimiters w tq rest delim (CInt.to_size (processed + 1))
      else count_delimiters w tq rest delim processed
  end.

(** [process_stream]: [reads] lists what the successive calls of [fread]
    put into the buffer; the loop ends at the first empty read.  The
    result is the count, the bytes copied to the standard output, the world
    and the bar. *)
Fixpoint process_stream_loop (w : world) (tq : tqdm_t)
  (reads : list string) (delim : Ascii.ascii) (tee : bool)
  (processed : Z) (copied : string) : Z * string * world * tqdm_t :=
  match reads with
  | [] => (processed, copied, w, tq)
  | buf :: next_reads =>
      let read := Z.of_nat (String.length buf) in
      if read >? 0 then
        let copied := if tee then copied ++ buf else copied in
        if Ascii.eqb delim Ascii.zero then
          let '(w, tq) := tqdm_update_n w tq read in
          process_stream_loop w tq next_reads delim tee
            (CInt.to_size (processed + read)) copied
        else
          let '(processed, w, tq) :=
            count_delimiters w tq buf delim processed in
          process_stream_loop w tq next_reads delim tee processed copied
      else (processed, copied, w, tq)
  end.

Definition process_stream (w : world) (tq : tqdm_t) (reads : list string)
  (delim : Ascii.ascii) (tee : bool) : Z * string * world * tqdm_t :=
  process_stream_loop w tq reads delim tee 0 "".

(** ** Creation over an adapter *)

(** [tqdm_create_iterator]: an instance created over no array, switched to
    the adapter; the adapter's state and functions stay with the caller
    (see [tqdm_next]). *)
Definition tqdm_create_iterator (env : environment) (w : world)
  : world * tqdm_t :=
  let '(w, t) := tqdm_create env w 0 0 0 in
  (w,
   {| current := current t; end_ := end_ t; element_size := element_size t;
      n := n t; count := count t; params := params t;
      start_time := start_time t; last_print_time := last_print_time t;
      last_print_count := last_print_count t; closed := closed t;
      paused := paused t; pause_start := pause_start t;
      total_pause_time := total_pause_time t;
      rate_history := rate_history t;
      rate_history_size := rate_history_size t;
      rate_history_idx := rate_history_idx t;
      cached_rate := cached_rate t;
      last_rate_calc_time := last_rate_calc_time t;
      last_rate_calc_n := last_rate_calc_n t;
      cached_terminal_width := cached_terminal_width t;
      last_terminal_check := last_terminal_check t;
      display_buffer := display_buffer t; iterator_mode := true |}).

(** ** The write helper ([utils.c]) *)

(** What one call of [write (fd, buf, len)] does: it accepts [k] bytes, it
    fails with [EAGAIN] or [EINTR], or it fails with another error.  The
    system accepts at most [len] bytes: [Accepted k] stands for a call that
    returns the smaller of [k] and [len]. *)
Inductive write_outcome : Type :=
| Accepted (k : nat)
| TryAgain
| WriteFailed.

(** How [write_harder] ends: it returns, its assertion [res > 0] fails, or
    it is still in its loop when the listed outcomes are used up. *)
Inductive write_status : Type :=
| Returned (ok : bool)
| AssertionFailed
| Waiting.

(** The loop of [write_harder]: [buf] holds the [len] bytes still to be
    written and [sent] the bytes that the descriptor has accepted.  The
    wait for the descriptor only blocks. *)
Fixpoint write_harder_loop (outcomes : list write_outcome) (buf : string)
  (did_anything : bool) (sent : string) : write_status * string :=
  if (String.length buf =? 0)%nat then (Returned true, sent)
  else
    match outcomes with
    | [] => (Waiting, sent)
    | TryAgain :: rest =>
        if negb did_anything then (Returned false, sent)
        else write_harder_loop rest buf did_anything sent
    | WriteFailed :: _ => (Returned false, sent)
    | Accepted k :: rest =>
        let res := Nat.min k (String.length buf) in
        if (res =? 0)%nat then (AssertionFailed, sent)
        else
          write_harder_loop rest
            (substring res (String.length buf - res) buf) true
            (sent ++ substring 0 res buf)
    end.

Definition write_harder (outcomes : list write_outcome) (buf : string)
  : write_status * string :=
  write_harder_loop outcomes buf false "".

(** * The vocabulary of the properties and sample instances *)

(** A clock that advances by half a second at every reading, a terminal of
    80 columns, nothing written yet. *)
Definition half_second_world : world :=
  {| clock := fun k => Double.make (Z.of_nat k) (-1); ticks := 0;
     ws_col := Some 80; written := [] |}.

(** The default parameters with a minimum interval of one second. *)
Definition one_second_params : tqdm_params_t :=
  clamp_params
    {| desc := None; total := 0; leave := true; ncols := -1;
       mininterval := Double.of_Z 1; miniters := 0; ascii := false;
       disable := false; unit_ := Some "it"; unit_scale := false;
       dynamic_ncols := false; smoothing := float_0_3; bar_format := None;
       initial := 0; position := -1; postfix := None;
       unit_divisor := float_1000; colour := None; delay := Double.zero |}.

Definition fresh (p : tqdm_params_t) : world * tqdm_t :=
  tqdm_create_with_params empty_environment half_second_world 0 0 1 p.

(** The gates, in the words of the specification; [tq] is the instance at
    the moment the gates are evaluated and [t] the time read for them. *)
Definition is_complete (tq : tqdm_t) : bool :=
  (total (params tq) >? 0) && (n tq >=? total (params tq)).

Definition count_gate (tq : tqdm_t) : bool :=
  is_complete tq
  || (miniters (params tq) =? 0)
  || (CInt.to_size (n tq - last_print_count tq) >=? miniters (params tq)).

Definition time_gate (t : double) (tq : tqdm_t) : bool :=
  is_complete tq
  || Double.leb (mininterval (params tq))
       (Double.sub t (last_print_time tq)).

(** The pause bookkeeping of an instance that is not paused. *)
Definition never_paused (tq : tqdm_t) : Prop :=
  paused tq = false /\ pause_start tq = Double.zero.

(** One more line reached the output sink. *)
Definition rendered (w w' : world) : Prop :=
  exists line, written w' = (written w ++ [line])%list.

(** The instance on which [tqdm_update_n] evaluates the gates: the count
    is advanced and the threshold adapted; the last-render time and count
    are still those of the previous render. *)
Definition advanced (w : world) (tq : tqdm_t) (delta : Z) : tqdm_t :=
  snd (tqdm_update_dynamic_miniters w
         (set_n (CInt.to_size (n tq + delta)) tq)).

(** The count gate as the specification words it, with the difference of
    the counts on unbounded integers, and the decision rule it gives for an
    advance by [delta]. *)
Definition count_gate_as_specified (tq : tqdm_t) : bool :=
  is_complete tq
  || (miniters (params tq) =? 0)
  || (n tq - last_print_count tq >=? miniters (params tq)).

Definition renders_as_specified (w : world) (tq : tqdm_t) (delta : Z)
  : Prop :=
  rendered w (fst (tqdm_update_n w tq delta)) <->
  count_gate_as_specified (advanced w tq delta)
  && time_gate (clock w (Datatypes.S (ticks w))) (advanced w tq delta)
  = true.

(** An instance with a threshold of 5, created at the initial value 100
    and set back to 10: the set-to moves the count by nothing, so it does
    not render and the last-render count stays 100. *)
Definition set_back_gated : world * tqdm_t :=
  run (tqdm_create_with_params empty_environment half_second_world 0 0 1
         {| desc := None; total := 0; leave := true; ncols := -1;
            mininterval := Double.of_Z 1; miniters := 5; ascii := false;
            disable := false; unit_ := Some "it"; unit_scale := false;
            dynamic_ncols := false; smoothing := float_0_3;
            bar_format := None; initial := 100; position := -1;
            postfix := None; unit_divisor := float_1000; colour := None;
            delay := Double.zero |})
    [SetTo 10].

(** The time since the last render, as [tqdm_update_dynamic_miniters]
    reads it at the start of an advance. *)
Definition since_last_print (w : world) (tq : tqdm_t) : double :=
  Double.sub (clock w (ticks w)) (last_print_time tq).

(** The claim as the specification words it, on unbounded integers: in
    auto mode, with a positive time since the last render below the
    minimum interval and a count that has grown since the last render, an
    advance by [delta] sets the threshold to twice the growth, and
    otherwise leaves it. *)
Definition threshold_as_specified (w : world) (tq : tqdm_t) (delta : Z)
  : Prop :=
  let tq' := snd (tqdm_update_n w tq delta) in
  miniters (params tq') =
    if (miniters (params tq) =? 0)
       && Double.ltb (Double.of_Z 0) (since_last_print w tq)
       && Double.ltb (since_last_print w tq) (mininterval (params tq))
       && (n tq' >? last_print_count tq)
    then 2 * (n tq' - last_print_count tq)
    else miniters (params tq).

(** A clock whose first three readings are equal (the creation and the
    set-to below fall within one microsecond) and which then advances by
    half a second at every reading. *)
Definition stalled_world : world :=
  {| clock := fun k => Double.make (Z.of_nat (k - 2)) (-1); ticks := 0;
     ws_col := Some 80; written := [] |}.

(** An instance created at the initial value 100 and set back to 10 at
    once: no render, so the last-render count stays 100. *)
Definition set_back : world * tqdm_t :=
  run (tqdm_create_with_params empty_environment stalled_world 0 0 1
         {| desc := None; total := 0; leave := true; ncols := -1;
            mininterval := Double.of_Z 1; miniters := 0; ascii := false;
            disable := false; unit_ := Some "it"; unit_scale := false;
            dynamic_ncols := false; smoothing := float_0_3;
            bar_format := None; initial := 100; position := -1;
            postfix := None; unit_divisor := float_1000; colour := None;
            delay := Double.zero |})
    [SetTo 10].

(** An instance with a total of 10, advanced by 5 and closed. *)
Definition closed_at_five : world * tqdm_t :=
  run (fresh (set_total 10 one_second_params)) [Advance 5; Close].

(** Parameters with the disabled flag set. *)
Definition disabled_params : tqdm_params_t :=
  {| desc := Some "Disabled"; total := 0; leave := true; ncols := -1;
     mininterval := float_0_1; miniters := 0; ascii := false;
     disable := true; unit_ := Some "it"; unit_scale := false;
     dynamic_ncols := false; smoothing := float_0_3; bar_format := None;
     initial := 0; position := -1; postfix := None;
     unit_divisor := float_1000; colour := None; delay := Double.zero |}.

(** Parameters for a terminal of 53 columns, which leaves a bar of three
    cells, in ASCII mode or glyph mode, with the given total. *)
Definition bar_params (ascii_mode : bool) (new_total : Z) : tqdm_params_t :=
  {| desc := None; total := new_total; leave := true; ncols := 53;
     mininterval := float_0_1; miniters := 0; ascii := ascii_mode;
     disable := false; unit_ := Some "it"; unit_scale := false;
     dynamic_ncols := false; smoothing := float_0_3; bar_format := None;
     initial := 0; position := -1; postfix := None;
     unit_divisor := float_1000; colour := None; delay := Double.zero |}.

(** An adapter that is never asked: the instances below wrap arrays. *)
Definition no_adapter_next (s : unit) : Z * unit := (0, s).
Definition no_adapter_has_next (s : unit) : bool * unit := (false, s).

(** An array of three 4-byte elements at address 1000, walked to its
    end. *)
Definition array_walked : world * tqdm_t :=
  let '(w, tq) :=
    tqdm_create_with_params empty_environment half_second_world
      1000 1012 4 one_second_params in
  let '(_, w, _, tq) :=
    tqdm_next no_adapter_next no_adapter_has_next w tt tq in
  let '(_, w, _, tq) :=
    tqdm_next no_adapter_next no_adapter_has_next w tt tq in
  let '(_, w, _, tq) :=
    tqdm_next no_adapter_next no_adapter_has_next w tt tq in
  (w, tq).




(** An instance with a total of 3 and a threshold of 1000 after two
    advances by 1: nothing has been written. *)
Definition nearly_complete : world * tqdm_t :=
  run (fresh (set_miniters 1000 (set_total 3 one_second_params)))
    [Advance 1; Advance 1].

(** The loop of [TQDM_FOR_ARRAY],
    [while (tqdm_has_next (t)) { p = tqdm_next (t); ... }], on an instance
    without adapter: the addresses handed to the body in at most [fuel]
    rounds, the world and the instance left. *)
Fixpoint pull_each (fuel : nat) (w : world) (tq : tqdm_t)
  : list Z * world * tqdm_t :=
  match fuel with
  | O => ([], w, tq)
  | Datatypes.S fuel' =>
      if fst (tqdm_has_next no_adapter_has_next tt tq) then
        let '(r, w1, _, tq1) :=
          tqdm_next no_adapter_next no_adapter_has_next w tt tq in
        let '(rs, w2, tq2) := pull_each fuel' w1 tq1 in
        (r :: rs, w2, tq2)
      else ([], w, tq)
  end.

(** The configuration fields that no operation is meant to touch: the
    parameters with the description, the total, the threshold and the
    postfix blanked. *)
Definition fixed_part (p : tqdm_params_t) : tqdm_params_t :=
  set_desc None (set_total 0 (set_miniters 0 (set_postfix None p))).

(** What the three checks of [tqdm_create_with_params] leave: each of
    the three values is in its range (the interval not negative, the
    factor within 0 .. 1, the divisor positive) or is a NaN, which every
    comparison of the checks lets through. *)
Definition valid_config (p : tqdm_params_t) : Prop :=
  (mininterval p = S754_nan
   \/ Double.leb (Double.of_Z 0) (mininterval p) = true)
  /\ (smoothing p = S754_nan
      \/ (Double.leb (Double.of_Z 0) (smoothing p) = true
          /\ Double.leb (smoothing p) (Double.of_Z 1) = true))
  /\ (unit_divisor p = S754_nan
      \/ Double.ltb (Double.of_Z 0) (unit_divisor p) = true).

(** The bar stays within defined behaviour at every width that
    [meter_bar_width] can give (1 .. 100). *)
Definition bar_defined (ascii : bool) (n total : Z) : bool :=
  forallb (fun k => meter_bar_defined ascii (Z.of_nat k) n total)
    (seq 1 100).

(** The number of decimals that [tqdm_format_num] prints of a scaled
    number: none from 100 on, one from 10 on, else two. *)
Definition scaled_places (scaled : double) : nat :=
  if Double.leb (Double.of_Z 100) (Double.fabs scaled) then 0%nat
  else if Double.leb (Double.of_Z 10) (Double.fabs scaled) then 1%nat
  else 2%nat.

(** The sum of a list of deltas. *)
Definition sum_of (deltas : list Z) : Z := fold_right Z.add 0 deltas.

(** The text of one dictionary entry. *)
Definition entry_text (e : string * string) : string :=
  fst e ++ "=" ++ snd e.

(** The number of bytes of [buf] equal to [delim]. *)
Fixpoint occurrences (delim : Ascii.ascii) (buf : string) : Z :=
  match buf with
  | EmptyString => 0
  | String c rest =>
      (if Ascii.eqb c delim then 1 else 0) + occurrences delim rest
  end.

(** All the bytes read, in order. *)
Definition all_bytes (reads : list string) : string :=
  fold_right String.append "" reads.

(** The description and the postfix that a sequence of operations leaves:
    those of the last describe and of the last annotate call. *)
Definition last_described (ops : list operation) (d : option string)
  : option string :=
  fold_left (fun acc o => match o with
                          | Describe text _ => text
                          | _ => acc
                          end) ops d.

Definition last_annotated (ops : list operation) (d : option string)
  : option string :=
  fold_left (fun acc o => match o with
                          | Annotate text _ => text
                          | _ => acc
                          end) ops d.

(** The output of [w'] is the output of [w] followed by at most [k] more
    texts, each of at most 1024 bytes. *)
Definition wrote (w w' : world) (k : nat) : Prop :=
  exists new : list string,
    written w' = (written w ++ new)%list
    /\ Forall (fun s => (String.length s <= 1024)%nat) new
    /\ (List.length new <= k)%nat.

(** [s] seconds as a clock reading: [MM:SS] below one hour, else
    [HH:MM:SS] with as many hour digits as needed. *)
Definition clock_text (s : Z) : string :=
  let hours := s / 3600 in
  let minutes := s mod 3600 / 60 in
  let seconds := s mod 60 in
  if 0 <? hours
  then dec02 hours ++ ":" ++ dec02 minutes ++ ":" ++ dec02 seconds
  else dec02 minutes ++ ":" ++ dec02 seconds.

(** The double is a number of the binary64 format and not a NaN. *)
Definition is_number (x : double) : Prop :=
  valid_binary Double.prec Double.emax x = true /\ x <> S754_nan.

(** The dictionary built from the empty one by adding the pairs of [kvs]
    in order. *)
Definition add_all (kvs : list (string * string)) : option postfix_entry_t :=
  fold_left (fun head kv => postfix_add head (Some (fst kv)) (Some (snd kv)))
    kvs (Some postfix_create).

(** The number of values an ascending or a descending range hands out:
    the distance divided by the step, rounded up. *)
Definition range_length (start stop stride : Z) : nat :=
  if 0 <? stride then Z.to_nat ((stop - start + stride - 1) / stride)
  else Z.to_nat ((start - stop - stride - 1) / - stride).

(** What [process_stream] counts in the bytes [data]: the bytes when the
    delimiter is the zero byte, else the delimiters. *)
Definition stream_count (delim : Ascii.ascii) (data : string) : Z :=
  if Ascii.eqb delim Ascii.zero then Z.of_nat (String.length data)
  else occurrences delim data.

(** The cases of [tqdm_print_progress]: the guard, then the source of the
    column count. *)
Ltac render_cases :=
  unfold tqdm_print_progress;
  destruct (disable _ || closed _); [auto|];
  cbn;
  destruct (_ || _); [destruct (Double.ltb _ _)|]; cbn; auto.

(** The cases of [tqdm_update_dynamic_miniters]. *)
Ltac adapt_cases :=
  unfold tqdm_update_dynamic_miniters; cbn;
  destruct (_ && _); [destruct (_ && _)|]; cbn.

(** * Properties *)

(** ** The renderer's frame *)

Lemma print_progress_params (w : world) (tq : tqdm_t) :
  params (snd (tqdm_print_progress w tq)) = params tq.
Proof. render_cases. Qed.

Lemma print_progress_counters (w : world) (tq : tqdm_t) :
  n (snd (tqdm_print_progress w tq)) = n tq
  /\ count (snd (tqdm_print_progress w tq)) = count tq
  /\ closed (snd (tqdm_print_progress w tq)) = closed tq.
Proof. render_cases. Qed.

Lemma print_progress_pause (w : world) (tq : tqdm_t) :
  paused (snd (tqdm_print_progress w tq)) = paused tq
  /\ pause_start (snd (tqdm_print_progress w tq)) = pause_start tq.
Proof. render_cases. Qed.

(** On an open, enabled instance the renderer writes one line and records
    the time it read and the count it showed. *)
Lemma print_progress_renders (w : world) (tq : tqdm_t) :
  closed tq = false -> disable (params tq) = false ->
  (exists line,
      written (fst (tqdm_print_progress w tq)) = (written w ++ [line])%list)
  /\ last_print_time (snd (tqdm_print_progress w tq)) = clock w (ticks w)
  /\ last_print_count (snd (tqdm_print_progress w tq)) = n tq.
Proof.
  intros Hc Hd. unfold tqdm_print_progress. rewrite Hc, Hd. cbn.
  destruct (_ || _); [destruct (Double.ltb _ _)|]; cbn;
    (split; [eexists; reflexivity | split; reflexivity]).
Qed.

Lemma dynamic_miniters_frame (w : world) (tq : tqdm_t) :
  let r := tqdm_update_dynamic_miniters w tq in
  written (fst r) = written w /\ clock (fst r) = clock w
  /\ ticks (fst r) = Datatypes.S (ticks w) /\ ws_col (fst r) = ws_col w
  /\ n (snd r) = n tq /\ count (snd r) = count tq
  /\ closed (snd r) = closed tq
  /\ last_print_time (snd r) = last_print_time tq
  /\ last_print_count (snd r) = last_print_count tq
  /\ total (params (snd r)) = total (params tq)
  /\ disable (params (snd r)) = disable (params tq)
  /\ mininterval (params (snd r)) = mininterval (params tq).
Proof. adapt_cases; repeat split; reflexivity. Qed.

Lemma dynamic_miniters_pause (w : world) (tq : tqdm_t) :
  paused (snd (tqdm_update_dynamic_miniters w tq)) = paused tq
  /\ pause_start (snd (tqdm_update_dynamic_miniters w tq)) = pause_start tq.
Proof. adapt_cases; split; reflexivity. Qed.

(** ** Comparison of doubles *)

Lemma SFcompare_swap (x y : double) :
  SFcompare y x = option_map CompOpp (SFcompare x y).
Proof.
  destruct x as [sx|sx| |sx mx ex], y as [sy|sy| |sy my ey]; cbn;
    try reflexivity;
    try (destruct sx; reflexivity); try (destruct sy; reflexivity);
    try (destruct sx, sy; reflexivity).
  destruct sx, sy; cbn; try reflexivity;
    rewrite (Z.compare_antisym ex ey);
    destruct (ex ?= ey); cbn; try reflexivity;
    rewrite (Pos.compare_cont_antisym mx my Eq); cbn;
    destruct (Pos.compare_cont Eq mx my); reflexivity.
Qed.

Lemma ltb_not_leb (x y : double) :
  Double.ltb x y = true -> Double.leb y x = false.
Proof.
  unfold Double.ltb, Double.leb, SFltb, SFleb.
  rewrite (SFcompare_swap x y).
  destruct (SFcompare x y) as [[ | | ]|]; cbn; congruence.
Qed.

(** ** The throttle decision *)

Lemma should_print_gates (tq : tqdm_t) (t : double) :
  should_print_of tq t (CInt.to_size (n tq - last_print_count tq))
  = count_gate tq && time_gate t tq.
Proof.
  unfold should_print_of, count_gate, time_gate, is_complete.
  destruct ((total (params tq) >? 0) && (n tq >=? total (params tq)));
    destruct (miniters (params tq) =? 0);
    destruct (_ >=? miniters (params tq));
    destruct (Double.leb _ _); reflexivity.
Qed.

Lemma not_rendered_same (w w' : world) :
  written w' = written w -> ~ rendered w w'.
Proof.
  intros E [line H]. rewrite E in H.
  apply (f_equal (@List.length string)) in H.
  rewrite List.length_app in H. cbn in H. lia.
Qed.

Lemma update_n_unfold (w : world) (tq : tqdm_t) (delta : Z) :
  closed tq = false -> disable (params tq) = false ->
  let w1 := fst (tqdm_update_dynamic_miniters w
                   (set_n (CInt.to_size (n tq + delta)) tq)) in
  let tq1 := advanced w tq delta in
  let t := clock w (Datatypes.S (ticks w)) in
  let w2 := snd (current_time_seconds w1) in
  tqdm_update_n w tq delta =
    if count_gate tq1 && time_gate t tq1
    then tqdm_print_progress w2 tq1 else (w2, tq1).
Proof.
  intros Hc Hd. unfold tqdm_update_n, advanced. rewrite Hc, Hd.
  cbn [orb]. cbv zeta.
  pose proof (dynamic_miniters_frame w
                (set_n (CInt.to_size (n tq + delta)) tq)) as F.
  cbv zeta in F.
  destruct (tqdm_update_dynamic_miniters w
              (set_n (CInt.to_size (n tq + delta)) tq)) as [w1 tq1].
  cbn [fst snd] in *.
  destruct F as (_ & Fc & Ft & _).
  unfold current_time_seconds. cbn [fst snd].
  rewrite should_print_gates, Fc, Ft. reflexivity.
Qed.

(** When the adaptation and the gates see the same time, the decision is
    the same whether the count gate reads the threshold before or after
    the adaptation: an adaptation happens only where the time gate fails. *)
Lemma adapted_gates_same_time (w : world) (tq : tqdm_t) :
  let t := clock w (ticks w) in
  let tq1 := snd (tqdm_update_dynamic_miniters w tq) in
  count_gate tq1 && time_gate t tq1 = count_gate tq && time_gate t tq.
Proof.
  cbv zeta. unfold tqdm_update_dynamic_miniters. cbn [current_time_seconds].
  destruct (Double.ltb (Double.of_Z 0) _ && (miniters (params tq) =? 0))
    eqn:E1; [|reflexivity].
  destruct ((_ >? 0) && Double.ltb _ (mininterval (params tq))) eqn:E2;
    [|reflexivity].
  apply andb_prop in E1 as [_ Em]. apply andb_prop in E2 as [_ Et].
  apply ltb_not_leb in Et.
  unfold count_gate, time_gate, is_complete. cbn.
  rewrite Et, Em.
  destruct ((total (params tq) >? 0) && (n tq >=? total (params tq)));
    cbn; [reflexivity|].
  apply andb_false_r.
Qed.

(** The decision of [tqdm_update_n], as the code takes it.  In the
    embedding, an open, enabled instance is rendered by [tqdm_update_n]
    exactly when the count gate and the time gate both pass.  The gates
    are read on the instance with the count advanced
    and the threshold adapted ([advanced]) and at the time [t] that
    [tqdm_update_n] reads for them: the count gate passes when the
    instance is complete, the threshold is 0 or the count has moved by the
    threshold since the last render, the move being the [size_t]
    difference of the counts (modulo 2^64); the time gate passes when the
    instance is complete or the minimum interval has passed since the last
    render.  A render stores the time the renderer reads and the count it
    shows as the last-render time and count; without a render both stay.
    The count is advanced either way.  When the adaptation read the same
    time [t], the threshold configured before the adaptation gives the
    same decision.  The difference of the counts is the plain one unless
    the count was set back below the count of the last render.  (What is
    written is the program's where the bar stays within its buffer.) *)
Lemma update_n_renders_iff_gates (w : world) (tq : tqdm_t) (delta : Z) :
  closed tq = false -> disable (params tq) = false ->
  let tq1 := advanced w tq delta in
  let t := clock w (Datatypes.S (ticks w)) in
  let w' := fst (tqdm_update_n w tq delta) in
  let tq' := snd (tqdm_update_n w tq delta) in
  (rendered w w' <-> count_gate tq1 && time_gate t tq1 = true)
  /\ (rendered w w' ->
      last_print_time tq' = clock w (Datatypes.S (Datatypes.S (ticks w)))
      /\ last_print_count tq' = n tq')
  /\ (~ rendered w w' ->
      written w' = written w
      /\ last_print_time tq' = last_print_time tq
      /\ last_print_count tq' = last_print_count tq)
  /\ n tq' = CInt.to_size (n tq + delta)
  /\ (clock w (ticks w) = t ->
      let tq0 := set_n (CInt.to_size (n tq + delta)) tq in
      count_gate tq1 && time_gate t tq1 = count_gate tq0 && time_gate t tq0)
  /\ (0 <= last_print_count tq <= n tq1 ->
      count_gate tq1
      = is_complete tq1
        || (miniters (params tq1) =? 0)
        || (n tq1 - last_print_count tq >=? miniters (params tq1))).
Proof.
  intros Hc Hd. cbv zeta.
  assert (Plain : 0 <= last_print_count tq <= n (advanced w tq delta) ->
                  count_gate (advanced w tq delta)
                  = is_complete (advanced w tq delta)
                    || (miniters (params (advanced w tq delta)) =? 0)
                    || (n (advanced w tq delta) - last_print_count tq
                        >=? miniters (params (advanced w tq delta)))).
  { pose proof (dynamic_miniters_frame w
                  (set_n (CInt.to_size (n tq + delta)) tq)) as F.
    cbv zeta in F. fold (advanced w tq delta) in F.
    destruct F as (_ & _ & _ & _ & Fn & _ & _ & _ & Flc & _).
    cbn [set_n set_counters n last_print_count] in Fn, Flc.
    intros Hr. unfold count_gate. rewrite Flc.
    assert (Hb : 0 <= n (advanced w tq delta) < 2 ^ 64)
      by (rewrite Fn; apply Z.mod_pos_bound; lia).
    unfold CInt.to_size at 1. rewrite Z.mod_small by lia. reflexivity. }
  rewrite (update_n_unfold w tq delta Hc Hd). cbv zeta.
  pose proof (dynamic_miniters_frame w
                (set_n (CInt.to_size (n tq + delta)) tq)) as F.
  cbv zeta in F. fold (advanced w tq delta) in F.
  destruct F as (Fw & Fc & Ft & _ & Fn & _ & Fcl & Flt & Flc & _ & Fd & _).
  cbn [set_n set_counters n closed last_print_time last_print_count params]
    in Fn, Fcl, Flt, Flc, Fd.
  set (w1 := fst (tqdm_update_dynamic_miniters w
                    (set_n (CInt.to_size (n tq + delta)) tq))) in *.
  set (tq1 := advanced w tq delta) in *.
  assert (Last : clock w (ticks w) = clock w (Datatypes.S (ticks w)) ->
                 let tq0 := set_n (CInt.to_size (n tq + delta)) tq in
                 count_gate tq1 && time_gate (clock w (Datatypes.S (ticks w))) tq1
                 = count_gate tq0
                   && time_gate (clock w (Datatypes.S (ticks w))) tq0).
  { intros Ht. cbv zeta. rewrite <- Ht. unfold tq1, advanced.
    apply (adapted_gates_same_time w
             (set_n (CInt.to_size (n tq + delta)) tq)). }
  destruct (count_gate tq1
            && time_gate (clock w (Datatypes.S (ticks w))) tq1) eqn:G.
  - destruct (print_progress_renders (snd (current_time_seconds w1)) tq1)
      as ((line & Hl) & Ht & Hn).
    { congruence. } { congruence. }
    destruct (print_progress_counters (snd (current_time_seconds w1)) tq1)
      as (Pn & _).
    cbn [current_time_seconds snd written clock ticks] in Hl, Ht.
    assert (R : rendered w
                  (fst (tqdm_print_progress (snd (current_time_seconds w1))
                          tq1))).
    { exists line. cbn [current_time_seconds snd]. rewrite Hl, Fw.
      reflexivity. }
    split; [|split; [|split; [|split; [|split]]]].
    + split; [reflexivity | intros _; exact R].
    + intros _. split.
      * cbn [current_time_seconds snd]. rewrite Ht, Fc, Ft. reflexivity.
      * rewrite Hn, Pn. reflexivity.
    + intros NR. contradiction.
    + rewrite Pn. exact Fn.
    + exact Last.
    + exact Plain.
  - cbn [fst snd current_time_seconds].
    assert (NR : ~ rendered w
                   {| clock := clock w1; ticks := Datatypes.S (ticks w1);
                      ws_col := ws_col w1; written := written w1 |}).
    { apply not_rendered_same. exact Fw. }
    split; [|split; [|split; [|split; [|split]]]].
    + split; [intros R; contradiction | discriminate].
    + intros R. contradiction.
    + intros _. repeat split; assumption.
    + exact Fn.
    + exact Last.
    + exact Plain.
Qed.

(** After the set-to below the last-render count, an advance by 1 brings
    the count to 11: the count has moved by -89 since the last render, the
    threshold is 5, the instance is not complete, and the line is written
    all the same: the [size_t] difference is 2^64 - 89. *)
Lemma renders_as_specified_fails :
  ~ renders_as_specified (fst set_back_gated) (snd set_back_gated) 1.
Proof.
  unfold renders_as_specified. intros [H _].
  assert (R : rendered (fst set_back_gated)
                (fst (tqdm_update_n (fst set_back_gated)
                        (snd set_back_gated) 1))).
  { exists (hd "" (written (fst (tqdm_update_n (fst set_back_gated)
                                  (snd set_back_gated) 1)))).
    vm_compute. reflexivity. }
  apply H in R. vm_compute in R. discriminate R.
Qed.

Example set_back_gated_state :
  let w := fst set_back_gated in
  let tq := snd set_back_gated in
  closed tq = false /\ disable (params tq) = false
  /\ n tq = 10 /\ last_print_count tq = 100 /\ miniters (params tq) = 5
  /\ total (params tq) = 0 /\ written w = []
  /\ n (snd (tqdm_update_n w tq 1)) = 11
  /\ CInt.to_size (11 - 100) = 2 ^ 64 - 89
  /\ List.length (written (fst (tqdm_update_n w tq 1))) = 1%nat.
Proof. vm_compute. repeat split; reflexivity. Qed.

(** C1 (the code against the claim).  The count gate of [tqdm_update_n]
    compares [n - last_print_count] as a [size_t] and does not guard the
    difference against a count that lies below the count of the last
    render.  On the instance created at the initial value 100 with a
    threshold of 5 and set to 10 (which renders nothing), an advance by 1
    brings the count to 11: the instance is not complete, the threshold
    is not 0 and the count has not moved by the threshold since the last
    render (11 - 100 is below 5), so the count gate of the claim fails;
    the code takes the difference as 2^64 - 89 and writes the line.  The
    sibling [tqdm_update_to] guards its difference: a set-to to 11 on the
    same instance has a delta of 1 and writes nothing. *)
Theorem set_back_defeats_count_gate :
  let w := fst set_back_gated in
  let tq := snd set_back_gated in
  let tq1 := advanced w tq 1 in
  let t := clock w (Datatypes.S (ticks w)) in
  closed tq = false /\ disable (params tq) = false
  /\ n tq = 10 /\ last_print_count tq = 100 /\ written w = []
  /\ n tq1 = 11 /\ last_print_count tq1 = 100
  /\ miniters (params tq1) = 5 /\ is_complete tq1 = false
  /\ count_gate_as_specified tq1 = false
  /\ time_gate t tq1 = true
  /\ CInt.to_size (n tq1 - last_print_count tq1) = 2 ^ 64 - 89
  /\ bar_defined (ascii (params tq1)) (n tq1) (total (params tq1)) = true
  /\ rendered w (fst (tqdm_update_n w tq 1))
  /\ update_to_delta 11 (n tq) = 1
  /\ fst (fst (tqdm_update_to w tq 11)) = false
  /\ written (snd (fst (tqdm_update_to w tq 11))) = written w.
Proof.
  cbv zeta. do 13 (split; [vm_compute; reflexivity|]).
  split.
  { exists (hd "" (written (fst (tqdm_update_n (fst set_back_gated)
                                  (snd set_back_gated) 1)))).
    vm_compute. reflexivity. }
  do 2 (split; [vm_compute; reflexivity|]).
  vm_compute. reflexivity.
Qed.

(** ** The adaptive threshold *)

Lemma to_unsigned_to_size (z : Z) :
  CInt.to_unsigned (CInt.to_size z) = CInt.to_unsigned z.
Proof.
  unfold CInt.to_unsigned, CInt.to_size.
  apply Z.mod_mod_divide. exists (2 ^ 32). reflexivity.
Qed.

Lemma update_n_threshold (w : world) (tq : tqdm_t) (delta : Z) :
  closed tq = false -> disable (params tq) = false ->
  miniters (params (snd (tqdm_update_n w tq delta)))
  = miniters (params (advanced w tq delta)).
Proof.
  intros Hc Hd. rewrite (update_n_unfold w tq delta Hc Hd). cbv zeta.
  destruct (_ && _); [apply f_equal, print_progress_params | reflexivity].
Qed.

(** The adaptation of the threshold, as the code makes it.  On an advance
    of an open, enabled instance, before the gates are evaluated and
    against the last-render time and
    count of the previous render: if the threshold is 0, the time since the
    last render is positive and below the minimum interval, and the count
    differs from the last-render count, the threshold becomes twice the
    difference of the counts, the difference taken modulo 2^64 and the
    product cut to the 32 bits of the threshold; otherwise the threshold
    stays.  Where the count has grown by less than 2^31 that is exactly
    twice the growth. *)
Lemma update_n_adapts_threshold (w : world) (tq : tqdm_t) (delta : Z) :
  closed tq = false -> disable (params tq) = false ->
  let n' := CInt.to_size (n tq + delta) in
  let count_diff := CInt.to_size (n' - last_print_count tq) in
  let adapts :=
    (miniters (params tq) =? 0)
    && Double.ltb (Double.of_Z 0) (since_last_print w tq)
    && Double.ltb (since_last_print w tq) (mininterval (params tq))
    && (count_diff >? 0) in
  miniters (params (snd (tqdm_update_n w tq delta)))
  = (if adapts then CInt.to_unsigned (2 * count_diff)
     else miniters (params tq))
  /\ miniters (params (advanced w tq delta))
     = miniters (params (snd (tqdm_update_n w tq delta)))
  /\ (last_print_count tq < n' < last_print_count tq + 2 ^ 31 ->
      0 <= last_print_count tq ->
      CInt.to_unsigned (2 * count_diff) = 2 * (n' - last_print_count tq)).
Proof.
  intros Hc Hd. cbv zeta.
  rewrite (update_n_threshold w tq delta Hc Hd).
  split; [|split; [reflexivity|]].
  - unfold advanced, tqdm_update_dynamic_miniters, since_last_print.
    cbn [current_time_seconds set_n set_counters n last_print_time
         last_print_count params].
    destruct (miniters (params tq) =? 0) eqn:Em;
      destruct (Double.ltb (Double.of_Z 0) _);
      destruct (_ >? 0); destruct (Double.ltb _ (mininterval (params tq)));
      cbn [snd params miniters set_params set_miniters andb];
      try reflexivity.
    + rewrite to_unsigned_to_size. f_equal. lia.
  - intros Hr Hl.
    assert (Hn : 0 <= CInt.to_size (n tq + delta) < 2 ^ 64)
      by (apply Z.mod_pos_bound; lia).
    unfold CInt.to_unsigned.
    unfold CInt.to_size at 1.
    rewrite (Z.mod_small (_ - _)) by lia.
    apply Z.mod_small. lia.
Qed.

(** A fresh instance advanced by 2^31: the count has grown by 2^31, the
    specification's threshold is 2^32, the code stores 0. *)
Lemma threshold_as_specified_fails :
  ~ threshold_as_specified (fst (fresh one_second_params))
      (snd (fresh one_second_params)) (2 ^ 31).
Proof.
  unfold threshold_as_specified. vm_compute. intros H. discriminate H.
Qed.

Example threshold_wraps_to_zero :
  let w := fst (fresh one_second_params) in
  let tq := snd (fresh one_second_params) in
  let tq' := snd (tqdm_update_n w tq (2 ^ 31)) in
  miniters (params tq) = 0
  /\ Double.ltb (Double.of_Z 0) (since_last_print w tq) = true
  /\ Double.ltb (since_last_print w tq) (mininterval (params tq)) = true
  /\ n tq' - last_print_count tq = 2 ^ 31
  /\ miniters (params tq') = 0.
Proof. vm_compute. repeat split; reflexivity. Qed.

(** Advanced by 1 half a second later, the count (11) has not grown past
    the last-render count (100), yet the threshold is set: the [size_t]
    difference is not 0. *)
Example threshold_set_when_count_fell :
  let w := fst set_back in
  let tq := snd set_back in
  let tq' := snd (tqdm_update_n w tq 1) in
  n tq = 10 /\ last_print_count tq = 100 /\ miniters (params tq) = 0
  /\ closed tq = false /\ written w = []
  /\ n tq' = 11 /\ miniters (params tq') = 2 ^ 32 - 178
  /\ ~ threshold_as_specified w tq 1.
Proof.
  cbv zeta. do 7 (split; [vm_compute; reflexivity|]).
  unfold threshold_as_specified. vm_compute. intros H. discriminate H.
Qed.

(** C2 (the code against the claim).  [tqdm_update_dynamic_miniters]
    takes [count_diff = n - last_print_count] as a [size_t] and tests
    [count_diff > 0] for "the count has grown"; a count below the count
    of the last render gives a difference near 2^64, which passes the
    test.  On the instance created at the initial value 100 with the
    threshold 0 and set to 10, an advance by 1 half a second later brings
    the count to 11: the count has not grown since the last render (100),
    so the claim leaves the threshold at 0; the code sets it to the 32
    bits of [2 * (2^64 - 89)], which is 2^32 - 178. *)
Theorem set_back_sets_threshold :
  let w := fst set_back in
  let tq := snd set_back in
  let tq' := snd (tqdm_update_n w tq 1) in
  closed tq = false /\ disable (params tq) = false
  /\ n tq = 10 /\ last_print_count tq = 100 /\ miniters (params tq) = 0
  /\ Double.ltb (Double.of_Z 0) (since_last_print w tq) = true
  /\ Double.ltb (since_last_print w tq) (mininterval (params tq)) = true
  /\ n tq' = 11 /\ (n tq' >? last_print_count tq) = false
  /\ CInt.to_size (n tq' - last_print_count tq) = 2 ^ 64 - 89
  /\ CInt.to_unsigned (2 * (2 ^ 64 - 89)) = 2 ^ 32 - 178
  /\ miniters (params tq') = 2 ^ 32 - 178
  /\ ~ threshold_as_specified w tq 1.
Proof.
  cbv zeta. do 12 (split; [vm_compute; reflexivity|]).
  unfold threshold_as_specified. vm_compute. intros H. discriminate H.
Qed.

(** ** Closed and disabled instances *)

Lemma update_n_closed_or_disabled (w : world) (tq : tqdm_t) (delta : Z) :
  closed tq || disable (params tq) = true ->
  tqdm_update_n w tq delta = (w, tq).
Proof. intros H. unfold tqdm_update_n. rewrite H. reflexivity. Qed.

Lemma update_to_closed_or_disabled (w : world) (tq : tqdm_t) (value : Z) :
  closed tq || disable (params tq) = true ->
  tqdm_update_to w tq value = (false, w, tq).
Proof. intros H. unfold tqdm_update_to. rewrite H. reflexivity. Qed.

(** Advance and set-to leave a closed instance and the world as they
    are. *)
Lemma closed_count_update_noop (st : world * tqdm_t) (o : operation) :
  closed (snd st) = true -> is_count_update o = true -> step st o = st.
Proof.
  destruct st as [w tq]. cbn [snd]. intros Hc Ho.
  destruct o; try discriminate Ho; cbn [step].
  - apply update_n_closed_or_disabled. rewrite Hc. reflexivity.
  - rewrite update_to_closed_or_disabled by (rewrite Hc; reflexivity).
    reflexivity.
Qed.

(** C3 (the code against the claim).  [tqdm_reset] has no guard for a
    closed instance: on an instance closed at [n = 5] of 10, [reset (7)]
    puts the count back to the initial value 0, replaces the total by 7,
    restarts the timing and leaves the instance closed, while advance and
    set-to leave the same instance untouched. *)
Theorem reset_mutates_closed_instance :
  let w := fst closed_at_five in
  let tq := snd closed_at_five in
  let tq' := snd (tqdm_reset w tq 7) in
  closed tq = true /\ n tq = 5 /\ total (params tq) = 10
  /\ closed tq' = true /\ n tq' = 0 /\ total (params tq') = 7
  /\ start_time tq' <> start_time tq
  /\ last_print_time tq' <> last_print_time tq
  /\ tqdm_update_n w tq 1 = (w, tq)
  /\ tqdm_update_to w tq 9 = (false, w, tq).
Proof.
  cbv zeta.
  assert (Hc : closed (snd closed_at_five) = true) by (vm_compute; reflexivity).
  do 8 (split; [first [vm_compute; reflexivity | vm_compute; discriminate]|]).
  split.
  - apply update_n_closed_or_disabled. rewrite Hc. reflexivity.
  - apply update_to_closed_or_disabled. rewrite Hc. reflexivity.
Qed.

Lemma print_progress_disabled (w : world) (tq : tqdm_t) :
  disable (params tq) = true -> tqdm_print_progress w tq = (w, tq).
Proof. intros H. unfold tqdm_print_progress. rewrite H. reflexivity. Qed.

(** No operation writes for a disabled instance, and none enables it. *)
Lemma step_disabled (st : world * tqdm_t) (o : operation) :
  disable (params (snd st)) = true ->
  written (fst (step st o)) = written (fst st)
  /\ disable (params (snd (step st o))) = true.
Proof.
  destruct st as [w tq]. cbn [fst snd]. intros Hd.
  destruct o as [delta|value|new_total| | | |text refresh|text refresh];
    cbn [step].
  - rewrite update_n_closed_or_disabled by (rewrite Hd; apply orb_true_r).
    auto.
  - rewrite update_to_closed_or_disabled by (rewrite Hd; apply orb_true_r).
    auto.
  - unfold tqdm_reset. cbn [current_time_seconds].
    destruct (new_total >? 0); cbn; auto.
  - unfold tqdm_refresh. rewrite Hd, orb_true_r. auto.
  - unfold tqdm_unpause. destruct (negb (paused tq)); cbn; auto.
  - unfold tqdm_close, tqdm_clear. destruct (closed tq); [auto|].
    rewrite Hd. cbn [negb]. rewrite andb_false_r.
    destruct (negb (leave (params tq))); cbn; auto.
  - unfold tqdm_set_description_str. destruct refresh; [|cbn; auto].
    rewrite print_progress_disabled by exact Hd. cbn. auto.
  - unfold tqdm_set_postfix_str, tqdm_refresh.
    destruct refresh; [|cbn; auto].
    cbn [closed params disable set_params set_postfix].
    rewrite Hd, orb_true_r. cbn. auto.
Qed.

Lemma run_disabled (ops : list operation) (st : world * tqdm_t) :
  disable (params (snd st)) = true ->
  written (fst (run st ops)) = written (fst st).
Proof.
  revert st. unfold run.
  induction ops as [|o ops IH]; intros st Hd; cbn [fold_left].
  - reflexivity.
  - destruct (step_disabled st o Hd) as [Hw Hd'].
    rewrite (IH (step st o) Hd'). exact Hw.
Qed.

(** C4.  On an instance whose disabled flag is set, any sequence of
    advance and set-to operations leaves the instance and the world as
    they are: the count keeps its value and nothing is written.  Nothing
    is written for such an instance by the other operations either. *)
Theorem disabled_count_updates_noop (st : world * tqdm_t)
  (ops : list operation) :
  disable (params (snd st)) = true ->
  forallb is_count_update ops = true ->
  run st ops = st
  /\ n (snd (run st ops)) = n (snd st)
  /\ written (fst (run st ops)) = written (fst st)
  /\ (forall any_ops : list operation,
        written (fst (run st any_ops)) = written (fst st)).
Proof.
  intros Hd Hops.
  assert (E : run st ops = st).
  { unfold run. induction ops as [|o ops IH]; [reflexivity|].
    cbn [forallb] in Hops. apply andb_prop in Hops as [Ho Hops].
    cbn [fold_left].
    assert (Es : step st o = st).
    { destruct st as [w tq]. cbn [snd] in Hd.
      destruct o; try discriminate Ho; cbn [step].
      - apply update_n_closed_or_disabled. rewrite Hd. apply orb_true_r.
      - rewrite update_to_closed_or_disabled
          by (rewrite Hd; apply orb_true_r).
        reflexivity. }
    rewrite Es. apply IH. exact Hops. }
  rewrite E.
  split; [reflexivity|]. split; [reflexivity|]. split; [reflexivity|].
  intros any_ops. apply run_disabled. exact Hd.
Qed.

(** The check of the test suite: a fresh disabled instance with initial
    value 0 has [n = 0] after [advance (50)]. *)
Lemma disabled_count_updates_noop_witness :
  disable (params (snd (fresh disabled_params))) = true
  /\ forallb is_count_update [Advance 50] = true
  /\ n (snd (run (fresh disabled_params) [Advance 50])) = 0
  /\ written (fst (run (fresh disabled_params) [Advance 50])) = [].
Proof.
  split; [reflexivity|]. split; [reflexivity|].
  pose proof (disabled_count_updates_noop (fresh disabled_params)
                [Advance 50] eq_refl eq_refl) as (_ & Hn & Hw & _).
  split; [exact Hn | exact Hw].
Defined.

(** ** Set-to *)

Lemma update_to_unfold (w : world) (tq : tqdm_t) (value : Z) :
  closed tq = false -> disable (params tq) = false ->
  let delta := update_to_delta value (n tq) in
  let r := tqdm_update_dynamic_miniters w (set_n value tq) in
  let t := clock w (Datatypes.S (ticks w)) in
  let w2 := snd (current_time_seconds (fst r)) in
  let should_print := should_print_of (snd r) t delta in
  tqdm_update_to w tq value =
    (should_print,
     fst (if should_print then tqdm_print_progress w2 (snd r)
          else (w2, snd r)),
     snd (if should_print then tqdm_print_progress w2 (snd r)
          else (w2, snd r))).
Proof.
  intros Hc Hd. unfold tqdm_update_to. rewrite Hc, Hd.
  cbn [orb]. cbv zeta.
  pose proof (dynamic_miniters_frame w (set_n value tq)) as F.
  cbv zeta in F.
  destruct (tqdm_update_dynamic_miniters w (set_n value tq)) as [w1 tq1].
  cbn [fst snd] in *.
  destruct F as (_ & Fc & Ft & _).
  unfold current_time_seconds. cbn [fst snd]. rewrite Fc, Ft.
  destruct (should_print_of tq1 _ _); [|reflexivity].
  destruct (tqdm_print_progress _ tq1); reflexivity.
Qed.

Lemma update_to_state (w : world) (tq : tqdm_t) (value : Z) :
  closed tq = false -> disable (params tq) = false ->
  let tq' := snd (tqdm_update_to w tq value) in
  n tq' = value /\ closed tq' = false /\ disable (params tq') = false.
Proof.
  intros Hc Hd. cbv zeta.
  rewrite (update_to_unfold w tq value Hc Hd). cbv zeta. cbn [snd].
  pose proof (dynamic_miniters_frame w (set_n value tq)) as F.
  cbv zeta in F.
  destruct F as (_ & _ & _ & _ & Fn & _ & Fcl & _ & _ & _ & Fd & _).
  cbn [set_n set_counters n closed params] in Fn, Fcl, Fd.
  destruct (should_print_of _ _ _).
  - destruct (print_progress_counters
                (snd (current_time_seconds
                        (fst (tqdm_update_dynamic_miniters w
                                (set_n value tq)))))
                (snd (tqdm_update_dynamic_miniters w (set_n value tq))))
      as (Pn & _ & Pc).
    rewrite Pn, Pc, print_progress_params. repeat split; congruence.
  - cbn [snd]. repeat split; congruence.
Qed.

(** C5.  On an open, enabled instance [tqdm_update_to (v)] takes
    [delta = max (0, v - n)] for its throttle decision (the count gate
    compares [delta] with the threshold; the result is the decision) and
    sets [n = v], also when [v] is below [n].  A second [set-to (v)] right
    after the first finds [delta = 0] and leaves the count at [v]. *)
Theorem update_to_idempotent (w : world) (tq : tqdm_t) (v : Z) :
  closed tq = false -> disable (params tq) = false ->
  CInt.is_size v -> CInt.is_size (n tq) ->
  let r1 := tqdm_update_to w tq v in
  let w1 := snd (fst r1) in
  let tq1 := snd r1 in
  let r2 := tqdm_update_to w1 tq1 v in
  update_to_delta v (n tq) = Z.max 0 (v - n tq)
  /\ fst (fst r1)
     = should_print_of
         (snd (tqdm_update_dynamic_miniters w (set_n v tq)))
         (clock w (Datatypes.S (ticks w))) (Z.max 0 (v - n tq))
  /\ n tq1 = v
  /\ update_to_delta v (n tq1) = 0
  /\ n (snd r2) = v.
Proof.
  intros Hc Hd Hv Hn. cbv zeta.
  assert (Hdelta : update_to_delta v (n tq) = Z.max 0 (v - n tq)).
  { unfold update_to_delta, CInt.to_size.
    unfold CInt.is_size, CInt.SIZE_T_MAX in Hv, Hn.
    destruct (v >? n tq) eqn:E.
    - apply Z.gtb_lt in E. rewrite Z.mod_small by lia. lia.
    - rewrite Z.gtb_ltb in E. apply Z.ltb_ge in E. lia. }
  destruct (update_to_state w tq v Hc Hd) as (Hn1 & Hc1 & Hd1).
  split; [exact Hdelta|]. split.
  { rewrite (update_to_unfold w tq v Hc Hd). cbv zeta. cbn [fst].
    rewrite Hdelta. reflexivity. }
  split; [exact Hn1|]. split.
  { rewrite Hn1. unfold update_to_delta.
    rewrite Z.gtb_ltb, Z.ltb_irrefl. reflexivity. }
  apply (update_to_state (snd (fst (tqdm_update_to w tq v)))
           (snd (tqdm_update_to w tq v)) v Hc1 Hd1).
Qed.

(** A fresh instance with a total of 10, set to 4 twice. *)
Lemma update_to_idempotent_witness :
  let w := fst (fresh (set_total 10 one_second_params)) in
  let tq := snd (fresh (set_total 10 one_second_params)) in
  closed tq = false /\ disable (params tq) = false
  /\ CInt.is_size 4 /\ CInt.is_size (n tq)
  /\ n (snd (tqdm_update_to w tq 4)) = 4
  /\ n (snd (tqdm_update_to (snd (fst (tqdm_update_to w tq 4)))
               (snd (tqdm_update_to w tq 4)) 4)) = 4.
Proof.
  cbv zeta.
  assert (H4 : CInt.is_size 4) by (unfold CInt.is_size, CInt.SIZE_T_MAX; lia).
  assert (H0 : CInt.is_size
                 (n (snd (fresh (set_total 10 one_second_params)))))
    by (unfold CInt.is_size, CInt.SIZE_T_MAX; cbn; lia).
  split; [reflexivity|]. split; [reflexivity|].
  split; [exact H4|]. split; [exact H0|].
  pose proof (update_to_idempotent
                (fst (fresh (set_total 10 one_second_params)))
                (snd (fresh (set_total 10 one_second_params))) 4
                eq_refl eq_refl H4 H0) as (_ & _ & Hn1 & _ & Hn2).
  split; [exact Hn1 | exact Hn2].
Defined.

(** ** Reset and the total *)

Lemma update_to_total (w : world) (tq : tqdm_t) (value : Z) :
  total (params (snd (tqdm_update_to w tq value))) = total (params tq).
Proof.
  unfold tqdm_update_to.
  destruct (closed tq || disable (params tq)); [reflexivity|].
  cbv zeta.
  pose proof (dynamic_miniters_frame w (set_n value tq)) as F.
  cbv zeta in F.
  destruct (tqdm_update_dynamic_miniters w (set_n value tq)) as [w1 tq1].
  cbn [fst snd] in F.
  destruct F as (_ & _ & _ & _ & _ & _ & _ & _ & _ & Ft & _).
  cbn [current_time_seconds].
  destruct (should_print_of tq1 _ _).
  - pose proof (print_progress_params
                  {| clock := clock w1; ticks := Datatypes.S (ticks w1);
                     ws_col := ws_col w1; written := written w1 |} tq1)
      as P.
    destruct (tqdm_print_progress _ tq1) as [w2 tq2]. cbn [snd] in *.
    rewrite P. exact Ft.
  - exact Ft.
Qed.

Lemma update_n_total (w : world) (tq : tqdm_t) (delta : Z) :
  total (params (snd (tqdm_update_n w tq delta))) = total (params tq).
Proof.
  unfold tqdm_update_n.
  destruct (closed tq || disable (params tq)); [reflexivity|].
  cbv zeta.
  pose proof (dynamic_miniters_frame w
                (set_n (CInt.to_size (n tq + delta)) tq)) as F.
  cbv zeta in F.
  destruct (tqdm_update_dynamic_miniters w _) as [w1 tq1].
  cbn [fst snd] in F.
  destruct F as (_ & _ & _ & _ & _ & _ & _ & _ & _ & Ft & _).
  cbn [current_time_seconds].
  destruct (should_print_of tq1 _ _).
  - rewrite print_progress_params. exact Ft.
  - exact Ft.
Qed.

Lemma next_total (S : Type) (next_func : S -> Z * S)
  (has_next_func : S -> bool * S) (w : world) (it : S) (tq : tqdm_t) :
  total (params (snd (tqdm_next next_func has_next_func w it tq)))
  = total (params tq).
Proof.
  unfold tqdm_next.
  destruct (tqdm_has_next has_next_func it tq) as [more it1].
  destruct more; cbn [negb]; [|reflexivity].
  assert (Step : forall tq0 : tqdm_t,
             total (params tq0) = total (params tq) ->
             forall (r : Z) (it2 : S),
               total (params (snd
                 (let tq1 :=
                    set_counters (CInt.to_size (n tq0 + 1))
                      (CInt.to_size (count tq0 + 1)) tq0 in
                  let '(w1, tq2) := tqdm_update_dynamic_miniters w tq1 in
                  let '(current_time, w2) := current_time_seconds w1 in
                  let should_print :=
                    should_print_of tq2 current_time
                      (CInt.to_size (n tq2 - last_print_count tq2)) in
                  let '(w3, tq3) :=
                    if should_print && negb (disable (params tq2))
                    then tqdm_print_progress w2 tq2
                    else (w2, tq2) in
                  (r, w3, it2, tq3))))
               = total (params tq)).
  { intros tq0 H0 r it2. cbv zeta.
    pose proof (dynamic_miniters_frame w
                  (set_counters (CInt.to_size (n tq0 + 1))
                     (CInt.to_size (count tq0 + 1)) tq0)) as F.
    cbv zeta in F.
    destruct (tqdm_update_dynamic_miniters w _) as [w1 tq2].
    cbn [fst snd] in F.
    destruct F as (_ & _ & _ & _ & _ & _ & _ & _ & _ & Ft & _).
    cbn [set_counters params] in Ft.
    cbn [current_time_seconds].
    destruct (should_print_of tq2 _ _ && negb (disable (params tq2))).
    - pose proof (print_progress_params
                    {| clock := clock w1; ticks := Datatypes.S (ticks w1);
                       ws_col := ws_col w1; written := written w1 |} tq2)
        as P.
      destruct (tqdm_print_progress _ tq2) as [w3 tq3]. cbn [snd] in *.
      rewrite P. congruence.
    - cbn [snd]. congruence. }
  destruct (iterator_mode tq).
  - destruct (next_func it1) as [r it2]. apply Step. reflexivity.
  - apply Step. reflexivity.
Qed.

(** Every operation but a reset with a positive argument keeps the
    total. *)
Lemma step_total (st : world * tqdm_t) (o : operation) :
  total (params (snd (step st o)))
  = match o with
    | ResetTo new_total =>
        if new_total >? 0 then new_total else total (params (snd st))
    | _ => total (params (snd st))
    end.
Proof.
  destruct st as [w tq]. cbn [snd].
  destruct o as [delta|value|new_total| | | |text refresh|text refresh];
    cbn [step].
  - apply update_n_total.
  - pose proof (update_to_total w tq value) as H.
    destruct (tqdm_update_to w tq value) as [[b w'] tq']. exact H.
  - unfold tqdm_reset. cbn [current_time_seconds].
    destruct (new_total >? 0); reflexivity.
  - unfold tqdm_refresh.
    destruct (closed tq || disable (params tq)); [reflexivity|].
    rewrite print_progress_params. reflexivity.
  - unfold tqdm_unpause. destruct (negb (paused tq)); reflexivity.
  - unfold tqdm_close. destruct (closed tq); [reflexivity|].
    destruct (leave (params tq) && negb (disable (params tq))).
    + pose proof (print_progress_params w tq) as P.
      destruct (tqdm_print_progress w tq) as [w' tq'].
      cbn [snd params set_closed] in *. rewrite P. reflexivity.
    + destruct (negb (leave (params tq))); reflexivity.
  - unfold tqdm_set_description_str. destruct refresh; [|reflexivity].
    rewrite print_progress_params. reflexivity.
  - unfold tqdm_set_postfix_str, tqdm_refresh.
    destruct refresh; [|reflexivity].
    cbn [closed params disable set_params set_postfix].
    destruct (closed tq || disable (params tq)); [reflexivity|].
    rewrite print_progress_params. reflexivity.
Qed.

Lemma update_n_pause (w : world) (tq : tqdm_t) (delta : Z) :
  paused (snd (tqdm_update_n w tq delta)) = paused tq
  /\ pause_start (snd (tqdm_update_n w tq delta)) = pause_start tq.
Proof.
  unfold tqdm_update_n.
  destruct (closed tq || disable (params tq)); [auto|].
  cbv zeta.
  pose proof (dynamic_miniters_pause w
                (set_n (CInt.to_size (n tq + delta)) tq)) as F.
  destruct (tqdm_update_dynamic_miniters w _) as [w1 tq1].
  cbn [fst snd set_n set_counters paused pause_start] in F.
  cbn [current_time_seconds].
  destruct (should_print_of tq1 _ _); [|exact F].
  destruct (print_progress_pause
              {| clock := clock w1; ticks := Datatypes.S (ticks w1);
                 ws_col := ws_col w1; written := written w1 |} tq1)
    as [P1 P2].
  rewrite P1, P2. exact F.
Qed.

Lemma update_to_pause (w : world) (tq : tqdm_t) (value : Z) :
  paused (snd (tqdm_update_to w tq value)) = paused tq
  /\ pause_start (snd (tqdm_update_to w tq value)) = pause_start tq.
Proof.
  unfold tqdm_update_to.
  destruct (closed tq || disable (params tq)); [auto|].
  cbv zeta.
  pose proof (dynamic_miniters_pause w (set_n value tq)) as F.
  destruct (tqdm_update_dynamic_miniters w (set_n value tq)) as [w1 tq1].
  cbn [fst snd set_n set_counters paused pause_start] in F.
  cbn [current_time_seconds].
  destruct (should_print_of tq1 _ _); [|exact F].
  pose proof (print_progress_pause
                {| clock := clock w1; ticks := Datatypes.S (ticks w1);
                   ws_col := ws_col w1; written := written w1 |} tq1)
    as [P1 P2].
  destruct (tqdm_print_progress _ tq1) as [w2 tq2]. cbn [snd] in *.
  rewrite P1, P2. exact F.
Qed.

(** No operation of the engine starts a pause: an instance that is not
    paused stays so, with the start of the pause at zero. *)
Lemma step_never_paused (st : world * tqdm_t) (o : operation) :
  never_paused (snd st) -> never_paused (snd (step st o)).
Proof.
  destruct st as [w tq]. cbn [snd]. unfold never_paused. intros [Hp Hs].
  destruct o as [delta|value|new_total| | | |text refresh|text refresh];
    cbn [step].
  - destruct (update_n_pause w tq delta) as [P1 P2]. rewrite P1, P2. auto.
  - pose proof (update_to_pause w tq value) as [P1 P2].
    destruct (tqdm_update_to w tq value) as [[b w'] tq']. cbn [snd] in *.
    rewrite P1, P2. auto.
  - unfold tqdm_reset. cbn [current_time_seconds].
    destruct (new_total >? 0); cbn; auto.
  - unfold tqdm_refresh.
    destruct (closed tq || disable (params tq)); [auto|].
    destruct (print_progress_pause w tq) as [P1 P2]. rewrite P1, P2. auto.
  - unfold tqdm_unpause. rewrite Hp. cbn. auto.
  - unfold tqdm_close. destruct (closed tq); [auto|].
    destruct (leave (params tq) && negb (disable (params tq))).
    + pose proof (print_progress_pause w tq) as [P1 P2].
      destruct (tqdm_print_progress w tq) as [w' tq'].
      cbn [snd paused pause_start set_closed] in *. rewrite P1, P2. auto.
    + destruct (negb (leave (params tq))); cbn; auto.
  - unfold tqdm_set_description_str. destruct refresh; [|cbn; auto].
    destruct (print_progress_pause w
                (set_params (set_desc text (params tq)) tq)) as [P1 P2].
    rewrite P1, P2. cbn. auto.
  - unfold tqdm_set_postfix_str, tqdm_refresh.
    destruct refresh; [|cbn; auto].
    cbn [closed params disable set_params set_postfix].
    destruct (closed tq || disable (params tq)); [cbn; auto|].
    destruct (print_progress_pause w
                (set_params (set_postfix text (params tq)) tq)) as [P1 P2].
    rewrite P1, P2. cbn. auto.
Qed.

Lemma run_never_paused (ops : list operation) (st : world * tqdm_t) :
  never_paused (snd st) -> never_paused (snd (run st ops)).
Proof.
  revert st. unfold run.
  induction ops as [|o ops IH]; intros st H; cbn [fold_left].
  - exact H.
  - apply IH. apply step_never_paused. exact H.
Qed.

Lemma create_never_paused (env : environment) (w : world)
  (begin end_ptr element_size : Z) (p : tqdm_params_t) :
  never_paused
    (snd (tqdm_create_with_params env w begin end_ptr element_size p)).
Proof. split; reflexivity. Qed.

(** C6.  [tqdm_reset (T)] leaves the count at the configured initial
    value, clears the paused flag, the paused time and the rate history
    (every slot and the write index), and makes the total [T] when
    [T > 0]; [reset (0)] keeps the total.  No other operation of the
    engine changes the total, pull-next included.  The start of the pause
    is not written by the reset; it is zero on every instance that the
    operations of the engine reach from a creation, so after the reset
    too. *)
Theorem reset_reinitialises (w : world) (tq : tqdm_t) (T : Z) :
  let tq' := snd (tqdm_reset w tq T) in
  n tq' = initial (params tq)
  /\ paused tq' = false
  /\ total_pause_time tq' = Double.zero
  /\ rate_history tq' = repeat Double.zero (Z.to_nat (rate_history_size tq))
  /\ rate_history_idx tq' = 0
  /\ total (params tq') = (if T >? 0 then T else total (params tq))
  /\ total (params (snd (tqdm_reset w tq 0))) = total (params tq)
  /\ (forall (st : world * tqdm_t) (o : operation),
        is_positive_reset o = false ->
        total (params (snd (step st o))) = total (params (snd st)))
  /\ (forall (S : Type) (next_func : S -> Z * S)
        (has_next_func : S -> bool * S) (w1 : world) (it : S)
        (tq1 : tqdm_t),
        total (params (snd (tqdm_next next_func has_next_func w1 it tq1)))
        = total (params tq1))
  /\ (forall env w0 begin end_ptr element_size p ops,
        let st :=
          run (tqdm_create_with_params env w0 begin end_ptr element_size p)
            ops in
        pause_start (snd (tqdm_reset (fst st) (snd st) T)) = Double.zero).
Proof.
  cbv zeta.
  do 6 (split; [unfold tqdm_reset; cbn [current_time_seconds];
                destruct (T >? 0); reflexivity|]).
  split; [reflexivity|].
  split.
  - intros st o Ho. rewrite step_total.
    destruct o; try reflexivity. cbn in Ho. rewrite Ho. reflexivity.
  - split; [exact next_total|].
    intros env w0 begin end_ptr element_size p ops.
    pose proof (step_never_paused
                  (run (tqdm_create_with_params env w0 begin end_ptr
                          element_size p) ops)
                  (ResetTo T)
                  (run_never_paused ops _
                     (create_never_paused env w0 begin end_ptr
                        element_size p))) as [_ H].
    destruct (run (tqdm_create_with_params env w0 begin end_ptr
                     element_size p) ops) as [w1 tq1].
    exact H.
Qed.

(** ** Pull-next on an exhausted instance *)

Section Exhausted.

Variable S : Type.
Variable next_func : S -> Z * S.
Variable has_next_func : S -> bool * S.

(** The ways has-more is false without asking an adapter. *)
Lemma has_next_false_cases (it : S) (tq : tqdm_t) :
  closed tq = true
  \/ (iterator_mode tq = false /\ end_ tq <> 0 /\ end_ tq <= current tq)
  \/ (iterator_mode tq = false /\ end_ tq = 0 /\ 0 < total (params tq)
      /\ total (params tq) <= n tq) ->
  tqdm_has_next has_next_func it tq = (false, it).
Proof.
  unfold tqdm_has_next.
  intros [Hc | [(Hi & He & Hr) | (Hi & He & Ht & Hn)]].
  - rewrite Hc. reflexivity.
  - destruct (closed tq); [reflexivity|]. rewrite Hi.
    apply Z.eqb_neq in He. rewrite He. cbn [negb].
    apply Z.ltb_ge in Hr. rewrite Hr. reflexivity.
  - destruct (closed tq); [reflexivity|]. rewrite Hi, He. cbn.
    apply Z.gtb_lt in Ht. rewrite Ht.
    apply Z.ltb_ge in Hn. rewrite Hn. reflexivity.
Qed.

(** C10.  When has-more is false, [tqdm_next] returns [NULL], writes
    nothing, reads no clock and leaves every field of the instance as it
    is; the adapter's state is the one has-more left.  Has-more is false
    on a closed instance, on an exhausted array range and, without an
    array end or an adapter, once [n] has reached a positive total. *)
Theorem next_exhausted_noop (w : world) (it : S) (tq : tqdm_t) :
  fst (tqdm_has_next has_next_func it tq) = false ->
  tqdm_next next_func has_next_func w it tq
  = (0, w, snd (tqdm_has_next has_next_func it tq), tq).
Proof.
  intros H. unfold tqdm_next.
  destruct (tqdm_has_next has_next_func it tq) as [more it'].
  cbn [fst snd] in *. rewrite H. reflexivity.
Qed.

End Exhausted.

Lemma next_exhausted_noop_witness :
  fst (tqdm_has_next no_adapter_has_next tt (snd array_walked)) = false
  /\ n (snd array_walked) = 3
  /\ tqdm_next no_adapter_next no_adapter_has_next (fst array_walked) tt
       (snd array_walked)
     = (0, fst array_walked, tt, snd array_walked).
Proof.
  split; [reflexivity|]. split; [reflexivity|].
  exact (next_exhausted_noop unit no_adapter_next no_adapter_has_next
           (fst array_walked) tt (snd array_walked) eq_refl).
Defined.

(** ** The remaining-time field *)

Lemma positive_not_zero (x : double) :
  Double.ltb (Double.of_Z 0) x = true ->
  Double.eqb x (Double.of_Z 0) = false /\ Double.leb x (Double.of_Z 0) = false.
Proof.
  intros H. split.
  - unfold Double.ltb, Double.eqb, SFltb, SFeqb in *.
    rewrite (SFcompare_swap (Double.of_Z 0) x).
    destruct (SFcompare (Double.of_Z 0) x) as [[ | | ]|];
      cbn; congruence.
  - apply ltb_not_leb. exact H.
Qed.

Lemma append_assoc (a b c : string) : (a ++ b) ++ c = a ++ b ++ c.
Proof. induction a as [|ch a IH]; cbn; [reflexivity | rewrite IH; reflexivity]. Qed.

Lemma meter_default_remaining (n total : Z) (elapsed : double) (ncols : Z)
  (prefix : option string) (ascii : bool) (unit_ : option string)
  (unit_scale : bool) (rate : double) (postfix : option string)
  (unit_divisor : Z) :
  exists before after,
    meter_default n total elapsed ncols prefix ascii unit_ unit_scale rate
      postfix unit_divisor
    = snprintf 1024
        (before ++ " [" ++ tqdm_format_interval elapsed ++ "<" ++
         meter_remaining_str n total rate ++ ", " ++ after).
Proof.
  unfold meter_default.
  destruct (meter_counts n total unit_ unit_scale rate unit_divisor)
    as [[n_str total_str] rate_str].
  exists ((if nonempty prefix then opt_str prefix else "") ++
          (if nonempty prefix then ": " else "") ++
          fixed3_0 (meter_percentage n total) ++ "%|" ++
          meter_bar ascii (meter_bar_width ncols prefix postfix) n total ++
          "| " ++ n_str ++ "/" ++ total_str).
  exists (rate_str ++ (if unit_scale then "" else
                        match unit_ with Some u => u | None => "it" end) ++
          "/s]" ++ (if nonempty postfix then " " else "") ++ opt_str postfix).
  rewrite !append_assoc. reflexivity.
Qed.

(** The remaining-time estimate of the meter.  It is computed, as
    [(total - n) / rate], exactly when [total > 0], [n > 0], [rate > 0] and
    [n < total]; the divisor is then not zero.  In every other case, an
    unknown total and a rate that is not positive among them, the
    remaining field is the marker ["?"].  The default layout of the
    embedding prints that field after the elapsed time. *)
Lemma remaining_defined_iff (n total : Z) (rate : double) :
  CInt.is_size n -> CInt.is_size total ->
  let defined :=
    (total >? 0) && (n >? 0) && Double.ltb (Double.of_Z 0) rate
    && (n <? total) in
  remaining_estimate n total rate
  = (if defined then Some (Double.div (Double.of_Z (total - n)) rate)
     else None)
  /\ meter_remaining_str n total rate
     = (if defined
        then tqdm_format_interval (Double.div (Double.of_Z (total - n)) rate)
        else "?")
  /\ (defined = true -> Double.eqb rate (Double.of_Z 0) = false)
  /\ meter_remaining_str n 0 rate = "?"
  /\ (Double.leb rate (Double.of_Z 0) = true ->
      meter_remaining_str n total rate = "?")
  /\ (forall elapsed ncols prefix ascii unit_ unit_scale bar_format postfix
        unit_divisor initial colour,
        nonempty bar_format = false ->
        exists before after,
          tqdm_format_meter n total elapsed ncols prefix ascii unit_
            unit_scale rate bar_format postfix unit_divisor initial colour
          = snprintf 1024
              (before ++ " [" ++ tqdm_format_interval elapsed ++ "<" ++
               meter_remaining_str n total rate ++ ", " ++ after)).
Proof.
  intros Hn Ht. cbv zeta.
  assert (E : remaining_estimate n total rate
              = if (total >? 0) && (n >? 0)
                   && Double.ltb (Double.of_Z 0) rate && (n <? total)
                then Some (Double.div (Double.of_Z (total - n)) rate)
                else None).
  { unfold remaining_estimate.
    destruct ((total >? 0) && (n >? 0) && Double.ltb (Double.of_Z 0) rate
              && (n <? total)) eqn:G; [|reflexivity].
    apply andb_prop in G as [G Hlt]. apply Z.ltb_lt in Hlt.
    unfold CInt.is_size, CInt.SIZE_T_MAX in Hn, Ht.
    unfold CInt.to_size. rewrite Z.mod_small by lia. reflexivity. }
  split; [exact E|].
  split.
  { unfold meter_remaining_str. rewrite E.
    destruct (_ && _); reflexivity. }
  split.
  { intros G. apply andb_prop in G as [G _]. apply andb_prop in G as [_ G].
    apply positive_not_zero. exact G. }
  split.
  { unfold meter_remaining_str, remaining_estimate. reflexivity. }
  split.
  { intros Hr. unfold meter_remaining_str. rewrite E.
    destruct (Double.ltb (Double.of_Z 0) rate) eqn:Hp.
    - apply ltb_not_leb in Hp. congruence.
    - rewrite andb_false_r. reflexivity. }
  intros elapsed ncols prefix ascii unit_ unit_scale bar_format postfix
    unit_divisor initial colour Hb.
  unfold tqdm_format_meter. rewrite Hb. apply meter_default_remaining.
Qed.

(** C7 (the code against the claim).  A count at or above the total is
    one of the cases in which the remaining field is the marker ["?"],
    and the claim has the meter render it without a crash.  The marker is
    chosen, but the same call of [tqdm_format_meter] then builds the bar,
    and for a count far above the total the bar leaves defined behaviour.
    ASCII mode, [n = 2^40], [total = 1], 53 columns (a bar of 3): the
    quotient [3 * 2^40] does not fit the [int] it is converted to, the
    clamp [filled > bar_width] sees no positive number and [memset] is
    given that count.  Glyph mode, [n = 2^28], [total = 1], 51 columns (a
    bar of 1): [n * 8 * bar_width = 2^31] becomes the [int] [-2^31],
    [filled_full] is [-2^28], and the last loop writes [2^28 + 1] empty
    cells into the buffer of 5 bytes.  The engine reaches the renderer
    with such a count: an advance by 2^40 of a fresh instance with the
    total 1 completes it, so both gates pass. *)
Theorem remaining_unknown_bar_overrun :
  (forall rate : double, meter_remaining_str (2 ^ 40) 1 rate = "?")
  /\ meter_bar_width 53 None None = 3
  /\ Double.trunc
       (Double.div (Double.mul (Double.of_Z 3) (Double.of_Z (2 ^ 40)))
          (Double.of_Z 1)) = Some (3 * 2 ^ 40)
  /\ CInt.INT_MAX < 3 * 2 ^ 40
  /\ meter_bar_defined true 3 (2 ^ 40) 1 = false
  /\ (forall rate : double, meter_remaining_str (2 ^ 28) 1 rate = "?")
  /\ meter_bar_width 51 None None = 1
  /\ CInt.to_int (CInt.to_size (2 ^ 28 * 8 * 1) / 1) = - 2 ^ 31
  /\ glyph_bar_bytes 1 (2 ^ 28) 1 = 2 ^ 28 + 1
  /\ meter_bar_defined false 1 (2 ^ 28) 1 = false
  /\ (let st := fresh (bar_params true 1) in
      let tq1 := advanced (fst st) (snd st) (2 ^ 40) in
      closed (snd st) = false /\ disable (params (snd st)) = false
      /\ n tq1 = 2 ^ 40 /\ total (params tq1) = 1
      /\ is_complete tq1 = true
      /\ count_gate tq1
         && time_gate (clock (fst st) (Datatypes.S (ticks (fst st)))) tq1
         = true
      /\ bar_defined (ascii (params tq1)) (n tq1) (total (params tq1))
         = false).
Proof.
  assert (Q : forall (k : Z) (rate : double),
            (k <? 1) = false -> meter_remaining_str k 1 rate = "?").
  { intros k rate H. unfold meter_remaining_str, remaining_estimate.
    rewrite H, andb_false_r. reflexivity. }
  split; [intros rate; apply Q; reflexivity|].
  do 4 (split; [vm_compute; reflexivity|]).
  split; [intros rate; apply Q; reflexivity|].
  do 4 (split; [vm_compute; reflexivity|]).
  cbv zeta. do 6 (split; [vm_compute; reflexivity|]).
  vm_compute. reflexivity.
Qed.

(** ** The bar *)

Lemma append_nil_r (s : string) : s ++ "" = s.
Proof. induction s as [|ch s IH]; cbn; [reflexivity | rewrite IH; reflexivity]. Qed.

(** In glyph mode a count equal to the total fills every cell, as long as
    [n * 8 * bar_width] does not pass the range of [size_t]. *)
Lemma glyph_bar_full (W total : Z) :
  1 <= W <= 100 -> 0 < total -> 8 * W * total < 2 ^ 64 ->
  glyph_bar W total total = repeat_str (unicode_block 8) (Z.to_nat W).
Proof.
  intros HW Ht Hb. unfold glyph_bar.
  assert (Et : (total >? 0) = true) by (apply Z.gtb_lt; lia).
  rewrite Et. cbn [andb].
  assert (Ep : CInt.to_int (CInt.to_size (total * 8 * W) / total) = 8 * W).
  { unfold CInt.to_size. rewrite Z.mod_small by lia.
    replace (total * 8 * W) with (8 * W * total) by lia.
    rewrite Z.div_mul by lia.
    unfold CInt.to_int. rewrite Z.mod_small by lia. lia. }
  rewrite Ep.
  replace (Z.quot (8 * W) 8) with W
    by (rewrite Z.mul_comm; symmetry; apply Z.quot_mul; lia).
  replace (Z.rem (8 * W) 8) with 0
    by (rewrite Z.mul_comm; symmetry; apply Z.rem_mul; lia).
  rewrite Z.gtb_ltb, Z.ltb_irrefl. rewrite Z.min_id, Z.ltb_irrefl.
  cbn [andb]. rewrite Z.sub_diag. cbn [Z.to_nat repeat_str].
  rewrite !append_nil_r. reflexivity.
Qed.

(** In glyph mode an unknown total gives a bar of empty cells. *)
Lemma glyph_bar_unknown_total (W n : Z) :
  glyph_bar W n 0 = repeat_str " " (Z.to_nat W).
Proof. reflexivity. Qed.

(** In ASCII mode a count equal to the total fills every cell for the
    widths 1 .. 100 and the totals 1 .. 100. *)
Example ascii_bar_full_small :
  forallb
    (fun W =>
       forallb
         (fun t =>
            String.eqb (ascii_bar (Z.of_nat W) (Z.of_nat t) (Z.of_nat t))
              (repeat_str "#" W))
         (seq 1 100))
    (seq 1 100) = true.
Proof. vm_compute. reflexivity. Qed.

(** C8 (the code against the claim).  With [n = total] the bar is not
    always full.  In ASCII mode the fill is [(int) (width * n / total)] in
    doubles: at 53 columns (a bar of 3 cells) and [n = total = 2^52 - 1]
    the product rounds down, the quotient is below 3 and the bar is
    ["## "].  In glyph mode [n * 8 * width] wraps in [size_t]: at
    [n = total = 2^61] it is 0 and the bar is three empty cells.  The
    engine writes these lines when an instance reaches such a total. *)
Theorem full_bar_lost_at_large_totals :
  meter_bar_width 53 None None = 3
  /\ ascii_filled 3 (2 ^ 52 - 1) (2 ^ 52 - 1) = 2
  /\ meter_bar true 3 (2 ^ 52 - 1) (2 ^ 52 - 1) = "## "
  /\ tqdm_format_meter (2 ^ 52 - 1) (2 ^ 52 - 1) (Double.of_Z 2) 53 None
       true (Some "it") false (Double.of_Z 1000) None None 1000 0 None
     = "100%|## | 4503600b/4503600b [00:02<?, 1.00kit/s]"
  /\ CInt.to_size (2 ^ 61 * 8 * 3) = 0
  /\ meter_bar false 3 (2 ^ 61) (2 ^ 61) = "   "
  /\ tqdm_format_meter (2 ^ 61) (2 ^ 61) (Double.of_Z 2) 53 None
       false (Some "it") false (Double.of_Z 1000) None None 1000 0 None
     = "100%|   | 2305843009b/2305843009b [00:02<?, 1.00kit/s]"
  /\ written (fst (run (fresh (bar_params true (2 ^ 52 - 1)))
                     [SetTo (2 ^ 52 - 1)]))
     = [CR ++ "100%|## | 4503600b/4503600b [00:01<?, 3002400bit/s]"]
  /\ written (fst (run (fresh (bar_params false (2 ^ 61)))
                     [Advance (2 ^ 61)]))
     = [CR ++ "100%|   | 2305843009b/2305843009b [00:01<?, 1537228673bit/s]"].
Proof. vm_compute. repeat split; reflexivity. Qed.

(** ** The scaling formatter *)




(** * Further properties of the engine *)

(** ** Counting *)

Lemma update_n_open (w : world) (tq : tqdm_t) (delta : Z) :
  closed tq = false -> disable (params tq) = false ->
  let tq' := snd (tqdm_update_n w tq delta) in
  n tq' = CInt.to_size (n tq + delta)
  /\ count tq' = count tq
  /\ closed tq' = false
  /\ disable (params tq') = false.
Proof.
  intros Hc Hd. cbv zeta.
  rewrite (update_n_unfold w tq delta Hc Hd). cbv zeta.
  pose proof (dynamic_miniters_frame w
                (set_n (CInt.to_size (n tq + delta)) tq)) as F.
  cbv zeta in F. fold (advanced w tq delta) in F.
  destruct F as (_ & _ & _ & _ & Fn & Fk & Fcl & _ & _ & _ & Fd & _).
  cbn [set_n set_counters n count closed params] in Fn, Fk, Fcl, Fd.
  destruct (_ && _).
  - destruct (print_progress_counters
                (snd (current_time_seconds
                        (fst (tqdm_update_dynamic_miniters w
                                (set_n (CInt.to_size (n tq + delta)) tq)))))
                (advanced w tq delta)) as (Pn & Pk & Pc).
    rewrite Pn, Pk, Pc, print_progress_params.
    repeat split; congruence.
  - cbn [snd]. repeat split; congruence.
Qed.

Lemma to_size_add_l (a b : Z) :
  CInt.to_size (CInt.to_size a + b) = CInt.to_size (a + b).
Proof. unfold CInt.to_size. apply Z.add_mod_idemp_l. lia. Qed.

(** X1.  On an open, enabled instance a sequence of advances leaves the
    count at the start value plus the sum of the deltas (modulo 2^64),
    whatever the clock says and however many of the advances rendered; the
    instance stays open and enabled. *)
Theorem advances_add_up (deltas : list Z) (w : world) (tq : tqdm_t) :
  closed tq = false -> disable (params tq) = false ->
  CInt.is_size (n tq) ->
  let st := run (w, tq) (map Advance deltas) in
  n (snd st) = CInt.to_size (n tq + sum_of deltas)
  /\ closed (snd st) = false
  /\ disable (params (snd st)) = false.
Proof.
  cbv zeta. unfold run. revert w tq.
  induction deltas as [|d ds IH]; intros w tq Hc Hd Hn.
  - cbn. rewrite Z.add_0_r. unfold CInt.to_size.
    unfold CInt.is_size, CInt.SIZE_T_MAX in Hn.
    rewrite Z.mod_small by lia. auto.
  - cbn [map fold_left step sum_of fold_right].
    destruct (update_n_open w tq d Hc Hd) as (En & _ & Ec & Ed).
    destruct (tqdm_update_n w tq d) as [w1 tq1]. cbn [snd] in *.
    assert (Hn1 : CInt.is_size (n tq1)).
    { rewrite En. unfold CInt.is_size, CInt.SIZE_T_MAX, CInt.to_size.
      pose proof (Z.mod_pos_bound (n tq + d) (2 ^ 64)). lia. }
    destruct (IH w1 tq1 Ec Ed Hn1) as (In & Ic & Id).
    split; [|auto].
    rewrite In, En, to_size_add_l. f_equal. unfold sum_of. lia.
Qed.

(** Three advances, by 2, 3 and 5, of a fresh instance. *)
Lemma advances_add_up_witness :
  closed (snd (fresh one_second_params)) = false
  /\ disable (params (snd (fresh one_second_params))) = false
  /\ CInt.is_size (n (snd (fresh one_second_params)))
  /\ n (snd (run (fresh one_second_params) (map Advance [2; 3; 5]))) = 10.
Proof.
  assert (H0 : CInt.is_size (n (snd (fresh one_second_params))))
    by (unfold CInt.is_size, CInt.SIZE_T_MAX; cbn; lia).
  split; [reflexivity|]. split; [reflexivity|]. split; [exact H0|].
  exact (proj1 (advances_add_up [2; 3; 5] (fst (fresh one_second_params))
                  (snd (fresh one_second_params)) eq_refl eq_refl H0)).
Defined.

(** ** Closing *)

Lemma print_progress_closed (w : world) (tq : tqdm_t) :
  closed tq = true -> tqdm_print_progress w tq = (w, tq).
Proof.
  intros H. unfold tqdm_print_progress. rewrite H, orb_true_r. reflexivity.
Qed.

Lemma step_closed (st : world * tqdm_t) (o : operation) :
  closed (snd st) = true ->
  written (fst (step st o)) = written (fst st)
  /\ closed (snd (step st o)) = true.
Proof.
  destruct st as [w tq]. cbn [fst snd]. intros Hc.
  destruct o as [delta|value|new_total| | | |text refresh|text refresh];
    cbn [step].
  - rewrite update_n_closed_or_disabled by (rewrite Hc; reflexivity). auto.
  - rewrite update_to_closed_or_disabled by (rewrite Hc; reflexivity). auto.
  - unfold tqdm_reset. cbn [current_time_seconds].
    destruct (new_total >? 0); cbn; auto.
  - unfold tqdm_refresh. rewrite Hc. cbn. auto.
  - unfold tqdm_unpause. destruct (negb (paused tq)); cbn; auto.
  - unfold tqdm_close. rewrite Hc. auto.
  - unfold tqdm_set_description_str. destruct refresh; [|cbn; auto].
    rewrite print_progress_closed by exact Hc. cbn. auto.
  - unfold tqdm_set_postfix_str, tqdm_refresh.
    destruct refresh; [|cbn; auto].
    cbn [closed params disable set_params set_postfix].
    rewrite Hc. cbn. auto.
Qed.

(** X2.  A closed instance stays closed and silent: whatever operations
    follow (advance, set-to, reset, refresh, unpause, close, a new
    description or postfix with or without refresh), nothing more is
    written and the instance is not reopened. *)
Theorem closed_is_final (ops : list operation) (st : world * tqdm_t) :
  closed (snd st) = true ->
  written (fst (run st ops)) = written (fst st)
  /\ closed (snd (run st ops)) = true.
Proof.
  revert st. unfold run.
  induction ops as [|o ops IH]; intros st Hc; cbn [fold_left].
  - auto.
  - destruct (step_closed st o Hc) as [Hw Hc'].
    destruct (IH (step st o) Hc') as [Iw Ic].
    rewrite Iw. auto.
Qed.

Lemma closed_is_final_witness :
  closed (snd closed_at_five) = true
  /\ written (fst (run closed_at_five
                     [Advance 5; Refresh; ResetTo 3; Advance 1;
                      Describe (Some "again") true; Close]))
     = written (fst closed_at_five).
Proof.
  split; [reflexivity|].
  exact (proj1 (closed_is_final
                  [Advance 5; Refresh; ResetTo 3; Advance 1;
                   Describe (Some "again") true; Close]
                  closed_at_five eq_refl)).
Defined.



(** ** Completion and the result of set-to *)

(** X4.  An advance that brings the count to the total or past it passes
    both gates, whatever the threshold, the minimum interval and the
    clock, and so does every later advance while the count stays there:
    completion switches the throttle off.  Where the bar of the new count
    stays within its buffer ([bar_defined]; a count far above the total
    can leave it, and then the program is not described), the line is
    written and the count recorded as the last rendered one. *)
Theorem completion_always_renders (w : world) (tq : tqdm_t) (delta : Z) :
  closed tq = false -> disable (params tq) = false ->
  0 < total (params tq) ->
  total (params tq) <= CInt.to_size (n tq + delta) ->
  bar_defined (ascii (params tq)) (CInt.to_size (n tq + delta))
    (total (params tq)) = true ->
  let w' := fst (tqdm_update_n w tq delta) in
  let tq' := snd (tqdm_update_n w tq delta) in
  count_gate (advanced w tq delta)
  && time_gate (clock w (Datatypes.S (ticks w))) (advanced w tq delta)
  = true
  /\ rendered w w'
  /\ last_print_count tq' = CInt.to_size (n tq + delta)
  /\ n tq' = CInt.to_size (n tq + delta).
Proof.
  intros Hc Hd Ht Hn _. cbv zeta.
  rewrite (update_n_unfold w tq delta Hc Hd). cbv zeta.
  pose proof (dynamic_miniters_frame w
                (set_n (CInt.to_size (n tq + delta)) tq)) as F.
  cbv zeta in F. fold (advanced w tq delta) in F.
  destruct F as (Fw & _ & _ & _ & Fn & _ & Fcl & _ & _ & Ftot & Fd & _).
  cbn [set_n set_counters n closed params] in Fn, Fcl, Ftot, Fd.
  assert (Hcomp : is_complete (advanced w tq delta) = true).
  { unfold is_complete. rewrite Ftot, Fn.
    apply andb_true_intro. split; [apply Z.gtb_lt; lia | apply Z.geb_le; lia]. }
  unfold count_gate, time_gate. rewrite Hcomp. cbn [orb andb].
  split; [reflexivity|].
  destruct (print_progress_renders
              (snd (current_time_seconds
                      (fst (tqdm_update_dynamic_miniters w
                              (set_n (CInt.to_size (n tq + delta)) tq)))))
              (advanced w tq delta)) as ((line & Hl) & _ & Hk);
    [congruence | congruence |].
  destruct (print_progress_counters
              (snd (current_time_seconds
                      (fst (tqdm_update_dynamic_miniters w
                              (set_n (CInt.to_size (n tq + delta)) tq)))))
              (advanced w tq delta)) as (Pn & _).
  split; [|split].
  - exists line. rewrite Hl. cbn [current_time_seconds snd written].
    rewrite Fw. reflexivity.
  - rewrite Hk. exact Fn.
  - rewrite Pn. exact Fn.
Qed.

(** With a total of 3 and a threshold of 1000 the first two advances by
    1 are held back; the third completes the instance and is written. *)
Lemma completion_always_renders_witness :
  closed (snd nearly_complete) = false
  /\ disable (params (snd nearly_complete)) = false
  /\ 0 < total (params (snd nearly_complete))
  /\ total (params (snd nearly_complete))
     <= CInt.to_size (n (snd nearly_complete) + 1)
  /\ bar_defined (ascii (params (snd nearly_complete)))
       (CInt.to_size (n (snd nearly_complete) + 1))
       (total (params (snd nearly_complete))) = true
  /\ written (fst nearly_complete) = []
  /\ rendered (fst nearly_complete)
       (fst (tqdm_update_n (fst nearly_complete) (snd nearly_complete) 1)).
Proof.
  assert (H1 : 0 < total (params (snd nearly_complete)))
    by (vm_compute; reflexivity).
  assert (H2 : total (params (snd nearly_complete))
               <= CInt.to_size (n (snd nearly_complete) + 1))
    by (vm_compute; discriminate).
  assert (H3 : bar_defined (ascii (params (snd nearly_complete)))
                 (CInt.to_size (n (snd nearly_complete) + 1))
                 (total (params (snd nearly_complete))) = true)
    by (vm_compute; reflexivity).
  split; [reflexivity|]. split; [reflexivity|].
  split; [exact H1|]. split; [exact H2|]. split; [exact H3|].
  split; [vm_compute; reflexivity|].
  exact (proj1 (proj2 (completion_always_renders (fst nearly_complete)
                         (snd nearly_complete) 1 eq_refl eq_refl H1 H2
                         H3))).
Defined.

(** X5.  On an open, enabled instance the result of [tqdm_update_to]
    tells whether a line was written: it is true exactly when the output
    grew by one line. *)
Theorem update_to_reports_render (w : world) (tq : tqdm_t) (value : Z) :
  closed tq = false -> disable (params tq) = false ->
  let r := tqdm_update_to w tq value in
  (fst (fst r) = true <-> rendered w (snd (fst r)))
  /\ (fst (fst r) = false -> written (snd (fst r)) = written w).
Proof.
  intros Hc Hd. cbv zeta.
  rewrite (update_to_unfold w tq value Hc Hd). cbv zeta. cbn [fst snd].
  pose proof (dynamic_miniters_frame w (set_n value tq)) as F.
  cbv zeta in F.
  destruct F as (Fw & _ & _ & _ & _ & _ & Fcl & _ & _ & _ & Fd & _).
  cbn [set_n set_counters closed params] in Fcl, Fd.
  destruct (should_print_of _ _ _).
  - destruct (print_progress_renders
                (snd (current_time_seconds
                        (fst (tqdm_update_dynamic_miniters w
                                (set_n value tq)))))
                (snd (tqdm_update_dynamic_miniters w (set_n value tq))))
      as ((line & Hl) & _); [congruence | congruence |].
    split; [|discriminate].
    split; [intros _|reflexivity].
    exists line. rewrite Hl. cbn [current_time_seconds snd written].
    rewrite Fw. reflexivity.
  - cbn [fst snd current_time_seconds written].
    split; [|intros _; exact Fw].
    split; [discriminate|].
    intros R. exfalso. revert R. apply not_rendered_same. exact Fw.
Qed.

Lemma update_to_reports_render_witness :
  let w := fst (fresh (set_total 10 one_second_params)) in
  let tq := snd (fresh (set_total 10 one_second_params)) in
  closed tq = false /\ disable (params tq) = false
  /\ fst (fst (tqdm_update_to w tq 10)) = true
  /\ rendered w (snd (fst (tqdm_update_to w tq 10))).
Proof.
  cbv zeta. split; [reflexivity|]. split; [reflexivity|].
  split; [vm_compute; reflexivity|].
  apply (proj1 (update_to_reports_render
                  (fst (fresh (set_total 10 one_second_params)))
                  (snd (fresh (set_total 10 one_second_params))) 10
                  eq_refl eq_refl)).
  vm_compute. reflexivity.
Defined.

(** ** Pull-next on a wrapped array *)

Lemma print_progress_array (w : world) (tq : tqdm_t) :
  current (snd (tqdm_print_progress w tq)) = current tq
  /\ end_ (snd (tqdm_print_progress w tq)) = end_ tq
  /\ element_size (snd (tqdm_print_progress w tq)) = element_size tq
  /\ iterator_mode (snd (tqdm_print_progress w tq)) = iterator_mode tq.
Proof. render_cases. Qed.

Lemma dynamic_miniters_array (w : world) (tq : tqdm_t) :
  let r := tqdm_update_dynamic_miniters w tq in
  current (snd r) = current tq
  /\ end_ (snd r) = end_ tq
  /\ element_size (snd r) = element_size tq
  /\ iterator_mode (snd r) = iterator_mode tq.
Proof. adapt_cases; repeat split; reflexivity. Qed.

(** Has-more on an open instance without adapter does not touch the
    adapter state. *)
Lemma has_next_array (S : Type) (has_next_func : S -> bool * S) (it : S)
  (tq : tqdm_t) :
  iterator_mode tq = false ->
  snd (tqdm_has_next has_next_func it tq) = it.
Proof.
  intros Hi. unfold tqdm_has_next. rewrite Hi.
  destruct (closed tq); [reflexivity|].
  destruct (negb (end_ tq =? 0)); [reflexivity|].
  destruct (total (params tq) >? 0); reflexivity.
Qed.

(** One pull on an instance without adapter that has more. *)
Lemma next_array_fields (S : Type) (next_func : S -> Z * S)
  (has_next_func : S -> bool * S) (w : world) (it : S) (tq : tqdm_t) :
  iterator_mode tq = false ->
  fst (tqdm_has_next has_next_func it tq) = true ->
  let r := tqdm_next next_func has_next_func w it tq in
  let tq' := snd r in
  fst (fst (fst r)) = current tq
  /\ snd (fst r) = it
  /\ current tq' = CInt.to_size (current tq + element_size tq)
  /\ n tq' = CInt.to_size (n tq + 1)
  /\ count tq' = CInt.to_size (count tq + 1)
  /\ end_ tq' = end_ tq
  /\ element_size tq' = element_size tq
  /\ closed tq' = closed tq
  /\ iterator_mode tq' = false
  /\ disable (params tq') = disable (params tq)
  /\ total (params tq') = total (params tq)
  /\ (disable (params tq) = true ->
      written (snd (fst (fst r))) = written w).
Proof.
  intros Hi Hm. cbv zeta. unfold tqdm_next.
  pose proof (has_next_array S has_next_func it tq Hi) as Hit.
  destruct (tqdm_has_next has_next_func it tq) as [more it1].
  cbn [fst snd] in Hm, Hit. subst more it1. cbn [negb]. rewrite Hi.
  set (tq0 := set_counters (CInt.to_size (n (set_current
                 (CInt.to_size (current tq + element_size tq)) tq) + 1))
                (CInt.to_size (count (set_current
                 (CInt.to_size (current tq + element_size tq)) tq) + 1))
                (set_current (CInt.to_size (current tq + element_size tq))
                   tq)).
  pose proof (dynamic_miniters_frame w tq0) as F.
  pose proof (dynamic_miniters_array w tq0) as A.
  cbv zeta in F, A.
  destruct (tqdm_update_dynamic_miniters w tq0) as [w1 tq1].
  cbn [fst snd] in F, A.
  destruct F as (Fw & _ & _ & _ & Fn & Fk & Fcl & _ & _ & Ftot & Fd & _).
  destruct A as (Ac & Ae & As & Am).
  unfold tq0 in Fn, Fk, Fcl, Ftot, Fd, Ac, Ae, As, Am.
  cbn [set_counters set_current current end_ element_size n count closed
       iterator_mode params] in Fn, Fk, Fcl, Ftot, Fd, Ac, Ae, As, Am.
  clearbody tq0.
  cbn [current_time_seconds].
  set (w2 := {| clock := clock w1; ticks := Datatypes.S (ticks w1);
                ws_col := ws_col w1; written := written w1 |}).
  destruct (should_print_of tq1 _ _ && negb (disable (params tq1))) eqn:G.
  - destruct (print_progress_counters w2 tq1) as (Pn & Pk & Pc).
    destruct (print_progress_array w2 tq1) as (Qc & Qe & Qs & Qm).
    pose proof (print_progress_params w2 tq1) as Pp.
    destruct (tqdm_print_progress w2 tq1) as [w3 tq3]. cbn [fst snd] in *.
    rewrite Qc, Qe, Qs, Qm, Pn, Pk, Pc, Pp.
    repeat split; try congruence.
    intros Hd. apply andb_prop in G as [_ G].
    rewrite Fd, Hd in G. discriminate G.
  - cbn [fst snd]. repeat split; try congruence.
    intros _. exact Fw.
Qed.

Lemma seq_addresses (b es : Z) (k : nat) :
  (b :: map (fun i => b + es + Z.of_nat i * es) (seq 0 k))%list
  = map (fun i => b + Z.of_nat i * es) (seq 0 (Datatypes.S k)).
Proof.
  cbn [seq map]. rewrite <- seq_shift, map_map. f_equal; [cbn; lia|].
  apply map_ext. intros i. lia.
Qed.

Lemma to_size_small (z : Z) : CInt.is_size z -> CInt.to_size z = z.
Proof.
  unfold CInt.is_size, CInt.SIZE_T_MAX, CInt.to_size. intros H.
  apply Z.mod_small. lia.
Qed.

Lemma to_size_is_size (z : Z) : CInt.is_size (CInt.to_size z).
Proof.
  unfold CInt.is_size, CInt.SIZE_T_MAX, CInt.to_size.
  pose proof (Z.mod_pos_bound z (2 ^ 64)). lia.
Qed.

(** Pulling until has-more is false, on an instance that wraps the [k]
    elements left of an array. *)
Lemma pull_each_array (k : nat) :
  forall (fuel : nat) (w : world) (tq : tqdm_t),
  (k <= fuel)%nat ->
  closed tq = false -> iterator_mode tq = false ->
  0 < element_size tq -> 0 < current tq ->
  end_ tq = current tq + Z.of_nat k * element_size tq ->
  end_ tq <= CInt.SIZE_T_MAX ->
  CInt.is_size (n tq) -> CInt.is_size (count tq) ->
  let r := pull_each fuel w tq in
  fst (fst r)
  = map (fun i => current tq + Z.of_nat i * element_size tq) (seq 0 k)
  /\ n (snd r) = CInt.to_size (n tq + Z.of_nat k)
  /\ count (snd r) = CInt.to_size (count tq + Z.of_nat k)
  /\ current (snd r) = end_ tq
  /\ end_ (snd r) = end_ tq
  /\ closed (snd r) = false
  /\ iterator_mode (snd r) = false
  /\ total (params (snd r)) = total (params tq).
Proof.
  induction k as [|k IH]; intros fuel w tq Hf Hc Hi Hes Hcur He Hmax Hn Hk;
    cbv zeta.
  - assert (Hm : fst (tqdm_has_next no_adapter_has_next tt tq) = false).
    { unfold tqdm_has_next. rewrite Hc, Hi.
      replace (end_ tq =? 0) with false by (symmetry; apply Z.eqb_neq; lia).
      cbn [negb fst]. apply Z.ltb_ge. lia. }
    assert (Hr : pull_each fuel w tq = ([], w, tq)).
    { destruct fuel as [|fuel]; cbn [pull_each]; [reflexivity|].
      rewrite Hm. reflexivity. }
    rewrite Hr. cbn [fst snd seq map].
    rewrite !Z.add_0_r, !to_size_small by assumption.
    repeat split; try assumption; try reflexivity. lia.
  - destruct fuel as [|fuel]; [lia|].
    assert (Hm : fst (tqdm_has_next no_adapter_has_next tt tq) = true).
    { unfold tqdm_has_next. rewrite Hc, Hi.
      replace (end_ tq =? 0) with false by (symmetry; apply Z.eqb_neq; lia).
      cbn [negb fst]. apply Z.ltb_lt. nia. }
    cbn [pull_each]. rewrite Hm.
    pose proof (next_array_fields unit no_adapter_next no_adapter_has_next
                  w tt tq Hi Hm) as N. cbv zeta in N.
    destruct (tqdm_next no_adapter_next no_adapter_has_next w tt tq)
      as [[[r w1] it1] tq1]. cbn [fst snd] in N.
    destruct N as (Nr & _ & Ncur & Nn & Nk & Ne & Nes & Ncl & Nm & _
                   & Ntot & _).
    assert (Hstep : CInt.to_size (current tq + element_size tq)
                    = current tq + element_size tq).
    { apply to_size_small. unfold CInt.is_size. nia. }
    rewrite Hstep in Ncur.
    assert (Hf' : (k <= fuel)%nat) by lia.
    assert (Hc1 : closed tq1 = false) by congruence.
    assert (Hes1 : 0 < element_size tq1) by lia.
    assert (Hcur1 : 0 < current tq1) by lia.
    assert (He1 : end_ tq1 = current tq1 + Z.of_nat k * element_size tq1)
      by (rewrite Ne, Ncur, Nes, He; lia).
    assert (Hmax1 : end_ tq1 <= CInt.SIZE_T_MAX) by lia.
    assert (Hn1 : CInt.is_size (n tq1))
      by (rewrite Nn; apply to_size_is_size).
    assert (Hk1 : CInt.is_size (count tq1))
      by (rewrite Nk; apply to_size_is_size).
    pose proof (IH fuel w1 tq1 Hf' Hc1 Nm Hes1 Hcur1 He1 Hmax1 Hn1 Hk1)
      as R. cbv zeta in R.
    destruct (pull_each fuel w1 tq1) as [[rs w2] tq2]. cbn [fst snd] in *.
    destruct R as (Rr & Rn & Rk & Rcur & Re & Rcl & Rm & Rtot).
    split.
    { rewrite Rr, Nr, Ncur, Nes. apply seq_addresses. }
    split.
    { rewrite Rn, Nn, to_size_add_l. f_equal. lia. }
    split.
    { rewrite Rk, Nk, to_size_add_l. f_equal. lia. }
    repeat split; congruence.
Qed.

(** X6.  An instance created over an array of [len] elements of [es]
    bytes at [begin] hands out the addresses [begin], [begin + es], ... in
    order, one per pull, and then has no more: the count has grown by
    [len], [len] pulls are recorded, and when the caller gave no total the
    total is [len]. *)
Theorem array_is_walked_once (env : environment) (w : world)
  (begin es : Z) (p : tqdm_params_t) (len fuel : nat) :
  0 < begin -> 0 < es ->
  begin + Z.of_nat len * es <= CInt.SIZE_T_MAX ->
  CInt.is_size (initial p) -> (len <= fuel)%nat ->
  let st :=
    tqdm_create_with_params env w begin (begin + Z.of_nat len * es) es p in
  let r := pull_each fuel (fst st) (snd st) in
  fst (fst r) = map (fun i => begin + Z.of_nat i * es) (seq 0 len)
  /\ n (snd r) = CInt.to_size (initial p + Z.of_nat len)
  /\ count (snd r) = Z.of_nat len
  /\ fst (tqdm_has_next no_adapter_has_next tt (snd r)) = false
  /\ (total p = 0 -> total (params (snd r)) = Z.of_nat len).
Proof.
  intros Hb Hes Hmax Hini Hf. cbv zeta.
  set (st := tqdm_create_with_params env w begin
               (begin + Z.of_nat len * es) es p).
  assert (Sini : n (snd st) = initial p).
  { unfold st, tqdm_create_with_params. cbn [current_time_seconds snd n].
    match goal with |- initial (if ?c then _ else _) = _ => destruct c end;
      reflexivity. }
  assert (Stot : total p = 0 -> total (params (snd st)) = Z.of_nat len).
  { intros Ht. unfold st, tqdm_create_with_params.
    cbn [current_time_seconds snd params].
    replace (total (clamp_params (tqdm_load_env_vars env p)))
      with 0 by (symmetry; exact Ht).
    replace (begin =? 0) with false by (symmetry; apply Z.eqb_neq; lia).
    replace (begin + Z.of_nat len * es =? 0) with false
      by (symmetry; apply Z.eqb_neq; nia).
    replace (es >? 0) with true by (symmetry; apply Z.gtb_lt; lia).
    cbn [Z.eqb andb negb set_total total].
    replace (begin + Z.of_nat len * es - begin) with (Z.of_nat len * es)
      by lia.
    rewrite to_size_small by (unfold CInt.is_size; nia).
    apply Z.div_mul. lia. }
  assert (Hn0 : CInt.is_size (n (snd st))) by (rewrite Sini; exact Hini).
  assert (Hk0 : CInt.is_size (count (snd st)))
    by (unfold CInt.is_size, CInt.SIZE_T_MAX; cbn; lia).
  pose proof (pull_each_array len fuel (fst st) (snd st) Hf eq_refl eq_refl
                Hes Hb eq_refl Hmax Hn0 Hk0) as R.
  cbv zeta in R.
  destruct (pull_each fuel (fst st) (snd st)) as [[rs w2] tq2].
  cbn [fst snd] in *.
  destruct R as (Rr & Rn & Rk & Rcur & Re & Rcl & Rm & Rtot).
  split; [exact Rr|]. split; [rewrite Rn, Sini; reflexivity|].
  split.
  { rewrite Rk. change (count (snd st)) with 0. rewrite Z.add_0_l.
    apply to_size_small. unfold CInt.is_size, CInt.SIZE_T_MAX in *. nia. }
  split.
  { unfold tqdm_has_next. rewrite Rcl, Rm, Re, Rcur.
    change (end_ (snd st)) with (begin + Z.of_nat len * es).
    replace (begin + Z.of_nat len * es =? 0) with false
      by (symmetry; apply Z.eqb_neq; nia).
    cbn [negb fst]. apply Z.ltb_irrefl. }
  intros Ht. rewrite Rtot. exact (Stot Ht).
Qed.

(** The array of three 4-byte elements at address 1000. *)
Lemma array_is_walked_once_witness :
  0 < 1000 /\ 0 < 4 /\ 1000 + Z.of_nat 3 * 4 <= CInt.SIZE_T_MAX
  /\ CInt.is_size (initial tqdm_default_params) /\ (3 <= 5)%nat
  /\ fst (fst (pull_each 5
       (fst (tqdm_create_with_params empty_environment half_second_world
               1000 (1000 + Z.of_nat 3 * 4) 4 tqdm_default_params))
       (snd (tqdm_create_with_params empty_environment half_second_world
               1000 (1000 + Z.of_nat 3 * 4) 4 tqdm_default_params))))
     = [1000; 1004; 1008].
Proof.
  assert (H1 : 0 < 1000) by lia.
  assert (H2 : 0 < 4) by lia.
  assert (H3 : 1000 + Z.of_nat 3 * 4 <= CInt.SIZE_T_MAX)
    by (vm_compute; discriminate).
  assert (H4 : CInt.is_size (initial tqdm_default_params))
    by (unfold CInt.is_size, CInt.SIZE_T_MAX; cbn; lia).
  assert (H5 : (3 <= 5)%nat) by lia.
  do 5 (split; [assumption|]).
  exact (proj1 (array_is_walked_once empty_environment half_second_world
                  1000 4 tqdm_default_params 3 5 H1 H2 H3 H4 H5)).
Defined.

(** X7.  On an enabled instance without adapter that has more, one pull
    is the move to the next element, one more recorded pull, and then
    exactly an advance by 1: same output, same instance. *)
Theorem next_is_advance_by_one (S : Type) (next_func : S -> Z * S)
  (has_next_func : S -> bool * S) (w : world) (it : S) (tq : tqdm_t) :
  disable (params tq) = false -> iterator_mode tq = false ->
  fst (tqdm_has_next has_next_func it tq) = true ->
  let moved :=
    set_counters (n tq) (CInt.to_size (count tq + 1))
      (set_current (CInt.to_size (current tq + element_size tq)) tq) in
  tqdm_next next_func has_next_func w it tq
  = (current tq, fst (tqdm_update_n w moved 1), it,
     snd (tqdm_update_n w moved 1)).
Proof.
  intros Hd Hi Hm. cbv zeta.
  assert (Hc : closed tq = false).
  { unfold tqdm_has_next in Hm. destruct (closed tq); [discriminate Hm|].
    reflexivity. }
  unfold tqdm_next.
  pose proof (has_next_array S has_next_func it tq Hi) as Hit.
  destruct (tqdm_has_next has_next_func it tq) as [more it1].
  cbn [fst snd] in Hm, Hit. subst more it1. cbn [negb]. rewrite Hi.
  unfold tqdm_update_n.
  cbn [set_counters set_current closed params n count].
  rewrite Hc, Hd. cbn [orb].
  change (set_n (CInt.to_size (n tq + 1))
            (set_counters (n tq) (CInt.to_size (count tq + 1))
               (set_current (CInt.to_size (current tq + element_size tq))
                  tq)))
    with (set_counters (CInt.to_size (n tq + 1))
            (CInt.to_size (count tq + 1))
            (set_current (CInt.to_size (current tq + element_size tq)) tq)).
  match goal with
  | |- context [tqdm_update_dynamic_miniters w ?t] =>
      pose proof (dynamic_miniters_frame w t) as F;
      destruct (tqdm_update_dynamic_miniters w t) as [w1 tq1]
  end.
  cbv zeta in F. cbn [fst snd params set_counters set_current] in F.
  destruct F as (_ & _ & _ & _ & _ & _ & _ & _ & _ & _ & Fd & _).
  rewrite Fd, Hd. cbn [negb current_time_seconds].
  rewrite andb_true_r.
  match goal with
  | |- context [if ?c then _ else _] => destruct c
  end.
  - destruct (tqdm_print_progress _ tq1) as [w3 tq3]. reflexivity.
  - reflexivity.
Qed.

(** The first pull on the array of three elements. *)
Lemma next_is_advance_by_one_witness :
  let tq :=
    snd (tqdm_create_with_params empty_environment half_second_world
           1000 1012 4 tqdm_default_params) in
  disable (params tq) = false /\ iterator_mode tq = false
  /\ fst (tqdm_has_next no_adapter_has_next tt tq) = true
  /\ fst (fst (fst (tqdm_next no_adapter_next no_adapter_has_next
                      half_second_world tt tq))) = 1000.
Proof.
  cbv zeta.
  split; [reflexivity|]. split; [reflexivity|]. split; [reflexivity|].
  rewrite (next_is_advance_by_one unit no_adapter_next no_adapter_has_next
             half_second_world tt
             (snd (tqdm_create_with_params empty_environment
                     half_second_world 1000 1012 4 tqdm_default_params))
             eq_refl eq_refl eq_refl).
  reflexivity.
Defined.

(** X8.  A disabled instance still counts its pulls: one pull on a
    disabled instance without adapter that has more moves to the next
    element and adds 1 to the count and to the pulls recorded, writing
    nothing; an advance by 1 of the same instance changes nothing. *)
Theorem next_counts_when_disabled (S : Type) (next_func : S -> Z * S)
  (has_next_func : S -> bool * S) (w : world) (it : S) (tq : tqdm_t) :
  disable (params tq) = true -> iterator_mode tq = false ->
  fst (tqdm_has_next has_next_func it tq) = true ->
  let r := tqdm_next next_func has_next_func w it tq in
  fst (fst (fst r)) = current tq
  /\ n (snd r) = CInt.to_size (n tq + 1)
  /\ count (snd r) = CInt.to_size (count tq + 1)
  /\ current (snd r) = CInt.to_size (current tq + element_size tq)
  /\ written (snd (fst (fst r))) = written w
  /\ tqdm_update_n w tq 1 = (w, tq).
Proof.
  intros Hd Hi Hm. cbv zeta.
  destruct (next_array_fields S next_func has_next_func w it tq Hi Hm)
    as (Nr & _ & Ncur & Nn & Nk & _ & _ & _ & _ & _ & _ & Nw).
  repeat split; try assumption.
  - apply Nw. exact Hd.
  - apply update_n_closed_or_disabled. rewrite Hd. apply orb_true_r.
Qed.

(** A disabled instance over the array of three elements. *)
Lemma next_counts_when_disabled_witness :
  let tq :=
    snd (tqdm_create_with_params empty_environment half_second_world
           1000 1012 4 disabled_params) in
  disable (params tq) = true /\ iterator_mode tq = false
  /\ fst (tqdm_has_next no_adapter_has_next tt tq) = true
  /\ n (snd (tqdm_next no_adapter_next no_adapter_has_next
               half_second_world tt tq)) = 1.
Proof.
  cbv zeta.
  split; [reflexivity|]. split; [reflexivity|]. split; [reflexivity|].
  exact (proj1 (proj2 (next_counts_when_disabled unit no_adapter_next
                         no_adapter_has_next half_second_world tt
                         (snd (tqdm_create_with_params empty_environment
                                 half_second_world 1000 1012 4
                                 disabled_params))
                         eq_refl eq_refl eq_refl))).
Defined.

(** ** Pauses *)

(** X9.  Nothing starts a pause: on every instance reached from a creation
    by advance, set-to, reset, refresh, unpause, close, describe and
    annotate calls, [tqdm_unpause] changes neither the instance nor the
    output and does not read the clock. *)
Theorem unpause_never_acts (env : environment) (w : world)
  (begin end_ptr element_size : Z) (p : tqdm_params_t)
  (ops : list operation) :
  let st :=
    run (tqdm_create_with_params env w begin end_ptr element_size p) ops in
  tqdm_unpause (fst st) (snd st) = st.
Proof.
  cbv zeta.
  pose proof (run_never_paused ops _
                (create_never_paused env w begin end_ptr element_size p))
    as [Hp _].
  unfold tqdm_unpause. rewrite Hp. cbn [negb]. symmetry.
  apply surjective_pairing.
Qed.

(** ** The configuration of an instance *)

Lemma dynamic_miniters_fixed (w : world) (tq : tqdm_t) :
  let r := tqdm_update_dynamic_miniters w tq in
  fixed_part (params (snd r)) = fixed_part (params tq)
  /\ desc (params (snd r)) = desc (params tq)
  /\ postfix (params (snd r)) = postfix (params tq).
Proof. adapt_cases; repeat split; reflexivity. Qed.

Lemma update_n_params (w : world) (tq : tqdm_t) (delta : Z) :
  let tq' := snd (tqdm_update_n w tq delta) in
  fixed_part (params tq') = fixed_part (params tq)
  /\ desc (params tq') = desc (params tq)
  /\ postfix (params tq') = postfix (params tq).
Proof.
  cbv zeta. unfold tqdm_update_n.
  destruct (closed tq || disable (params tq)); [repeat split|].
  cbv zeta.
  pose proof (dynamic_miniters_fixed w
                (set_n (CInt.to_size (n tq + delta)) tq)) as F.
  cbv zeta in F.
  destruct (tqdm_update_dynamic_miniters w _) as [w1 tq1].
  cbn [fst snd] in F. cbn [current_time_seconds].
  destruct (should_print_of tq1 _ _).
  - rewrite print_progress_params. exact F.
  - exact F.
Qed.

Lemma update_to_params (w : world) (tq : tqdm_t) (value : Z) :
  let tq' := snd (tqdm_update_to w tq value) in
  fixed_part (params tq') = fixed_part (params tq)
  /\ desc (params tq') = desc (params tq)
  /\ postfix (params tq') = postfix (params tq).
Proof.
  cbv zeta. unfold tqdm_update_to.
  destruct (closed tq || disable (params tq)); [repeat split|].
  cbv zeta.
  pose proof (dynamic_miniters_fixed w (set_n value tq)) as F.
  cbv zeta in F.
  destruct (tqdm_update_dynamic_miniters w (set_n value tq)) as [w1 tq1].
  cbn [fst snd] in F. cbn [current_time_seconds].
  destruct (should_print_of tq1 _ _).
  - pose proof (print_progress_params
                  {| clock := clock w1; ticks := Datatypes.S (ticks w1);
                     ws_col := ws_col w1; written := written w1 |} tq1)
      as P.
    destruct (tqdm_print_progress _ tq1) as [w2 tq2]. cbn [snd] in *.
    rewrite P. exact F.
  - exact F.
Qed.

(** What one operation does to the parameters. *)
Lemma step_params (st : world * tqdm_t) (o : operation) :
  let tq' := snd (step st o) in
  fixed_part (params tq') = fixed_part (params (snd st))
  /\ desc (params tq')
     = match o with
       | Describe text _ => text
       | _ => desc (params (snd st))
       end
  /\ postfix (params tq')
     = match o with
       | Annotate text _ => text
       | _ => postfix (params (snd st))
       end.
Proof.
  destruct st as [w tq]. cbv zeta. cbn [snd].
  destruct o as [delta|value|new_total| | | |text refresh|text refresh];
    cbn [step].
  - apply update_n_params.
  - pose proof (update_to_params w tq value) as H. cbv zeta in H.
    destruct (tqdm_update_to w tq value) as [[b w'] tq']. exact H.
  - unfold tqdm_reset. cbn [current_time_seconds].
    destruct (new_total >? 0); repeat split.
  - unfold tqdm_refresh.
    destruct (closed tq || disable (params tq)); [repeat split|].
    rewrite print_progress_params. repeat split.
  - unfold tqdm_unpause. destruct (negb (paused tq)); repeat split.
  - unfold tqdm_close. destruct (closed tq); [repeat split|].
    destruct (leave (params tq) && negb (disable (params tq))).
    + pose proof (print_progress_params w tq) as P.
      destruct (tqdm_print_progress w tq) as [w' tq'].
      cbn [snd params set_closed] in *. rewrite P. repeat split.
    + destruct (negb (leave (params tq))); repeat split.
  - unfold tqdm_set_description_str. destruct refresh; [|repeat split].
    rewrite print_progress_params. repeat split.
  - unfold tqdm_set_postfix_str. destruct refresh; [|repeat split].
    unfold tqdm_refresh. cbn [set_params closed params].
    destruct (closed tq || disable (set_postfix text (params tq)));
      [repeat split|].
    rewrite print_progress_params. repeat split.
Qed.

Lemma run_params (ops : list operation) (st : world * tqdm_t) :
  let tq' := snd (run st ops) in
  fixed_part (params tq') = fixed_part (params (snd st))
  /\ desc (params tq') = last_described ops (desc (params (snd st)))
  /\ postfix (params tq') = last_annotated ops (postfix (params (snd st))).
Proof.
  cbv zeta. unfold run, last_described, last_annotated. revert st.
  induction ops as [|o ops IH]; intros st; cbn [fold_left].
  - repeat split.
  - destruct (IH (step st o)) as (I1 & I2 & I3).
    destruct (step_params st o) as (S1 & S2 & S3).
    rewrite I1, I2, I3, S1, S2, S3. repeat split.
Qed.

Lemma compare_defined (x y : double) :
  x <> S754_nan -> y <> S754_nan -> SFcompare x y <> None.
Proof.
  destruct x as [sx|sx| |sx mx ex], y as [sy|sy| |sy my ey];
    intros Hx Hy; cbn [SFcompare]; try discriminate;
    try (contradiction Hx; reflexivity);
    contradiction Hy; reflexivity.
Qed.

(** For numbers, [x < y] fails exactly when [y <= x] holds. *)
Lemma not_ltb_leb (x y : double) :
  x <> S754_nan -> y <> S754_nan ->
  Double.ltb x y = false -> Double.leb y x = true.
Proof.
  intros Hx Hy. pose proof (compare_defined x y Hx Hy) as D.
  unfold Double.ltb, Double.leb, SFltb, SFleb.
  rewrite (SFcompare_swap x y).
  destruct (SFcompare x y) as [[ | | ]|]; cbn [option_map CompOpp];
    try reflexivity; try discriminate.
  contradiction D. reflexivity.
Qed.

Lemma not_leb_ltb (x y : double) :
  x <> S754_nan -> y <> S754_nan ->
  Double.leb x y = false -> Double.ltb y x = true.
Proof.
  intros Hx Hy. pose proof (compare_defined x y Hx Hy) as D.
  unfold Double.ltb, Double.leb, SFltb, SFleb.
  rewrite (SFcompare_swap x y).
  destruct (SFcompare x y) as [[ | | ]|]; cbn [option_map CompOpp];
    try reflexivity; try discriminate.
  contradiction D. reflexivity.
Qed.

Lemma nan_or_number (x : double) : x = S754_nan \/ x <> S754_nan.
Proof. destruct x; [right|right|left|right]; try reflexivity; discriminate. Qed.

Lemma clamp_valid (q : tqdm_params_t) : valid_config (clamp_params q).
Proof.
  assert (Z0 : Double.of_Z 0 <> S754_nan) by (vm_compute; discriminate).
  assert (Z1 : Double.of_Z 1 <> S754_nan) by (vm_compute; discriminate).
  unfold valid_config, clamp_params.
  cbn [mininterval smoothing unit_divisor].
  split; [|split].
  - destruct (Double.ltb (mininterval q) (Double.of_Z 0)) eqn:E;
      [right; vm_compute; reflexivity|].
    destruct (nan_or_number (mininterval q)) as [N|N]; [left; exact N|].
    right. apply not_ltb_leb; assumption.
  - destruct (Double.ltb (smoothing q) (Double.of_Z 0)) eqn:E1;
      [right; split; vm_compute; reflexivity|].
    destruct (Double.ltb (Double.of_Z 1) (smoothing q)) eqn:E2;
      [right; split; vm_compute; reflexivity|].
    cbn [orb].
    destruct (nan_or_number (smoothing q)) as [N|N]; [left; exact N|].
    right. split; apply not_ltb_leb; assumption.
  - destruct (Double.leb (unit_divisor q) (Double.of_Z 0)) eqn:E;
      [right; vm_compute; reflexivity|].
    destruct (nan_or_number (unit_divisor q)) as [N|N]; [left; exact N|].
    right. apply not_leb_ltb; assumption.
Qed.

Lemma create_params (env : environment) (w : world)
  (begin end_ptr element_size : Z) (p : tqdm_params_t) :
  let tq := snd (tqdm_create_with_params env w begin end_ptr element_size p)
  in
  fixed_part (params tq)
  = fixed_part (clamp_params (tqdm_load_env_vars env p))
  /\ desc (params tq) = desc p /\ postfix (params tq) = postfix p.
Proof.
  cbv zeta. unfold tqdm_create_with_params.
  cbn [current_time_seconds snd params].
  match goal with |- context [if ?c then _ else _] => destruct c end;
    repeat split.
Qed.

(** X10.  The configuration is fixed at creation: after any sequence of
    advance, set-to, reset, refresh, unpause, close, describe and annotate
    calls every parameter other than the description, the total, the
    threshold and the postfix is what creation made of the caller's value
    and the environment.  The minimum interval, the smoothing factor and
    the unit divisor are then what the checks of creation leave: each is
    in its range (interval not negative, factor within 0 .. 1, divisor
    positive) or is a NaN; the checks let a NaN through, and a NaN that the
    caller gives for the unit divisor is the unit divisor of the
    instance. *)
Theorem configuration_is_kept (env : environment) (w : world)
  (begin end_ptr element_size : Z) (p : tqdm_params_t)
  (ops : list operation) :
  let tq :=
    snd (run (tqdm_create_with_params env w begin end_ptr element_size p)
           ops) in
  fixed_part (params tq)
  = fixed_part (clamp_params (tqdm_load_env_vars env p))
  /\ valid_config (params tq)
  /\ (unit_divisor p = S754_nan -> unit_divisor (params tq) = S754_nan).
Proof.
  cbv zeta.
  destruct (run_params ops
              (tqdm_create_with_params env w begin end_ptr element_size p))
    as (R & _ & _).
  destruct (create_params env w begin end_ptr element_size p) as (C & _ & _).
  rewrite C in R. split; [exact R|].
  pose proof (clamp_valid (tqdm_load_env_vars env p)) as V.
  unfold valid_config in *.
  pose proof (f_equal mininterval R) as E1.
  pose proof (f_equal smoothing R) as E2.
  pose proof (f_equal unit_divisor R) as E3.
  cbn [fixed_part set_desc set_total set_miniters set_postfix mininterval
       smoothing unit_divisor] in E1, E2, E3.
  rewrite E1, E2, E3. split; [exact V|].
  intros N. cbn [clamp_params tqdm_load_env_vars unit_divisor].
  rewrite N. reflexivity.
Qed.

(** X11.  The description and the postfix of an instance are those of the
    last describe and of the last annotate call, or those given at
    creation when there was none: no other operation touches them. *)
Theorem texts_are_last_set (env : environment) (w : world)
  (begin end_ptr element_size : Z) (p : tqdm_params_t)
  (ops : list operation) :
  let tq :=
    snd (run (tqdm_create_with_params env w begin end_ptr element_size p)
           ops) in
  desc (params tq) = last_described ops (desc p)
  /\ postfix (params tq) = last_annotated ops (postfix p).
Proof.
  cbv zeta.
  destruct (run_params ops
              (tqdm_create_with_params env w begin end_ptr element_size p))
    as (_ & R1 & R2).
  destruct (create_params env w begin end_ptr element_size p)
    as (_ & C1 & C2).
  rewrite C1 in R1. rewrite C2 in R2. split; assumption.
Qed.

(** X12.  The environment decides whether an instance is disabled: with
    TQDM_DISABLE set, the instance is disabled exactly when the value is
    [true] in any letter case or [1], whatever the caller passed; without
    it the caller's value stands.  No operation changes the flag
    afterwards. *)
Theorem environment_decides_disable (env : environment) (w : world)
  (begin end_ptr element_size : Z) (p : tqdm_params_t)
  (ops : list operation) :
  let tq :=
    snd (run (tqdm_create_with_params env w begin end_ptr element_size p)
           ops) in
  (TQDM_DISABLE env = None -> disable (params tq) = disable p)
  /\ (forall s, TQDM_DISABLE env = Some s ->
      (disable (params tq) = true <-> lower s = "true" \/ s = "1")).
Proof.
  cbv zeta.
  destruct (run_params ops
              (tqdm_create_with_params env w begin end_ptr element_size p))
    as (R & _ & _).
  destruct (create_params env w begin end_ptr element_size p) as (C & _ & _).
  rewrite C in R. pose proof (f_equal disable R) as E.
  cbn [fixed_part set_desc set_total set_miniters set_postfix disable
       clamp_params tqdm_load_env_vars] in E.
  rewrite E. split.
  - intros H. rewrite H. reflexivity.
  - intros s H. rewrite H. cbn [option_map or_field]. unfold env_flag.
    rewrite orb_true_iff, !String.eqb_eq. reflexivity.
Qed.

(** ** The lines written *)

Lemma substring_length_le (k : nat) (s : string) :
  (String.length (substring 0 k s) <= k)%nat.
Proof.
  revert s. induction k as [|k IH]; intros s.
  - destruct s; cbn; lia.
  - destruct s as [|c s]; cbn [substring String.length]; [lia|].
    specialize (IH s). lia.
Qed.

Lemma substring_append_l (a b : string) (k : nat) :
  (String.length a <= k)%nat ->
  substring 0 k (a ++ b) = a ++ substring 0 (k - String.length a) b.
Proof.
  revert k. induction a as [|c a IH]; intros k H.
  - cbn [String.append String.length]. rewrite Nat.sub_0_r. reflexivity.
  - cbn [String.length] in H. destruct k as [|k]; [lia|].
    cbn [String.append substring String.length Nat.sub].
    rewrite IH by lia. reflexivity.
Qed.


(** The line that the renderer writes for an open, enabled instance. *)
Lemma print_progress_line (w : world) (tq : tqdm_t) :
  closed tq = false -> disable (params tq) = false ->
  exists (elapsed rate : double) (cols : Z),
    written (fst (tqdm_print_progress w tq))
    = (written w ++
       [(CR ++ tqdm_format_meter (n tq) (total (params tq)) elapsed cols
                 (desc (params tq)) (ascii (params tq)) (unit_ (params tq))
                 (unit_scale (params tq)) rate (bar_format (params tq))
                 (postfix (params tq))
                 (Double.to_int (unit_divisor (params tq)))
                 (initial (params tq)) (colour (params tq)))%string])%list.
Proof.
  intros Hc Hd. unfold tqdm_print_progress. rewrite Hc, Hd.
  cbn [orb current_time_seconds].
  destruct (_ || _); [destruct (Double.ltb _ _)|];
    cbn [fst snd fprintf written set_terminal_cache params n];
    do 3 eexists; reflexivity.
Qed.

Lemma meter_length (n total : Z) (elapsed : double) (ncols : Z)
  (prefix : option string) (ascii : bool) (unit_ : option string)
  (unit_scale : bool) (rate : double) (bar_format : option string)
  (postfix : option string) (unit_divisor : Z) (initial : Z)
  (colour : option string) :
  (String.length
     (tqdm_format_meter n total elapsed ncols prefix ascii unit_ unit_scale
        rate bar_format postfix unit_divisor initial colour) <= 1023)%nat.
Proof.
  unfold tqdm_format_meter, meter_template, meter_default, snprintf.
  destruct (nonempty bar_format).
  - match goal with
    | |- (String.length (substring 0 ?k ?s) <= _)%nat =>
        pose proof (substring_length_le k s) as H
    end.
    cbn [Nat.sub] in *. lia.
  - destruct (meter_counts _ _ _ _ _ _) as [[a b] c].
    match goal with
    | |- (String.length (substring 0 ?k ?s) <= _)%nat =>
        pose proof (substring_length_le k s) as H
    end.
    cbn [Nat.sub] in *. lia.
Qed.

Lemma length_append (a b : string) :
  String.length (a ++ b) = (String.length a + String.length b)%nat.
Proof.
  induction a as [|c a IH]; cbn [String.append String.length plus];
    [reflexivity|].
  rewrite IH. reflexivity.
Qed.

Lemma wrote_same (w w' : world) (k : nat) :
  written w' = written w -> wrote w w' k.
Proof.
  intros H. exists []. rewrite app_nil_r.
  split; [exact H|]. split; [constructor|cbn; lia].
Qed.

Lemma wrote_trans (w1 w2 w3 : world) (j k m : nat) :
  wrote w1 w2 j -> wrote w2 w3 k -> (j + k <= m)%nat -> wrote w1 w3 m.
Proof.
  intros (a & Ea & Fa & La) (b & Eb & Fb & Lb) H.
  exists (a ++ b)%list. rewrite Eb, Ea, app_assoc.
  split; [reflexivity|].
  split; [apply Forall_app; split; assumption|].
  rewrite length_app. lia.
Qed.

Lemma wrote_fprintf (w : world) (s : string) :
  (String.length s <= 1024)%nat -> wrote w (fprintf s w) 1.
Proof.
  intros H. exists [s]. cbn [fprintf written].
  split; [reflexivity|]. split; [constructor; [exact H|constructor]|cbn; lia].
Qed.

Lemma print_progress_wrote (w : world) (tq : tqdm_t) :
  wrote w (fst (tqdm_print_progress w tq)) 1.
Proof.
  destruct (closed tq) eqn:Hc.
  { rewrite print_progress_closed by exact Hc. apply wrote_same.
    reflexivity. }
  destruct (disable (params tq)) eqn:Hd.
  { rewrite print_progress_disabled by exact Hd. apply wrote_same.
    reflexivity. }
  destruct (print_progress_line w tq Hc Hd) as (el & ra & co & E).
  eexists. split; [exact E|].
  split; [|cbn; lia].
  constructor; [|constructor]. rewrite length_append.
  match goal with
  | |- context [tqdm_format_meter ?a ?b ?c ?d ?e ?f ?g ?h ?i ?j ?k ?l ?m ?o]
    => pose proof (meter_length a b c d e f g h i j k l m o) as L
  end.
  cbn [CR String.length]. lia.
Qed.

Lemma update_n_wrote (w : world) (tq : tqdm_t) (delta : Z) :
  wrote w (fst (tqdm_update_n w tq delta)) 1.
Proof.
  unfold tqdm_update_n.
  destruct (closed tq || disable (params tq));
    [apply wrote_same; reflexivity|].
  cbv zeta.
  pose proof (dynamic_miniters_frame w
                (set_n (CInt.to_size (n tq + delta)) tq)) as F.
  cbv zeta in F.
  destruct (tqdm_update_dynamic_miniters w _) as [w1 tq1].
  cbn [fst snd] in F. destruct F as (Fw & _).
  cbn [current_time_seconds].
  set (w2 := {| clock := clock w1; ticks := Datatypes.S (ticks w1);
                ws_col := ws_col w1; written := written w1 |}).
  assert (H12 : wrote w w2 0) by (apply wrote_same; exact Fw).
  destruct (should_print_of tq1 _ _).
  - apply (wrote_trans w w2 _ 0 1 1 H12 (print_progress_wrote w2 tq1)). lia.
  - cbn [fst]. apply wrote_same. exact Fw.
Qed.

Lemma update_to_wrote (w : world) (tq : tqdm_t) (value : Z) :
  wrote w (snd (fst (tqdm_update_to w tq value))) 1.
Proof.
  unfold tqdm_update_to.
  destruct (closed tq || disable (params tq));
    [apply wrote_same; reflexivity|].
  cbv zeta.
  pose proof (dynamic_miniters_frame w (set_n value tq)) as F.
  cbv zeta in F.
  destruct (tqdm_update_dynamic_miniters w (set_n value tq)) as [w1 tq1].
  cbn [fst snd] in F. destruct F as (Fw & _).
  cbn [current_time_seconds].
  set (w2 := {| clock := clock w1; ticks := Datatypes.S (ticks w1);
                ws_col := ws_col w1; written := written w1 |}).
  assert (H12 : wrote w w2 0) by (apply wrote_same; exact Fw).
  destruct (should_print_of tq1 _ _).
  - pose proof (print_progress_wrote w2 tq1) as P.
    destruct (tqdm_print_progress w2 tq1) as [w3 tq3]. cbn [fst snd] in *.
    apply (wrote_trans w w2 w3 0 1 1 H12 P). lia.
  - cbn [fst snd]. apply wrote_same. exact Fw.
Qed.

Lemma step_wrote (st : world * tqdm_t) (o : operation) :
  wrote (fst st) (fst (step st o)) 2.
Proof.
  destruct st as [w tq]. cbn [fst].
  assert (W1 : forall w', wrote w w' 1 -> wrote w w' 2).
  { intros w' H. apply (wrote_trans w w' w' 1 0 2 H); [|lia].
    apply wrote_same. reflexivity. }
  destruct o as [delta|value|new_total| | | |text refresh|text refresh];
    cbn [step].
  - apply W1, update_n_wrote.
  - pose proof (update_to_wrote w tq value) as H.
    destruct (tqdm_update_to w tq value) as [[b w'] tq']. apply W1, H.
  - unfold tqdm_reset. cbn [current_time_seconds fst].
    apply wrote_same. reflexivity.
  - unfold tqdm_refresh.
    destruct (closed tq || disable (params tq));
      [apply wrote_same; reflexivity|].
    apply W1, print_progress_wrote.
  - unfold tqdm_unpause. destruct (negb (paused tq));
      apply wrote_same; reflexivity.
  - unfold tqdm_close. destruct (closed tq);
      [apply wrote_same; reflexivity|].
    destruct (leave (params tq) && negb (disable (params tq))).
    + pose proof (print_progress_wrote w tq) as P.
      destruct (tqdm_print_progress w tq) as [w' tq']. cbn [fst] in *.
      apply (wrote_trans w w' _ 1 1 2 P); [|lia].
      apply wrote_fprintf. cbn. lia.
    + destruct (negb (leave (params tq))); cbn [fst];
        [|apply wrote_same; reflexivity].
      unfold tqdm_clear. destruct (disable (params tq));
        [apply wrote_same; reflexivity|].
      apply W1, wrote_fprintf. cbn. lia.
  - unfold tqdm_set_description_str. destruct refresh;
      [|apply wrote_same; reflexivity].
    apply W1, print_progress_wrote.
  - unfold tqdm_set_postfix_str. destruct refresh;
      [|apply wrote_same; reflexivity].
    unfold tqdm_refresh.
    destruct (closed _ || disable _); [apply wrote_same; reflexivity|].
    apply W1, print_progress_wrote.
Qed.

(** X13.  The output only grows, by bounded texts: whatever the instance
    and the operations (advance, set-to, reset, refresh, unpause, close,
    describe, annotate), what was written before stays as it is, each
    operation adds at most two texts, and no text is longer than 1024
    bytes, however long the description and the postfix are. *)
Theorem output_only_grows (ops : list operation) (st : world * tqdm_t) :
  exists new : list string,
    written (fst (run st ops)) = (written (fst st) ++ new)%list
    /\ Forall (fun s => (String.length s <= 1024)%nat) new
    /\ (List.length new <= 2 * List.length ops)%nat.
Proof.
  change (wrote (fst st) (fst (run st ops)) (2 * List.length ops)).
  unfold run. revert st.
  induction ops as [|o ops IH]; intros st; cbn [fold_left].
  - apply wrote_same. reflexivity.
  - apply (wrote_trans (fst st) (fst (step st o)) _ 2
             (2 * List.length ops) _ (step_wrote st o) (IH (step st o))).
    cbn [List.length]. lia.
Qed.


Section MeterPrefix.

Variables (n total : Z) (elapsed : double) (ncols : Z) (d : string)
  (ascii : bool) (unit_ : option string) (unit_scale : bool) (rate : double)
  (bar_format postfix : option string) (unit_divisor initial : Z)
  (colour : option string).

Hypothesis d_nonempty : d <> "".




End MeterPrefix.



(** ** Times as text *)

Lemma digits2_pos_bound (m : positive) :
  Zpos m < 2 ^ Zpos (digits2_pos m).
Proof.
  induction m as [m IH|m IH|]; cbn [digits2_pos].
  - rewrite Pos2Z.inj_succ, Z.pow_succ_r by lia. lia.
  - rewrite Pos2Z.inj_succ, Z.pow_succ_r by lia. lia.
  - reflexivity.
Qed.

(** The mantissa of a binary64 number has at most 53 bits. *)
Lemma valid_mantissa (s : bool) (m : positive) (e : Z) :
  valid_binary Double.prec Double.emax (S754_finite s m e) = true ->
  Zpos m < 2 ^ 53.
Proof.
  unfold valid_binary, bounded, canonical_mantissa, fexp. intros H.
  apply andb_prop in H as [H _]. apply Z.eqb_eq in H.
  pose proof (digits2_pos_bound m) as B.
  assert (D : Zpos (digits2_pos m) <= 53)
    by (unfold Double.prec in H; lia).
  apply Z.lt_le_trans with (1 := B).
  apply Z.pow_le_mono_r; lia.
Qed.

(** The whole seconds of a time that passes the guard of
    [tqdm_format_interval]. *)
Lemma interval_seconds (x : double) :
  is_number x ->
  Double.ltb x (Double.of_Z 0) = false ->
  Double.ltb (Double.of_Z (86400 * 365)) x = false ->
  exists s, Double.trunc x = Some s /\ Double.to_int x = s
            /\ 0 <= s <= 31536000.
Proof.
  intros [Hv Hn] H0 H1.
  destruct x as [sg|sg| |sg m e].
  - exists 0. repeat split; lia.
  - destruct sg; [vm_compute in H0|vm_compute in H1]; discriminate.
  - contradiction Hn. reflexivity.
  - destruct sg.
    { change (Double.of_Z 0) with (S754_zero false) in H0.
      discriminate H0. }
    pose proof (valid_mantissa false m e Hv) as Hm.
    change (Double.of_Z (86400 * 365))
      with (S754_finite false 8465380540416000 (-28)) in H1.
    unfold Double.ltb, SFltb, SFcompare in H1.
    assert (He : e <= -28 /\ (e = -28 -> Zpos m <= 8465380540416000)).
    { destruct (Z.compare (-28) e) eqn:Ce.
      - apply Z.compare_eq in Ce. split; [lia|]. intros _.
        change (Pos.compare_cont Eq 8465380540416000 m)
          with (Pos.compare 8465380540416000 m) in H1.
        destruct (Pos.compare 8465380540416000 m) eqn:Cm;
          try discriminate H1.
        + apply Pos.compare_eq_iff in Cm. subst m. apply Z.le_refl.
        + apply Pos.compare_gt_iff in Cm. apply Z.lt_le_incl. exact Cm.
      - discriminate H1.
      - rewrite Z.compare_gt_iff in Ce. split; lia. }
    destruct He as [He1 He2].
    destruct e as [|pe|pe]; try lia.
    assert (Hs : 0 <= Z.shiftr (Zpos m) (Zpos pe) <= 31536000).
    { rewrite Z.shiftr_div_pow2 by lia. split.
      - apply Z.div_pos; lia.
      - destruct (Z.eq_dec (Zpos pe) 28) as [E|E].
        + rewrite E. apply Z.div_le_upper_bound; [lia|].
          assert (Zneg pe = -28) by lia. specialize (He2 H). lia.
        + assert (29 <= Zpos pe) by lia.
          apply Z.div_le_upper_bound; [lia|].
          assert (2 ^ 29 <= 2 ^ Zpos pe)
            by (apply Z.pow_le_mono_r; lia).
          change (2 ^ 53) with (2 ^ 29 * 2 ^ 24) in Hm.
          change (2 ^ 29) with 536870912 in *.
          change (2 ^ 24) with 16777216 in *. nia. }
    exists (Z.shiftr (Zpos m) (Zpos pe)).
    split; [reflexivity|]. split; [|exact Hs].
    unfold Double.to_int, Double.to_range. cbn [Double.trunc].
    unfold CInt.INT_MIN, CInt.INT_MAX. lia.
Qed.

Lemma dec02_two (z : Z) :
  0 <= z < 60 -> String.length (dec02 z) = 2%nat.
Proof.
  intros H.
  assert (A : forallb (fun k => Nat.eqb (String.length (dec02 (Z.of_nat k)))
                                  2) (seq 0 60) = true)
    by (vm_compute; reflexivity).
  rewrite forallb_forall in A.
  specialize (A (Z.to_nat z)). rewrite Z2Nat.id in A by lia.
  apply Nat.eqb_eq, A, in_seq. lia.
Qed.

Lemma dec02_hours (z : Z) :
  0 <= z <= 8760 -> (String.length (dec02 z) <= 4)%nat.
Proof.
  intros H.
  assert (A : forallb (fun k => Nat.leb (String.length (dec02 (Z.of_nat k)))
                                  4) (seq 0 (Z.to_nat 8761)) = true)
    by (vm_compute; reflexivity).
  rewrite forallb_forall in A.
  specialize (A (Z.to_nat z)). rewrite Z2Nat.id in A by lia.
  apply Nat.leb_le, A, in_seq. lia.
Qed.

Lemma substring_all (s : string) (k : nat) :
  (String.length s <= k)%nat -> substring 0 k s = s.
Proof.
  intros H. rewrite <- (append_nil_r s) at 1.
  rewrite substring_append_l by exact H.
  destruct (k - String.length s)%nat; cbn [substring]; apply append_nil_r.
Qed.

(** X15.  A time within the accepted range (0 up to 365 days) is printed
    exactly: the text is the clock reading of its whole seconds, [MM:SS]
    below one hour and [HH:MM:SS] from one hour on; none of the three
    clamps acts and the 16-byte buffer never cuts the text. *)
Theorem interval_is_clock_text (x : double) :
  is_number x ->
  Double.ltb x (Double.of_Z 0) = false ->
  Double.ltb (Double.of_Z (86400 * 365)) x = false ->
  exists s : Z,
    Double.trunc x = Some s /\ 0 <= s <= 31536000
    /\ tqdm_format_interval x = clock_text s.
Proof.
  intros Hx H0 H1.
  destruct (interval_seconds x Hx H0 H1) as (s & Ht & Hi & Hs).
  exists s. split; [exact Ht|]. split; [exact Hs|].
  unfold tqdm_format_interval, clock_text. rewrite H0, H1, Hi.
  cbn [orb]. cbv zeta.
  rewrite !Z.quot_div_nonneg, !Z.rem_mod_nonneg by lia.
  rewrite !Z.quot_div_nonneg
    by (try lia; apply Z.mod_pos_bound; lia).
  assert (Bh : 0 <= s / 3600 <= 8760).
  { split; [apply Z.div_pos; lia|].
    apply Z.div_le_upper_bound; lia. }
  assert (Bm : 0 <= s mod 3600 / 60 < 60).
  { pose proof (Z.mod_pos_bound s 3600 ltac:(lia)).
    split; [apply Z.div_pos; lia|].
    apply Z.div_lt_upper_bound; lia. }
  assert (Bs : 0 <= s mod 60 < 60) by (apply Z.mod_pos_bound; lia).
  replace (s / 3600 >? 99999) with false
    by (symmetry; rewrite Z.gtb_ltb; apply Z.ltb_ge; lia).
  replace (s mod 3600 / 60 >? 59) with false
    by (symmetry; rewrite Z.gtb_ltb; apply Z.ltb_ge; lia).
  replace (s mod 60 >? 59) with false
    by (symmetry; rewrite Z.gtb_ltb; apply Z.ltb_ge; lia).
  rewrite (Z.gtb_ltb (s / 3600) 0).
  pose proof (dec02_hours _ Bh) as Lh.
  pose proof (dec02_two _ Bm) as Lm.
  pose proof (dec02_two _ Bs) as Ls.
  unfold snprintf.
  destruct (0 <? s / 3600); apply substring_all;
    rewrite !length_append; cbn [String.length]; lia.
Qed.

(** One hour, two minutes and five seconds. *)
Lemma interval_is_clock_text_witness :
  is_number (Double.of_Z 3725)
  /\ Double.ltb (Double.of_Z 3725) (Double.of_Z 0) = false
  /\ Double.ltb (Double.of_Z (86400 * 365)) (Double.of_Z 3725) = false
  /\ exists s : Z,
       Double.trunc (Double.of_Z 3725) = Some s /\ 0 <= s <= 31536000
       /\ tqdm_format_interval (Double.of_Z 3725) = clock_text s.
Proof.
  assert (Hx : is_number (Double.of_Z 3725))
    by (split; [vm_compute; reflexivity|vm_compute; discriminate]).
  assert (H0 : Double.ltb (Double.of_Z 3725) (Double.of_Z 0) = false)
    by (vm_compute; reflexivity).
  assert (H1 : Double.ltb (Double.of_Z (86400 * 365)) (Double.of_Z 3725)
               = false) by (vm_compute; reflexivity).
  split; [exact Hx|]. split; [exact H0|]. split; [exact H1|].
  exact (interval_is_clock_text (Double.of_Z 3725) Hx H0 H1).
Defined.

(** ** The postfix dictionary *)

Lemma postfix_format_loop_concat (l : postfix_entry_t) :
  forall (e : string * string) (acc : string),
  postfix_format_loop l false (acc ++ entry_text e)
  = acc ++ String.concat ", " (map entry_text (e :: l)).
Proof.
  induction l as [|[k v] l IH]; intros e acc.
  - reflexivity.
  - cbn [postfix_format_loop].
    change (k ++ "=" ++ v) with (entry_text (k, v)).
    rewrite (append_assoc acc (entry_text e) ", ").
    rewrite IH. rewrite append_assoc.
    cbn [map String.concat]. rewrite append_assoc. reflexivity.
Qed.

Lemma postfix_format_concat (l : postfix_entry_t) :
  postfix_format l = String.concat ", " (map entry_text l).
Proof.
  destruct l as [|[k v] l]; [reflexivity|].
  unfold postfix_format. cbn [postfix_format_loop].
  change ("" ++ k ++ "=" ++ v) with ("" ++ entry_text (k, v)).
  apply postfix_format_loop_concat.
Qed.

Lemma add_all_rev (kvs : list (string * string)) (acc : postfix_entry_t) :
  fold_left (fun head kv => postfix_add head (Some (fst kv)) (Some (snd kv)))
    kvs (Some acc)
  = Some (rev kvs ++ acc)%list.
Proof.
  revert acc. induction kvs as [|[k v] kvs IH]; intros acc.
  - reflexivity.
  - cbn [fold_left postfix_add fst snd rev]. rewrite IH, <- app_assoc.
    reflexivity.
Qed.

(** X16.  The dictionary lists the newest entry first: adding pairs to the
    empty dictionary one by one and formatting it gives [key=value] for
    each pair, separated by a comma and a space, in the reverse of the
    order of addition, and setting it as the postfix stores that text; the
    empty dictionary clears the postfix.  The text has to fit the buffer of
    512 bytes that [postfix_format] fills. *)
Theorem postfix_lists_newest_first (kvs : list (string * string))
  (tq : tqdm_t) :
  (String.length (String.concat ", " (map entry_text (rev kvs))) < 512)%nat
  ->
  exists entries : postfix_entry_t,
    add_all kvs = Some entries
    /\ entries = rev kvs
    /\ postfix_format entries
       = String.concat ", " (map entry_text (rev kvs))
    /\ postfix (params (tqdm_set_postfix tq entries))
       = match kvs with
         | [] => None
         | _ => Some (String.concat ", " (map entry_text (rev kvs)))
         end.
Proof.
  intros _. exists (rev kvs).
  split.
  { unfold add_all, postfix_create. rewrite add_all_rev, app_nil_r.
    reflexivity. }
  split; [reflexivity|].
  split; [apply postfix_format_concat|].
  unfold tqdm_set_postfix.
  destruct kvs as [|kv kvs]; [reflexivity|].
  destruct (rev (kv :: kvs)) as [|e l] eqn:E.
  { apply (f_equal (@List.length _)) in E.
    rewrite length_rev in E. discriminate E. }
  cbn [params set_params set_postfix postfix].
  rewrite postfix_format_concat. reflexivity.
Qed.

(** A loss and an accuracy, added in this order. *)
Lemma postfix_lists_newest_first_witness :
  postfix (params (tqdm_set_postfix (snd (fresh one_second_params))
                     [("acc", "0.9"); ("loss", "0.25")]))
  = Some "acc=0.9, loss=0.25".
Proof.
  destruct (postfix_lists_newest_first [("loss", "0.25"); ("acc", "0.9")]
              (snd (fresh one_second_params)))
    as (entries & _ & E & _ & P).
  - vm_compute. lia.
  - rewrite E in P. exact P.
Defined.

(** ** Ranges *)

Lemma to_int_small (z : Z) :
  CInt.INT_MIN <= z <= CInt.INT_MAX -> CInt.to_int z = z.
Proof.
  unfold CInt.INT_MIN, CInt.INT_MAX, CInt.to_int. intros H.
  rewrite Z.mod_small by lia. lia.
Qed.

Lemma seq_values (start stride : Z) (k : nat) :
  (start :: map (fun i => start + stride + Z.of_nat i * stride) (seq 0 k))%list
  = map (fun i => start + Z.of_nat i * stride) (seq 0 (S k)).
Proof.
  cbn [seq map]. rewrite <- seq_shift, map_map. f_equal; [cbn; lia|].
  apply map_ext. intros i. lia.
Qed.

(** The loop over an ascending range with [k] values left. *)
Lemma for_each_ascending (stop stride : Z) (k : nat) :
  forall (fuel : nat) (cur : Z),
  (k <= fuel)%nat -> 0 < stride ->
  CInt.INT_MIN <= cur -> stop + stride - 1 <= CInt.INT_MAX ->
  ((0 < k)%nat -> cur + (Z.of_nat k - 1) * stride < stop) ->
  stop <= cur + Z.of_nat k * stride ->
  Range.for_each fuel
    {| Range.current := cur; Range.total := stop; Range.step := stride |}
  = (map (fun i => cur + Z.of_nat i * stride) (seq 0 k),
     {| Range.current := cur + Z.of_nat k * stride; Range.total := stop;
        Range.step := stride |}).
Proof.
  induction k as [|k IH]; intros fuel cur Hf Hs Hlo Hhi Hin Hout.
  - assert (Hn : Range.range_has_next
                   {| Range.current := cur; Range.total := stop;
                      Range.step := stride |} = false).
    { unfold Range.range_has_next. cbn [Range.step Range.current Range.total].
      replace (stride >? 0) with true by (symmetry; apply Z.gtb_lt; lia).
      apply Z.ltb_ge. lia. }
    replace (cur + Z.of_nat 0 * stride) with cur by lia.
    destruct fuel as [|fuel]; cbn [Range.for_each seq map]; [reflexivity|].
    rewrite Hn. reflexivity.
  - destruct fuel as [|fuel]; [lia|].
    assert (Hlt : cur < stop) by nia.
    assert (Hn : Range.range_has_next
                   {| Range.current := cur; Range.total := stop;
                      Range.step := stride |} = true).
    { unfold Range.range_has_next. cbn [Range.step Range.current Range.total].
      replace (stride >? 0) with true by (symmetry; apply Z.gtb_lt; lia).
      apply Z.ltb_lt. exact Hlt. }
    cbn [Range.for_each]. rewrite Hn. unfold Range.range_next. rewrite Hn.
    cbn [negb Range.current Range.total Range.step].
    rewrite to_int_small by (unfold CInt.INT_MIN, CInt.INT_MAX in *; lia).
    rewrite (IH fuel (cur + stride)) by (try lia; try nia).
    rewrite seq_values. do 2 f_equal. lia.
Qed.

(** The loop over a descending range with [k] values left. *)
Lemma for_each_descending (stop stride : Z) (k : nat) :
  forall (fuel : nat) (cur : Z),
  (k <= fuel)%nat -> stride < 0 ->
  cur <= CInt.INT_MAX -> CInt.INT_MIN <= stop + stride + 1 ->
  ((0 < k)%nat -> stop < cur + (Z.of_nat k - 1) * stride) ->
  cur + Z.of_nat k * stride <= stop ->
  Range.for_each fuel
    {| Range.current := cur; Range.total := stop; Range.step := stride |}
  = (map (fun i => cur + Z.of_nat i * stride) (seq 0 k),
     {| Range.current := cur + Z.of_nat k * stride; Range.total := stop;
        Range.step := stride |}).
Proof.
  induction k as [|k IH]; intros fuel cur Hf Hs Hhi Hlo Hin Hout.
  - assert (Hn : Range.range_has_next
                   {| Range.current := cur; Range.total := stop;
                      Range.step := stride |} = false).
    { unfold Range.range_has_next. cbn [Range.step Range.current Range.total].
      replace (stride >? 0) with false
        by (symmetry; rewrite Z.gtb_ltb; apply Z.ltb_ge; lia).
      rewrite Z.gtb_ltb. apply Z.ltb_ge. lia. }
    replace (cur + Z.of_nat 0 * stride) with cur by lia.
    destruct fuel as [|fuel]; cbn [Range.for_each seq map]; [reflexivity|].
    rewrite Hn. reflexivity.
  - destruct fuel as [|fuel]; [lia|].
    assert (Hlt : stop < cur) by nia.
    assert (Hn : Range.range_has_next
                   {| Range.current := cur; Range.total := stop;
                      Range.step := stride |} = true).
    { unfold Range.range_has_next. cbn [Range.step Range.current Range.total].
      replace (stride >? 0) with false
        by (symmetry; rewrite Z.gtb_ltb; apply Z.ltb_ge; lia).
      rewrite Z.gtb_ltb. apply Z.ltb_lt. exact Hlt. }
    cbn [Range.for_each]. rewrite Hn. unfold Range.range_next. rewrite Hn.
    cbn [negb Range.current Range.total Range.step].
    rewrite to_int_small by (unfold CInt.INT_MIN, CInt.INT_MAX in *; lia).
    rewrite (IH fuel (cur + stride)) by (try lia; try nia).
    rewrite seq_values. do 2 f_equal. lia.
Qed.

(** X17.  A range with a step other than 0 hands out [start],
    [start + step], ... as long as the value is before the end (below it
    for a positive step, above it for a negative one): the distance
    divided by the step, rounded up, values in all, none when the start is
    at or past the end; then it has no more.  The values stay within
    [int] when the end plus the step does. *)
Theorem range_hands_out_progression (start stop stride : Z) (fuel : nat) :
  stride <> 0 ->
  CInt.INT_MIN <= start <= CInt.INT_MAX ->
  CInt.INT_MIN - 1 <= stop + stride <= CInt.INT_MAX + 1 ->
  (range_length start stop stride <= fuel)%nat ->
  let r := Range.for_each fuel (Range.trange_with_step start stop stride) in
  fst r
  = map (fun i => start + Z.of_nat i * stride)
      (seq 0 (range_length start stop stride))
  /\ Range.range_has_next (snd r) = false
  /\ Range.range_next (snd r) = (Range.current (snd r), snd r).
Proof.
  intros Hs Hstart Hstop Hf. cbv zeta.
  unfold Range.trange_with_step, Range.range_create_with_step.
  assert (E : Range.for_each fuel
                {| Range.current := start; Range.total := stop;
                   Range.step := stride |}
              = (map (fun i => start + Z.of_nat i * stride)
                   (seq 0 (range_length start stop stride)),
                 {| Range.current :=
                      start
                      + Z.of_nat (range_length start stop stride) * stride;
                    Range.total := stop; Range.step := stride |})
              /\ Range.range_has_next
                   {| Range.current :=
                        start
                        + Z.of_nat (range_length start stop stride) * stride;
                      Range.total := stop; Range.step := stride |} = false).
  { unfold range_length in *.
    destruct (0 <? stride) eqn:Sg.
    - apply Z.ltb_lt in Sg.
      set (q := (stop - start + stride - 1) / stride) in *.
      assert (Hq : stride * q <= stop - start + stride - 1
                   < stride * q + stride).
      { pose proof (Z.div_mod (stop - start + stride - 1) stride
                      ltac:(lia)) as D.
        pose proof (Z.mod_pos_bound (stop - start + stride - 1) stride Sg).
        fold q in D. lia. }
      assert (Hin : (0 < Z.to_nat q)%nat ->
                    start + (Z.of_nat (Z.to_nat q) - 1) * stride < stop).
      { intros Hp. rewrite Z2Nat.id by lia. nia. }
      assert (Hout : stop <= start + Z.of_nat (Z.to_nat q) * stride).
      { destruct (Z.le_gt_cases 0 q) as [Hq0|Hq0].
        - rewrite Z2Nat.id by lia. nia.
        - replace (Z.to_nat q) with 0%nat by lia. nia. }
      split.
      + apply for_each_ascending; try assumption; lia.
      + unfold Range.range_has_next.
        cbn [Range.step Range.current Range.total].
        replace (stride >? 0) with true by (symmetry; apply Z.gtb_lt; lia).
        apply Z.ltb_ge. exact Hout.
    - apply Z.ltb_ge in Sg. assert (Sn : stride < 0) by lia.
      set (q := (start - stop - stride - 1) / - stride) in *.
      assert (Hq : - stride * q <= start - stop - stride - 1
                   < - stride * q - stride).
      { pose proof (Z.div_mod (start - stop - stride - 1) (- stride)
                      ltac:(lia)) as D.
        pose proof (Z.mod_pos_bound (start - stop - stride - 1) (- stride)
                      ltac:(lia)).
        fold q in D. lia. }
      assert (Hin : (0 < Z.to_nat q)%nat ->
                    stop < start + (Z.of_nat (Z.to_nat q) - 1) * stride).
      { intros Hp. rewrite Z2Nat.id by lia. nia. }
      assert (Hout : start + Z.of_nat (Z.to_nat q) * stride <= stop).
      { destruct (Z.le_gt_cases 0 q) as [Hq0|Hq0].
        - rewrite Z2Nat.id by lia. nia.
        - replace (Z.to_nat q) with 0%nat by lia. nia. }
      split.
      + apply for_each_descending; try assumption; lia.
      + unfold Range.range_has_next.
        cbn [Range.step Range.current Range.total].
        replace (stride >? 0) with false
          by (symmetry; rewrite Z.gtb_ltb; apply Z.ltb_ge; lia).
        rewrite Z.gtb_ltb. apply Z.ltb_ge. exact Hout. }
  destruct E as [E Hn]. rewrite E. cbn [fst snd].
  split; [reflexivity|]. split; [exact Hn|].
  unfold Range.range_next. rewrite Hn. reflexivity.
Qed.

(** From 0 up to 10 in steps of 3, and from 10 down to 0 in steps of 4. *)
Lemma range_hands_out_progression_witness :
  fst (Range.for_each 10 (Range.trange_with_step 0 10 3)) = [0; 3; 6; 9]
  /\ fst (Range.for_each 10 (Range.trange_with_step 10 0 (-4))) = [10; 6; 2].
Proof.
  split.
  - refine (proj1 (range_hands_out_progression 0 10 3 10 _ _ _ _)).
    + discriminate.
    + vm_compute. split; discriminate.
    + vm_compute. split; discriminate.
    + vm_compute. lia.
  - refine (proj1 (range_hands_out_progression 10 0 (-4) 10 _ _ _ _)).
    + discriminate.
    + vm_compute. split; discriminate.
    + vm_compute. split; discriminate.
    + vm_compute. lia.
Defined.

(** X18.  A range with step 0 never ends when its start is above its end:
    it has more after any number of rounds, each of which hands out the
    start again.  With the start at or below the end it hands out
    nothing. *)
Theorem range_zero_step_never_ends (start stop : Z) (fuel : nat) :
  CInt.INT_MIN <= start <= CInt.INT_MAX ->
  let r := Range.for_each fuel (Range.trange_with_step start stop 0) in
  (stop < start ->
   fst r = repeat start fuel /\ Range.range_has_next (snd r) = true)
  /\ (start <= stop ->
      fst r = [] /\ Range.range_has_next (snd r) = false).
Proof.
  intros Hs. cbv zeta.
  unfold Range.trange_with_step, Range.range_create_with_step.
  set (rg := {| Range.current := start; Range.total := stop;
                Range.step := 0 |}).
  split.
  - intros Hlt.
    assert (Hn : Range.range_has_next rg = true).
    { unfold Range.range_has_next, rg.
      cbn [Range.step Range.current Range.total Z.gtb Z.compare].
      rewrite Z.gtb_ltb. apply Z.ltb_lt. exact Hlt. }
    assert (Hx : Range.range_next rg = (start, rg)).
    { unfold Range.range_next. rewrite Hn. unfold rg.
      cbn [negb Range.current Range.total Range.step].
      rewrite Z.add_0_r, to_int_small by exact Hs. reflexivity. }
    assert (E : Range.for_each fuel rg = (repeat start fuel, rg)).
    { induction fuel as [|fuel IH]; cbn [Range.for_each repeat];
        [reflexivity|].
      rewrite Hn, Hx, IH. reflexivity. }
    rewrite E. split; [reflexivity|exact Hn].
  - intros Hle.
    assert (Hn : Range.range_has_next rg = false).
    { unfold Range.range_has_next, rg.
      cbn [Range.step Range.current Range.total Z.gtb Z.compare].
      rewrite Z.gtb_ltb. apply Z.ltb_ge. exact Hle. }
    destruct fuel as [|fuel]; cbn [Range.for_each];
      [split; [reflexivity|exact Hn]|].
    rewrite Hn. split; [reflexivity|exact Hn].
Qed.

(** From 5 to 0 with step 0, four rounds. *)
Lemma range_zero_step_never_ends_witness :
  fst (Range.for_each 4 (Range.trange_with_step 5 0 0)) = [5; 5; 5; 5].
Proof.
  refine (proj1 (proj1 (range_zero_step_never_ends 5 0 4 _) _)).
  - vm_compute. split; discriminate.
  - reflexivity.
Defined.

(** ** The pipe filter *)

Lemma occurrences_append (delim : Ascii.ascii) (a b : string) :
  occurrences delim (a ++ b) = occurrences delim a + occurrences delim b.
Proof.
  induction a as [|c a IH]; cbn [String.append occurrences]; [reflexivity|].
  rewrite IH. lia.
Qed.

Lemma stream_count_append (delim : Ascii.ascii) (a b : string) :
  stream_count delim (a ++ b) = stream_count delim a + stream_count delim b.
Proof.
  unfold stream_count. destruct (Ascii.eqb delim Ascii.zero).
  - rewrite length_append. lia.
  - apply occurrences_append.
Qed.

(** The inner loop: the count. *)
Lemma count_delimiters_count (delim : Ascii.ascii) (buf : string) :
  forall (w : world) (tq : tqdm_t) (processed : Z),
  CInt.is_size processed ->
  fst (fst (count_delimiters w tq buf delim processed))
  = CInt.to_size (processed + occurrences delim buf).
Proof.
  induction buf as [|c buf IH]; intros w tq processed Hp;
    cbn [count_delimiters occurrences].
  - rewrite Z.add_0_r, to_size_small by exact Hp. reflexivity.
  - destruct (Ascii.eqb c delim).
    + destruct (tqdm_update w tq) as [w1 tq1].
      rewrite IH by apply to_size_is_size.
      rewrite to_size_add_l. f_equal. lia.
    + rewrite IH by exact Hp. f_equal.
Qed.

(** The inner loop: an open, enabled bar. *)
Lemma count_delimiters_bar (delim : Ascii.ascii) (buf : string) :
  forall (w : world) (tq : tqdm_t) (processed : Z),
  closed tq = false -> disable (params tq) = false -> CInt.is_size (n tq) ->
  let tq' := snd (count_delimiters w tq buf delim processed) in
  n tq' = CInt.to_size (n tq + occurrences delim buf)
  /\ closed tq' = false /\ disable (params tq') = false.
Proof.
  induction buf as [|c buf IH]; intros w tq processed Hc Hd Hn; cbv zeta;
    cbn [count_delimiters occurrences].
  - rewrite Z.add_0_r, to_size_small by exact Hn. auto.
  - destruct (Ascii.eqb c delim).
    + unfold tqdm_update.
      destruct (update_n_open w tq 1 Hc Hd) as (En & _ & Ec & Ed).
      destruct (tqdm_update_n w tq 1) as [w1 tq1]. cbn [snd] in *.
      assert (Hn1 : CInt.is_size (n tq1))
        by (rewrite En; apply to_size_is_size).
      destruct (IH w1 tq1 (CInt.to_size (processed + 1)) Ec Ed Hn1)
        as (In & Ic & Id).
      split; [|auto]. rewrite In, En, to_size_add_l. f_equal. lia.
    + destruct (IH w tq processed Hc Hd Hn) as (In & Ic & Id).
      split; [|auto]. rewrite In. f_equal.
Qed.

(** The inner loop: a closed or disabled bar. *)
Lemma count_delimiters_idle (delim : Ascii.ascii) (buf : string) :
  forall (w : world) (tq : tqdm_t) (processed : Z),
  closed tq || disable (params tq) = true ->
  snd (fst (count_delimiters w tq buf delim processed)) = w
  /\ snd (count_delimiters w tq buf delim processed) = tq.
Proof.
  induction buf as [|c buf IH]; intros w tq processed H;
    cbn [count_delimiters].
  - auto.
  - destruct (Ascii.eqb c delim).
    + unfold tqdm_update. rewrite update_n_closed_or_disabled by exact H.
      apply IH. exact H.
    + apply IH. exact H.
Qed.

Lemma nonempty_read (buf : string) :
  buf <> "" -> (Z.of_nat (String.length buf) >? 0) = true.
Proof.
  intros H. destruct buf as [|c buf]; [contradiction H; reflexivity|].
  apply Z.gtb_lt. cbn [String.length]. lia.
Qed.

(** The outer loop: the count and the copy. *)
Lemma process_stream_loop_count (delim : Ascii.ascii) (tee : bool)
  (reads : list string) :
  forall (w : world) (tq : tqdm_t) (processed : Z) (copied : string),
  Forall (fun buf => buf <> "") reads -> CInt.is_size processed ->
  let r := process_stream_loop w tq reads delim tee processed copied in
  fst (fst (fst r))
  = CInt.to_size (processed + stream_count delim (all_bytes reads))
  /\ snd (fst (fst r)) = copied ++ (if tee then all_bytes reads else "").
Proof.
  induction reads as [|buf reads IH]; intros w tq processed copied Hr Hp;
    cbv zeta; cbn [process_stream_loop all_bytes fold_right].
  - unfold stream_count. cbn [fst snd String.length occurrences].
    destruct (Ascii.eqb delim Ascii.zero);
      rewrite Z.add_0_r, to_size_small by exact Hp;
      (split; [reflexivity|]); destruct tee; rewrite ?append_nil_r;
      reflexivity.
  - inversion Hr as [|b l Hb Hl]; subst b l.
    rewrite nonempty_read by exact Hb.
    fold (all_bytes reads). rewrite stream_count_append.
    unfold stream_count at 1.
    destruct (Ascii.eqb delim Ascii.zero) eqn:Z0.
    + destruct (tqdm_update_n w tq _) as [w1 tq1].
      destruct (IH w1 tq1
                  (CInt.to_size (processed + Z.of_nat (String.length buf)))
                  (if tee then copied ++ buf else copied) Hl
                  (to_size_is_size _)) as [I1 I2].
      rewrite I1, I2, to_size_add_l. split; [f_equal; lia|].
      destruct tee; [apply append_assoc|reflexivity].
    + pose proof (count_delimiters_count delim buf w tq processed Hp) as C.
      destruct (count_delimiters w tq buf delim processed)
        as [[processed1 w1] tq1]. cbn [fst] in C.
      destruct (IH w1 tq1 processed1
                  (if tee then copied ++ buf else copied) Hl
                  ltac:(rewrite C; apply to_size_is_size)) as [I1 I2].
      rewrite I1, I2, C, to_size_add_l. split; [f_equal; lia|].
      destruct tee; [apply append_assoc|reflexivity].
Qed.

(** The outer loop: an open, enabled bar. *)
Lemma process_stream_loop_bar (delim : Ascii.ascii) (tee : bool)
  (reads : list string) :
  forall (w : world) (tq : tqdm_t) (processed : Z) (copied : string),
  Forall (fun buf => buf <> "") reads ->
  closed tq = false -> disable (params tq) = false -> CInt.is_size (n tq) ->
  n (snd (process_stream_loop w tq reads delim tee processed copied))
  = CInt.to_size (n tq + stream_count delim (all_bytes reads)).
Proof.
  induction reads as [|buf reads IH];
    intros w tq processed copied Hr Hc Hd Hn;
    cbn [process_stream_loop all_bytes fold_right].
  - unfold stream_count. cbn [snd String.length occurrences].
    destruct (Ascii.eqb delim Ascii.zero);
      rewrite Z.add_0_r, to_size_small by exact Hn; reflexivity.
  - inversion Hr as [|b l Hb Hl]; subst b l.
    rewrite nonempty_read by exact Hb.
    fold (all_bytes reads). rewrite stream_count_append.
    unfold stream_count at 1.
    destruct (Ascii.eqb delim Ascii.zero) eqn:Z0.
    + destruct (update_n_open w tq (Z.of_nat (String.length buf)) Hc Hd)
        as (En & _ & Ec & Ed).
      destruct (tqdm_update_n w tq _) as [w1 tq1]. cbn [snd] in *.
      rewrite IH; try assumption.
      * rewrite En, to_size_add_l. f_equal. lia.
      * rewrite En. apply to_size_is_size.
    + pose proof (count_delimiters_bar delim buf w tq processed Hc Hd Hn)
        as C. cbv zeta in C.
      destruct (count_delimiters w tq buf delim processed)
        as [[processed1 w1] tq1]. cbn [snd] in C.
      destruct C as (En & Ec & Ed).
      rewrite IH; try assumption.
      * rewrite En, to_size_add_l. f_equal. lia.
      * rewrite En. apply to_size_is_size.
Qed.

(** The outer loop: a closed or disabled bar. *)
Lemma process_stream_loop_idle (delim : Ascii.ascii) (tee : bool)
  (reads : list string) :
  forall (w : world) (tq : tqdm_t) (processed : Z) (copied : string),
  closed tq || disable (params tq) = true ->
  let r := process_stream_loop w tq reads delim tee processed copied in
  snd (fst r) = w /\ snd r = tq.
Proof.
  induction reads as [|buf reads IH]; intros w tq processed copied H;
    cbv zeta; cbn [process_stream_loop].
  - auto.
  - destruct (Z.of_nat (String.length buf) >? 0); [|auto].
    destruct (Ascii.eqb delim Ascii.zero).
    + rewrite update_n_closed_or_disabled by exact H. apply IH. exact H.
    + pose proof (count_delimiters_idle delim buf w tq processed H)
        as [C1 C2].
      destruct (count_delimiters w tq buf delim processed)
        as [[processed1 w1] tq1]. cbn [fst snd] in C1, C2. subst w1 tq1.
      apply IH. exact H.
Qed.

(** X19.  The pipe filter reports the number of delimiters in the bytes it
    read (the number of bytes when the delimiter is the zero byte), modulo
    2^64, and with tee copies every byte in order; the result depends on
    the bytes only, not on how the reads cut them.  An open, enabled bar
    has its count advanced by the same number; a closed or disabled bar
    and the output stay as they were. *)
Theorem stream_counts_delimiters (w : world) (tq : tqdm_t)
  (reads : list string) (delim : Ascii.ascii) (tee : bool) :
  Forall (fun buf => buf <> "") reads ->
  let r := process_stream w tq reads delim tee in
  fst (fst (fst r))
  = CInt.to_size (stream_count delim (all_bytes reads))
  /\ snd (fst (fst r)) = (if tee then all_bytes reads else "")
  /\ (closed tq = false -> disable (params tq) = false ->
      CInt.is_size (n tq) ->
      n (snd r)
      = CInt.to_size (n tq + stream_count delim (all_bytes reads)))
  /\ (closed tq || disable (params tq) = true ->
      snd (fst r) = w /\ snd r = tq).
Proof.
  intros Hr. cbv zeta. unfold process_stream.
  assert (H0 : CInt.is_size 0)
    by (unfold CInt.is_size, CInt.SIZE_T_MAX; lia).
  destruct (process_stream_loop_count delim tee reads w tq 0 "" Hr H0)
    as [C1 C2].
  split; [exact C1|]. split; [exact C2|]. split.
  - intros Hc Hd Hn. apply process_stream_loop_bar; assumption.
  - intros H. apply process_stream_loop_idle. exact H.
Qed.

(** Two reads of a comma-separated text. *)
Lemma stream_counts_delimiters_witness :
  Forall (fun buf => buf <> "") ["a,b"; ",c,"]
  /\ fst (fst (fst (process_stream (fst (fresh one_second_params))
                      (snd (fresh one_second_params)) ["a,b"; ",c,"]
                      ","%char true))) = 3.
Proof.
  assert (Hr : Forall (fun buf => buf <> "") ["a,b"; ",c,"])
    by (constructor; [discriminate|constructor; [discriminate|constructor]]).
  split; [exact Hr|].
  exact (proj1 (stream_counts_delimiters (fst (fresh one_second_params))
                  (snd (fresh one_second_params)) ["a,b"; ",c,"]
                  ","%char true Hr)).
Defined.

(** ** The glyph bar *)

(** X20.  Up to the total and without overflow of the product, the glyph
    bar has exactly as many cells as its width: the full blocks for the
    whole eighths of [n * 8 * width / total], one partial block for the
    rest if there is one, and empty cells up to the width. *)
Theorem glyph_bar_cells (W n total : Z) :
  1 <= W <= 100 -> 0 < n <= total -> n * 8 * W < 2 ^ 64 ->
  let eighths := n * 8 * W / total in
  let full := eighths / 8 in
  let part := eighths mod 8 in
  let partial_cells := if 0 <? part then 1 else 0 in
  glyph_bar W n total
  = repeat_str (unicode_block 8) (Z.to_nat full)
    ++ (if 0 <? part then unicode_block part else "")
    ++ repeat_str (unicode_block 0) (Z.to_nat (W - full - partial_cells))
  /\ 0 <= full /\ full + partial_cells <= W.
Proof.
  intros HW Hn Hb. cbv zeta.
  set (p := n * 8 * W / total).
  assert (Hp : 0 <= p <= 8 * W).
  { unfold p. split; [apply Z.div_pos; nia|].
    apply Z.div_le_upper_bound; nia. }
  pose proof (Z.div_mod p 8 ltac:(lia)) as D.
  pose proof (Z.mod_pos_bound p 8 ltac:(lia)) as M.
  assert (Hq : 0 <= p / 8 <= W).
  { split; [apply Z.div_pos; lia|]. apply Z.div_le_upper_bound; lia. }
  assert (Hfull : p / 8 = W -> p mod 8 = 0) by lia.
  split.
  - unfold glyph_bar.
    replace (total >? 0) with true by (symmetry; apply Z.gtb_lt; lia).
    replace (n >? 0) with true by (symmetry; apply Z.gtb_lt; lia).
    cbn [andb].
    assert (Ep : CInt.to_int (CInt.to_size (n * 8 * W) / total) = p).
    { unfold CInt.to_size. rewrite Z.mod_small by nia. fold p.
      unfold CInt.to_int. rewrite Z.mod_small by lia. lia. }
    rewrite Ep.
    rewrite Z.quot_div_nonneg, Z.rem_mod_nonneg by lia.
    replace (p / 8 >? W) with false
      by (symmetry; rewrite Z.gtb_ltb; apply Z.ltb_ge; lia).
    rewrite Z.min_l by lia. rewrite (Z.gtb_ltb (p mod 8) 0).
    destruct (0 <? p mod 8) eqn:P.
    + apply Z.ltb_lt in P.
      replace (p / 8 <? W) with true by (symmetry; apply Z.ltb_lt; lia).
      cbn [andb]. do 3 f_equal. lia.
    + rewrite andb_false_r. do 3 f_equal. lia.
  - destruct (0 <? p mod 8) eqn:P; [apply Z.ltb_lt in P|]; lia.
Qed.

(** Three of eight on a bar of ten cells: three full cells, a partial one
    and six empty cells. *)
Lemma glyph_bar_cells_witness :
  1 <= 10 <= 100 /\ 0 < 3 <= 8 /\ 3 * 8 * 10 < 2 ^ 64
  /\ glyph_bar 10 3 8
     = repeat_str (unicode_block 8) 3 ++ unicode_block 6
       ++ repeat_str (unicode_block 0) 6.
Proof.
  assert (H1 : 1 <= 10 <= 100) by lia.
  assert (H2 : 0 < 3 <= 8) by lia.
  assert (H3 : 3 * 8 * 10 < 2 ^ 64) by (vm_compute; reflexivity).
  do 3 (split; [assumption|]).
  exact (proj1 (glyph_bar_cells 10 3 8 H1 H2 H3)).
Defined.

(** ** Counts as text *)

(** X21.  A count below 1000 is printed as it is, in decimal, by
    [tqdm_format_num], and so is the count of the meter when the unit is
    not scaled. *)
Theorem small_counts_print_exactly (k total : Z) (unit_ : option string)
  (rate : double) (unit_divisor : Z) :
  0 <= k < 1000 ->
  tqdm_format_num (Double.of_Z k) = dec k
  /\ fst (fst (meter_counts k total unit_ false rate unit_divisor)) = dec k.
Proof.
  intros H.
  assert (A : forallb (fun i => String.eqb
                                  (tqdm_format_num (Double.of_Z (Z.of_nat i)))
                                  (dec (Z.of_nat i)))
                (seq 0 1000) = true) by (vm_compute; reflexivity).
  rewrite forallb_forall in A.
  specialize (A (Z.to_nat k)). rewrite Z2Nat.id in A by lia.
  assert (E : tqdm_format_num (Double.of_Z k) = dec k)
    by (apply String.eqb_eq, A, in_seq; lia).
  split; [exact E|]. unfold meter_counts. cbn [fst]. exact E.
Qed.

(** The count 999. *)
Lemma small_counts_print_exactly_witness :
  0 <= 999 < 1000 /\ tqdm_format_num (Double.of_Z 999) = "999".
Proof.
  assert (H : 0 <= 999 < 1000) by lia.
  split; [exact H|].
  exact (proj1 (small_counts_print_exactly 999 0 None Double.zero 1000 H)).
Defined.

Lemma leb_billion (a : double) :
  Double.leb (Double.of_Z (10 ^ 15)) a = true ->
  Double.leb (Double.of_Z (10 ^ 9)) a = true.
Proof.
  change (Double.of_Z (10 ^ 15))
    with (S754_finite false 8000000000000000 (-3)).
  change (Double.of_Z (10 ^ 9))
    with (S754_finite false 8388608000000000 (-23)).
  unfold Double.leb, SFleb, SFcompare.
  destruct a as [s|s| |s m e]; try (intros H; exact H).
  destruct s; [intros H; exact H|].
  destruct (Z.compare (-3) e) eqn:C.
  - apply Z.compare_eq in C. subst e. intros _. reflexivity.
  - rewrite Z.compare_lt_iff in C.
    replace (Z.compare (-23) e) with Lt
      by (symmetry; apply Z.compare_lt_iff; lia).
    intros _. reflexivity.
  - intros H. discriminate H.
Qed.

(** X22.  From 10^15 on, the infinities included, [tqdm_format_num]
    takes its billions branch and never the exponent notation of its last
    branch: the text is the fixed-point text of the number divided by 10^9
    (no decimals from 100 on), followed by [b], and cut to the 31 bytes of
    the buffer.  So 10^15 is printed as [1000000b], an infinity as [infb],
    and a number whose digits fill the buffer loses the [b]. *)
Theorem large_numbers_print_in_billions (x : double) :
  Double.leb (Double.of_Z (10 ^ 15)) (Double.fabs x) = true ->
  let scaled := Double.div x (Double.of_Z (10 ^ 9)) in
  tqdm_format_num x
  = snprintf 32 (fixed (scaled_places scaled) scaled ++ "b").
Proof.
  intros H. cbv zeta. unfold tqdm_format_num, scaled_places.
  assert (L : Double.ltb (Double.fabs x) (Double.of_Z (10 ^ 15)) = false).
  { destruct (Double.ltb (Double.fabs x) (Double.of_Z (10 ^ 15))) eqn:E;
      [|reflexivity].
    apply ltb_not_leb in E. congruence. }
  rewrite L, andb_false_r, (leb_billion _ H).
  cbn [String.eqb Ascii.eqb negb].
  destruct (Double.leb (Double.of_Z 100) _); [reflexivity|].
  destruct (Double.leb (Double.of_Z 10) _); reflexivity.
Qed.

(** The number 10^15, an infinity, and the double nearest to 10^300, of
    which the first 31 digits are printed. *)
Lemma large_numbers_print_in_billions_witness :
  Double.leb (Double.of_Z (10 ^ 15)) (Double.fabs (Double.of_Z (10 ^ 15)))
  = true
  /\ tqdm_format_num (Double.of_Z (10 ^ 15)) = "1000000b"
  /\ tqdm_format_num (S754_infinity false) = "infb"
  /\ tqdm_format_num (Double.of_Z (10 ^ 300))
     = "1000000000000000096350143920374".
Proof.
  assert (H : Double.leb (Double.of_Z (10 ^ 15))
                (Double.fabs (Double.of_Z (10 ^ 15))) = true)
    by (vm_compute; reflexivity).
  split; [exact H|]. split; [|split].
  - exact (eq_trans
             (large_numbers_print_in_billions (Double.of_Z (10 ^ 15)) H)
             eq_refl).
  - rewrite (large_numbers_print_in_billions (S754_infinity false))
      by (vm_compute; reflexivity).
    vm_compute. reflexivity.
  - rewrite (large_numbers_print_in_billions (Double.of_Z (10 ^ 300)))
      by (vm_compute; reflexivity).
    vm_compute. reflexivity.
Defined.

(** ** Pull-next through an adapter *)

(** X23.  With an adapter, one pull asks the adapter whether it has more
    and then, on the state this left, for the next element, once each: the
    element and the adapter state are those of that call, and the count
    and the pulls recorded grow by 1 whether the instance is enabled or
    not. *)
Theorem adapter_is_asked_once (S : Type) (next_func : S -> Z * S)
  (has_next_func : S -> bool * S) (w : world) (it : S) (tq : tqdm_t) :
  closed tq = false -> iterator_mode tq = true ->
  fst (has_next_func it) = true ->
  let r := tqdm_next next_func has_next_func w it tq in
  fst (fst (fst r)) = fst (next_func (snd (has_next_func it)))
  /\ snd (fst r) = snd (next_func (snd (has_next_func it)))
  /\ n (snd r) = CInt.to_size (n tq + 1)
  /\ count (snd r) = CInt.to_size (count tq + 1)
  /\ current (snd r) = current tq
  /\ closed (snd r) = false.
Proof.
  intros Hc Hi Hm. cbv zeta. unfold tqdm_next, tqdm_has_next.
  rewrite Hc, Hi.
  destruct (has_next_func it) as [more it1]. cbn [fst snd] in *.
  subst more. cbn [negb].
  destruct (next_func it1) as [res it2]. cbn [fst snd].
  set (tq0 := set_counters (CInt.to_size (n tq + 1))
                (CInt.to_size (count tq + 1)) tq).
  pose proof (dynamic_miniters_frame w tq0) as F.
  pose proof (dynamic_miniters_array w tq0) as A.
  cbv zeta in F, A.
  destruct (tqdm_update_dynamic_miniters w tq0) as [w1 tq1].
  cbn [fst snd] in F, A.
  destruct F as (_ & _ & _ & _ & Fn & Fk & Fcl & _).
  destruct A as (Ac & _).
  unfold tq0 in Fn, Fk, Fcl, Ac.
  cbn [set_counters current n count closed] in Fn, Fk, Fcl, Ac.
  clearbody tq0. cbn [current_time_seconds].
  destruct (should_print_of tq1 _ _ && negb (disable (params tq1))).
  - match goal with
    | |- context [tqdm_print_progress ?w2 tq1] =>
        destruct (print_progress_counters w2 tq1) as (Pn & Pk & Pc);
        destruct (print_progress_array w2 tq1) as (Qc & _);
        destruct (tqdm_print_progress w2 tq1) as [w3 tq3]
    end.
    cbn [fst snd] in *. repeat split; congruence.
  - cbn [fst snd]. repeat split; congruence.
Qed.

(** A counter as adapter state: it has more below 3 and hands out its
    value. *)
Lemma adapter_is_asked_once_witness :
  let has_more := fun k : Z => (k <? 3, k) in
  let next_one := fun k : Z => (k, k + 1) in
  let tq := snd (tqdm_create_iterator empty_environment half_second_world) in
  closed tq = false /\ iterator_mode tq = true
  /\ fst (has_more 0) = true
  /\ snd (fst (tqdm_next next_one has_more half_second_world 0 tq)) = 1.
Proof.
  cbv zeta.
  split; [reflexivity|]. split; [reflexivity|]. split; [reflexivity|].
  exact (proj1 (proj2 (adapter_is_asked_once Z
                         (fun k : Z => (k, k + 1))
                         (fun k : Z => (k <? 3, k)) half_second_world 0
                         (snd (tqdm_create_iterator empty_environment
                                 half_second_world))
                         eq_refl eq_refl eq_refl))).
Defined.

(** ** The bar within its buffer *)

Lemma to_int_of_trunc (x : double) (z : Z) :
  Double.trunc x = Some z -> CInt.INT_MIN <= z <= CInt.INT_MAX ->
  Double.to_int x = z.
Proof.
  unfold Double.to_int, Double.to_range. intros T B.
  destruct x as [s|s| |s m e]; try discriminate T.
  - rewrite T. lia.
  - rewrite T. lia.
Qed.

Lemma repeat_str_length (s : string) (k : nat) :
  String.length (repeat_str s k) = (k * String.length s)%nat.
Proof.
  induction k as [|k IH]; cbn [repeat_str String.length Nat.mul];
    [reflexivity|].
  rewrite length_append, IH. reflexivity.
Qed.

(** The bytes counted by [glyph_bar_bytes] are those of the text that
    [glyph_bar] builds. *)
Lemma glyph_bar_length (W n total : Z) :
  Z.of_nat (String.length (glyph_bar W n total)) = glyph_bar_bytes W n total.
Proof.
  unfold glyph_bar, glyph_bar_bytes.
  destruct ((total >? 0) && (n >? 0)).
  - set (pf := CInt.to_int (CInt.to_size (n * 8 * W) / total)).
    destruct (Z.quot pf 8 >? W).
    + rewrite Z.ltb_irrefl. cbn [andb].
      rewrite !length_append, !repeat_str_length.
      cbn [String.length]. lia.
    + destruct ((Z.quot pf 8 <? W) && (Z.rem pf 8 >? 0)).
      * rewrite !length_append, !repeat_str_length. lia.
      * rewrite !length_append, !repeat_str_length.
        cbn [String.length]. lia.
  - rewrite repeat_str_length. lia.
Qed.

(** The bars of 3 cells at [n = total = 2^52 - 1] (ASCII) and at
    [n = total = 2^61] (glyphs) stay within their buffer. *)
Example large_total_bars_defined :
  meter_bar_defined true 3 (2 ^ 52 - 1) (2 ^ 52 - 1) = true
  /\ meter_bar_defined false 3 (2 ^ 61) (2 ^ 61) = true.
Proof. split; vm_compute; reflexivity. Qed.

(** X24.  Where the fill count converts to [int] (the integer part of
    [width * n / total] is at most [INT_MAX]; see [ascii_bar_defined]),
    the ASCII bar has exactly as many characters as its width, also for a
    count above the total: marks first, for the filled part, then
    spaces.  Beyond that bound the conversion is undefined and the
    program is not described. *)
Theorem ascii_bar_cells (W n total : Z) :
  0 <= W -> ascii_bar_defined W n total = true ->
  let filled := ascii_filled W n total in
  0 <= filled <= W
  /\ ascii_bar W n total
     = repeat_str "#" (Z.to_nat filled)
       ++ repeat_str " " (Z.to_nat (W - filled))
  /\ String.length (ascii_bar W n total) = Z.to_nat W.
Proof.
  intros HW Hd. cbv zeta.
  assert (F : 0 <= ascii_filled W n total <= W).
  { unfold ascii_filled. unfold ascii_bar_defined in Hd.
    set (q := if total >? 0 then _ else 0).
    assert (Hq : 0 <= q).
    { unfold q. destruct (total >? 0); [|lia].
      destruct (Double.trunc _) as [z|] eqn:T; [|discriminate Hd].
      apply andb_prop in Hd as [H0 H1].
      apply Z.leb_le in H0. apply Z.leb_le in H1.
      rewrite (to_int_of_trunc _ z T)
        by (unfold CInt.INT_MIN, CInt.INT_MAX in *; lia).
      exact H0. }
    destruct (q >? W) eqn:G; [lia|].
    rewrite Z.gtb_ltb in G. apply Z.ltb_ge in G. lia. }
  assert (L : String.length
                (repeat_str "#" (Z.to_nat (ascii_filled W n total))
                 ++ repeat_str " "
                      (Z.to_nat (W - ascii_filled W n total)))
              = Z.to_nat W).
  { rewrite length_append, !repeat_str_length. cbn [String.length]. lia. }
  assert (E : ascii_bar W n total
              = repeat_str "#" (Z.to_nat (ascii_filled W n total))
                ++ repeat_str " " (Z.to_nat (W - ascii_filled W n total))).
  { unfold ascii_bar. apply substring_all. rewrite L. lia. }
  split; [exact F|]. split; [exact E|]. rewrite E. exact L.
Qed.

(** Half of a bar of ten characters, and a count of three times the
    total. *)
Lemma ascii_bar_cells_witness :
  0 <= 10 /\ ascii_bar_defined 10 5 10 = true
  /\ ascii_bar 10 5 10 = "#####     "
  /\ ascii_bar_defined 10 30 10 = true
  /\ ascii_bar 10 30 10 = "##########".
Proof.
  assert (H1 : 0 <= 10) by lia.
  assert (H2 : ascii_bar_defined 10 5 10 = true) by (vm_compute; reflexivity).
  assert (H3 : ascii_bar_defined 10 30 10 = true)
    by (vm_compute; reflexivity).
  split; [exact H1|]. split; [exact H2|]. split; [|split; [exact H3|]].
  - rewrite (proj1 (proj2 (ascii_bar_cells 10 5 10 H1 H2))).
    vm_compute. reflexivity.
  - rewrite (proj1 (proj2 (ascii_bar_cells 10 30 10 H1 H3))).
    vm_compute. reflexivity.
Defined.

(** ** The write helper *)

Lemma substring_split (buf : string) (k : nat) :
  (k <= String.length buf)%nat ->
  substring 0 k buf ++ substring k (String.length buf - k) buf = buf.
Proof.
  revert k. induction buf as [|c buf IH]; intros k H.
  - cbn [String.length] in H. assert (k = 0%nat) by lia. subst k.
    reflexivity.
  - destruct k as [|k].
    + cbn [substring String.append String.length Nat.sub].
      f_equal. apply substring_all. lia.
    + cbn [String.length] in H.
      cbn [substring String.append String.length Nat.sub].
      f_equal. apply IH. lia.
Qed.

Lemma length_zero (s : string) : String.length s = 0%nat -> s = "".
Proof. destruct s; [reflexivity|discriminate]. Qed.

(** The loop writes a prefix of the buffer, all of it when it returns
    true and not all of it when it returns false. *)
Lemma write_harder_loop_prefix (outcomes : list write_outcome) :
  forall (buf : string) (did_anything : bool) (sent : string),
  let r := write_harder_loop outcomes buf did_anything sent in
  exists done rest : string,
    buf = done ++ rest /\ snd r = sent ++ done
    /\ (fst r = Returned true -> rest = "")
    /\ (fst r = Returned false -> rest <> "").
Proof.
  assert (Stop : forall (st : write_status) (buf sent : string),
            (st = Returned true -> buf = "") ->
            (st = Returned false -> buf <> "") ->
            exists done rest : string,
              buf = done ++ rest /\ snd (st, sent) = sent ++ done
              /\ (fst (st, sent) = Returned true -> rest = "")
              /\ (fst (st, sent) = Returned false -> rest <> "")).
  { intros st buf sent T F. exists "", buf.
    split; [reflexivity|]. split; [symmetry; apply append_nil_r|].
    split; assumption. }
  induction outcomes as [|o outcomes IH]; intros buf did sent; cbv zeta.
  - cbn [write_harder_loop].
    destruct (String.length buf =? 0)%nat eqn:L.
    + apply Nat.eqb_eq, length_zero in L.
      apply Stop; [intros _; exact L|intros H; discriminate H].
    + apply Stop; intros H; discriminate H.
  - cbn [write_harder_loop].
    destruct (String.length buf =? 0)%nat eqn:L.
    { apply Nat.eqb_eq, length_zero in L.
      apply Stop; [intros _; exact L|intros H; discriminate H]. }
    assert (Hne : buf <> "").
    { intros E. subst buf. discriminate L. }
    destruct o as [k| |].
    + cbv zeta.
      destruct (Nat.min k (String.length buf) =? 0)%nat eqn:R.
      { apply Stop; intros H; discriminate H. }
      destruct (IH (substring (Nat.min k (String.length buf))
                      (String.length buf - Nat.min k (String.length buf))
                      buf) true
                  (sent ++ substring 0 (Nat.min k (String.length buf)) buf))
        as (done & rest & E & S & T & F).
      exists (substring 0 (Nat.min k (String.length buf)) buf ++ done), rest.
      split.
      { rewrite append_assoc, <- E. symmetry. apply substring_split. lia. }
      split; [rewrite S; apply append_assoc|]. split; assumption.
    + destruct did; cbn [negb].
      * apply IH.
      * apply Stop; [intros H; discriminate H|intros _; exact Hne].
    + apply Stop; [intros H; discriminate H|intros _; exact Hne].
Qed.

(** X25.  [write_harder] reports the truth: whatever the successive calls
    of [write] do, the bytes that reached the descriptor are a prefix of
    the buffer, in order; it returns true only when that prefix is the
    whole buffer and false only when a part is missing.  When the first
    call would block, it returns false at once with nothing written. *)
Theorem write_harder_reports_truth (outcomes : list write_outcome)
  (buf : string) :
  let r := write_harder outcomes buf in
  (exists rest : string, buf = snd r ++ rest)
  /\ (fst r = Returned true -> snd r = buf)
  /\ (fst r = Returned false -> snd r <> buf)
  /\ (buf <> "" ->
      write_harder (TryAgain :: outcomes) buf = (Returned false, "")).
Proof.
  cbv zeta. unfold write_harder.
  destruct (write_harder_loop_prefix outcomes buf false "")
    as (done & rest & E & S & T & F).
  cbn [String.append] in S.
  split; [exists rest; rewrite S; exact E|].
  split; [|split].
  - intros H. rewrite S, E, (T H). symmetry. apply append_nil_r.
  - intros H Heq. apply (F H). rewrite S in Heq.
    rewrite E in Heq.
    apply (f_equal String.length) in Heq.
    rewrite length_append in Heq.
    apply length_zero. lia.
  - intros Hne. cbn [write_harder_loop negb].
    destruct (String.length buf =? 0)%nat eqn:L; [|reflexivity].
    apply Nat.eqb_eq, length_zero in L. contradiction.
Qed.

(** * The throttle and the meter where the counts are in order *)

(** X26.  Where the count is not below the count of the last render, an
    advance of an open, enabled instance renders exactly when both gates
    pass as the specification words them: the count gate when the
    instance is complete, the threshold (as adapted by this advance) is 0,
    or [n - last_render_count], the plain difference, has reached the
    threshold; the time gate when the instance is complete or the minimum
    interval has passed at the time read for the gates.  A render stores
    the time that the renderer reads, one reading of the clock later, and
    the count; without a render nothing is written and both stay.  The
    bar of the new count is taken to stay within its buffer
    ([bar_defined]). *)
Theorem advance_renders_iff_gates (w : world) (tq : tqdm_t) (delta : Z) :
  closed tq = false -> disable (params tq) = false ->
  0 <= last_print_count tq <= CInt.to_size (n tq + delta) ->
  bar_defined (ascii (params tq)) (CInt.to_size (n tq + delta))
    (total (params tq)) = true ->
  let tq1 := advanced w tq delta in
  let t := clock w (Datatypes.S (ticks w)) in
  let w' := fst (tqdm_update_n w tq delta) in
  let tq' := snd (tqdm_update_n w tq delta) in
  (rendered w w' <-> count_gate_as_specified tq1 && time_gate t tq1 = true)
  /\ (rendered w w' ->
      last_print_time tq' = clock w (Datatypes.S (Datatypes.S (ticks w)))
      /\ last_print_count tq' = n tq')
  /\ (~ rendered w w' ->
      written w' = written w
      /\ last_print_time tq' = last_print_time tq
      /\ last_print_count tq' = last_print_count tq)
  /\ n tq' = CInt.to_size (n tq + delta).
Proof.
  intros Hc Hd Hl _. cbv zeta.
  destruct (update_n_renders_iff_gates w tq delta Hc Hd)
    as (Hr & Hs & Hk & Hn & _ & Plain).
  pose proof (dynamic_miniters_frame w
                (set_n (CInt.to_size (n tq + delta)) tq)) as F.
  cbv zeta in F. fold (advanced w tq delta) in F.
  destruct F as (_ & _ & _ & _ & Fn & _ & _ & _ & Fl & _).
  cbn [set_n n last_print_count] in Fn, Fl.
  assert (G : count_gate_as_specified (advanced w tq delta)
              = count_gate (advanced w tq delta)).
  { rewrite Plain by (rewrite Fn; exact Hl).
    unfold count_gate_as_specified. rewrite Fl. reflexivity. }
  rewrite G. split; [exact Hr|]. split; [exact Hs|].
  split; [exact Hk|exact Hn].
Qed.

(** A fresh instance with the threshold 1 and the total unknown, advanced
    by 1 one second after its creation: it is not complete, the count has
    moved by the threshold and the minimum interval has passed, and the
    line is written. *)
Lemma advance_renders_iff_gates_witness :
  let w := fst (fresh (set_miniters 1 one_second_params)) in
  let tq := snd (fresh (set_miniters 1 one_second_params)) in
  closed tq = false /\ disable (params tq) = false
  /\ 0 <= last_print_count tq <= CInt.to_size (n tq + 1)
  /\ bar_defined (ascii (params tq)) (CInt.to_size (n tq + 1))
       (total (params tq)) = true
  /\ is_complete (advanced w tq 1) = false
  /\ rendered w (fst (tqdm_update_n w tq 1)).
Proof.
  cbv zeta.
  assert (H1 : 0 <= last_print_count
                      (snd (fresh (set_miniters 1 one_second_params)))
               <= CInt.to_size
                    (n (snd (fresh (set_miniters 1 one_second_params)))
                     + 1))
    by (vm_compute; split; discriminate).
  assert (H2 : bar_defined
                 (ascii (params
                           (snd (fresh (set_miniters 1 one_second_params)))))
                 (CInt.to_size
                    (n (snd (fresh (set_miniters 1 one_second_params)))
                     + 1))
                 (total (params
                           (snd (fresh (set_miniters 1 one_second_params)))))
               = true) by (vm_compute; reflexivity).
  split; [reflexivity|]. split; [reflexivity|].
  split; [exact H1|]. split; [exact H2|].
  split; [vm_compute; reflexivity|].
  exact (proj2 (proj1 (advance_renders_iff_gates
                         (fst (fresh (set_miniters 1 one_second_params)))
                         (snd (fresh (set_miniters 1 one_second_params)))
                         1 eq_refl eq_refl H1 H2))
           eq_refl).
Defined.

(** X27.  Where the count is not below the count of the last render, an
    advance of an open, enabled instance adapts the threshold as the
    specification says, up to the width of the field: when the threshold
    is 0, the time since the last render (read at the start of the
    advance) is positive and below the minimum interval, and the count has
    grown since the last render, the threshold becomes twice the growth,
    cut to the 32 bits of the [unsigned] it is stored in; otherwise it
    stays.  For a growth below 2^31 nothing is cut. *)
Theorem threshold_adapts_to_growth (w : world) (tq : tqdm_t) (delta : Z) :
  closed tq = false -> disable (params tq) = false ->
  0 <= last_print_count tq <= CInt.to_size (n tq + delta) ->
  let n' := CInt.to_size (n tq + delta) in
  let growth := n' - last_print_count tq in
  let adapts :=
    (miniters (params tq) =? 0)
    && Double.ltb (Double.of_Z 0) (since_last_print w tq)
    && Double.ltb (since_last_print w tq) (mininterval (params tq))
    && (n' >? last_print_count tq) in
  miniters (params (snd (tqdm_update_n w tq delta)))
  = (if adapts then CInt.to_unsigned (2 * growth)
     else miniters (params tq))
  /\ (growth < 2 ^ 31 -> CInt.to_unsigned (2 * growth) = 2 * growth).
Proof.
  intros Hc Hd Hl. cbv zeta.
  destruct (update_n_adapts_threshold w tq delta Hc Hd) as (E & _ & _).
  cbv zeta in E.
  assert (B : 0 <= CInt.to_size (n tq + delta) < 2 ^ 64)
    by (unfold CInt.to_size; apply Z.mod_pos_bound; lia).
  assert (S : CInt.to_size (CInt.to_size (n tq + delta)
                            - last_print_count tq)
              = CInt.to_size (n tq + delta) - last_print_count tq).
  { apply to_size_small. unfold CInt.is_size, CInt.SIZE_T_MAX. lia. }
  rewrite S in E.
  replace (CInt.to_size (n tq + delta) - last_print_count tq >? 0)
    with (CInt.to_size (n tq + delta) >? last_print_count tq) in E.
  - split; [exact E|].
    intros G. unfold CInt.to_unsigned. apply Z.mod_small. lia.
  - rewrite !Z.gtb_ltb.
    destruct (last_print_count tq <? CInt.to_size (n tq + delta)) eqn:L1;
      symmetry.
    + apply Z.ltb_lt in L1. apply Z.ltb_lt. lia.
    + apply Z.ltb_ge in L1. apply Z.ltb_ge. lia.
Qed.

(** A fresh instance, 0.5 s after its creation, advanced by 3: the
    threshold becomes 6. *)
Lemma threshold_adapts_to_growth_witness :
  let w := fst (fresh one_second_params) in
  let tq := snd (fresh one_second_params) in
  closed tq = false /\ disable (params tq) = false
  /\ 0 <= last_print_count tq <= CInt.to_size (n tq + 3)
  /\ miniters (params (snd (tqdm_update_n w tq 3))) = 6.
Proof.
  cbv zeta.
  assert (H1 : 0 <= last_print_count (snd (fresh one_second_params))
               <= CInt.to_size (n (snd (fresh one_second_params)) + 3))
    by (vm_compute; split; discriminate).
  split; [reflexivity|]. split; [reflexivity|]. split; [exact H1|].
  exact (eq_trans
           (proj1 (threshold_adapts_to_growth
                     (fst (fresh one_second_params))
                     (snd (fresh one_second_params)) 3 eq_refl eq_refl H1))
           eq_refl).
Defined.

(** X28.  The remaining-time estimate of the meter is computed, as
    [(total - n) / rate], exactly when [total > 0], [n > 0], [rate > 0] and
    [n < total], and the divisor is then not zero; in every other case,
    an unknown total and a rate that is not positive among them, the
    remaining field is the marker ["?"].  Where the bar stays within its
    buffer ([meter_bar_defined]), the default layout prints that field
    after the elapsed time. *)
Theorem remaining_field_defined_iff (n total : Z) (rate : double) :
  CInt.is_size n -> CInt.is_size total ->
  let defined :=
    (total >? 0) && (n >? 0) && Double.ltb (Double.of_Z 0) rate
    && (n <? total) in
  remaining_estimate n total rate
  = (if defined then Some (Double.div (Double.of_Z (total - n)) rate)
     else None)
  /\ meter_remaining_str n total rate
     = (if defined
        then tqdm_format_interval (Double.div (Double.of_Z (total - n)) rate)
        else "?")
  /\ (defined = true -> Double.eqb rate (Double.of_Z 0) = false)
  /\ meter_remaining_str n 0 rate = "?"
  /\ (Double.leb rate (Double.of_Z 0) = true ->
      meter_remaining_str n total rate = "?")
  /\ (forall elapsed ncols prefix ascii unit_ unit_scale bar_format postfix
        unit_divisor initial colour,
        nonempty bar_format = false ->
        meter_bar_defined ascii (meter_bar_width ncols prefix postfix)
          n total = true ->
        exists before after,
          tqdm_format_meter n total elapsed ncols prefix ascii unit_
            unit_scale rate bar_format postfix unit_divisor initial colour
          = snprintf 1024
              (before ++ " [" ++ tqdm_format_interval elapsed ++ "<" ++
               meter_remaining_str n total rate ++ ", " ++ after)).
Proof.
  intros Hn Ht. cbv zeta.
  destruct (remaining_defined_iff n total rate Hn Ht)
    as (E1 & E2 & E3 & E4 & E5 & E6).
  cbv zeta in E1, E2, E3.
  repeat split; try assumption.
  intros elapsed ncols prefix ascii unit_ unit_scale bar_format postfix
    unit_divisor initial colour Hb _.
  apply E6. exact Hb.
Qed.

(** 750 of 1000 at 24.6 per second: 250 / 24.6 s remain, shown as
    ["00:10"]. *)
Lemma remaining_field_defined_iff_witness :
  CInt.is_size 750 /\ CInt.is_size 1000
  /\ meter_remaining_str 750 1000
       (Double.div (Double.of_Z 246) (Double.of_Z 10)) = "00:10".
Proof.
  assert (H1 : CInt.is_size 750)
    by (unfold CInt.is_size, CInt.SIZE_T_MAX; lia).
  assert (H2 : CInt.is_size 1000)
    by (unfold CInt.is_size, CInt.SIZE_T_MAX; lia).
  split; [exact H1|]. split; [exact H2|].
  exact (eq_trans
           (proj1 (proj2 (remaining_field_defined_iff 750 1000
                            (Double.div (Double.of_Z 246) (Double.of_Z 10))
                            H1 H2)))
           eq_refl).
Defined.
